(** * cloudsdk_test_driver: a shallow embedding of the driver and its
    configuration, archive and lifecycle code.

    The development follows the Python sources file by file:
    [constants] (constants.py), [error] (the exceptions the driver raises),
    [posixpath] (the os.path functions the driver calls), [_config]
    (_config.py), [_sdk_tar] (_sdk_tar.py) and [driver] (driver.py).
    All definitions come first; the theorems follow in the second half. *)

From Stdlib Require Import ZArith String Ascii List Lia.
From stdpp Require Import gmap strings list fin_maps pretty.

Open Scope string_scope.
Open Scope list_scope.
Open Scope stdpp_scope.
Set Warnings "-register-all".

(** ** Exceptions and results *)

(** The exception classes that reach a caller of the driver.  The three
    driver-specific classes are those of error.py; the others are Python's
    own. *)
Inductive exn : Type :=
  | ConfigError (msg : string)
  | InitError (msg : string)
  | SDKError (msg : string)
  | ValueError (msg : string)
  | KeyError (key : string)
  | TypeError (msg : string)
  | AttributeError (msg : string)
  | OSError (msg : string)
  | IOError (msg : string)
  | ShutilError (msg : string)
  | URLError (reason : string)
  | TarError (msg : string)
  | TimeoutExpired.

Inductive result (A : Type) : Type :=
  | Ok (a : A)
  | Raise (e : exn).
Arguments Ok {A} a.
Arguments Raise {A} e.

Definition is_Ok {A} (r : result A) : bool :=
  match r with Ok _ => true | Raise _ => false end.

(** Python's truth value of a string-or-None. *)
Definition truthy (o : option string) : bool :=
  match o with
  | None => false
  | Some s => negb (String.eqb s "")
  end.

(** [sep.join(parts)] *)
Fixpoint str_join (sep : string) (parts : list string) : string :=
  match parts with
  | [] => ""
  | [p] => p
  | p :: rest => p +:+ sep +:+ str_join sep rest
  end.

(** [needle in hay] on strings: [needle] occurs in [hay] as a substring. *)
Fixpoint str_contains (needle hay : string) : bool :=
  String.prefix needle hay
  || match hay with
     | "" => false
     | String _ hay' => str_contains needle hay'
     end.

(** ** Python dictionaries and configuration values

    A dictionary is the list of its items in iteration order, with no key
    twice.  Setting a key that is present replaces its value in place; a
    new key goes to the end. *)
Module pydict.
Section ops.
Context {V : Type}.

Fixpoint get (d : list (string * V)) (k : string) : option V :=
  match d with
  | [] => None
  | (k', v) :: d' => if String.eqb k' k then Some v else get d' k
  end.

Definition mem (d : list (string * V)) (k : string) : bool :=
  match get d k with Some _ => true | None => false end.

Fixpoint set (d : list (string * V)) (k : string) (v : V)
  : list (string * V) :=
  match d with
  | [] => [(k, v)]
  | (k', v') :: d' =>
      if String.eqb k' k then (k, v) :: d' else (k', v') :: set d' k v
  end.

(** [d.update(other)] *)
Definition update (d other : list (string * V)) : list (string * V) :=
  fold_left (fun acc kv => set acc kv.1 kv.2) other d.

(** [dict(items)]: the dictionary built from a sequence of items, a
    later item replacing an earlier one of the same key. *)
Definition of_items (items : list (string * V)) : list (string * V) :=
  update [] items.

End ops.
End pydict.

(** The values a configuration key can have: [None], a string, or a
    mapping from strings to strings. *)
Inductive value : Type :=
  | VNone
  | VStr (s : string)
  | VMap (m : list (string * string)).

(** ** constants.py *)
Module constants.

(** The default configuration. Also specifies what keys are valid. *)
Definition DEFAULT_CONFIG : list (string * value) :=
  [ ("environment_variables",
     VMap [("CLOUDSDK_CORE_DISABLE_PROMPTS", "1")]);
    ("service_account_email", VNone);
    ("service_account_keyfile", VNone);
    ("project", VNone);
    ("properties", VMap []) ].

Definition RELEASE_TAR : string :=
  "https://dl.google.com/dl/cloudsdk/channels/" +:+
  "rapid/google-cloud-sdk.tar.gz".

Definition DRIVER_LOCATION_ENV : string := "CLOUDSDK_DRIVER_LOCATION".
Definition DRIVER_KEEP_LOCATION_ENV : string := "CLOUDSDK_DRIVER_KEEP_LOCATION".
Definition SNAPSHOT_ENV : string := "CLOUDSDK_COMPONENT_MANAGER_SNAPSHOT_URL".
Definition PYTHON_ENV : string := "CLOUDSDK_PYTHON".
Definition CONFIG_ENV : string := "CLOUDSDK_CONFIG".
Definition PYTHON_PATH : string := "PYTHONPATH".

Definition COMPONENTS_FILE : string := "components-2.json".
Definition INSTALLER_FILE : string := "google-cloud-sdk.tar.gz".

Definition SDK_FOLDER : string := "google-cloud-sdk".
Definition REPO_FOLDER : string := "repo".
Definition DOWNLOAD_FOLDER : string := "downloads".
Definition BIN_FOLDER : string := "bin".

Definition LOCKED_ENVIRONMENT_VARIABLES : list string :=
  [CONFIG_ENV; DRIVER_LOCATION_ENV].

End constants.

(** ** os.path on a POSIX host

    The driver refuses to initialise on Windows, so the path functions are
    those of posixpath and [os.pathsep] is a colon. *)
Module posixpath.

Definition sep : ascii := "/"%char.
Definition pathsep : string := ":".

Definition starts_with_sep (p : string) : bool :=
  match p with
  | String c _ => Ascii.eqb c sep
  | "" => false
  end.

Fixpoint ends_with_sep (p : string) : bool :=
  match p with
  | "" => false
  | String c "" => Ascii.eqb c sep
  | String _ p' => ends_with_sep p'
  end.

(** [os.path.join(a, b)]: an absolute [b] discards [a]; otherwise the
    two are joined with exactly one separator between them. *)
Definition join (a b : string) : string :=
  if starts_with_sep b then b
  else if String.eqb a "" || ends_with_sep a then a +:+ b
  else a +:+ "/" +:+ b.

(** [split_last p = (head, tail)] with [head] everything up to and
    including the last separator of [p] and [tail] the rest, the
    [p[:i]], [p[i:]] of posixpath with [i = p.rfind('/') + 1]. *)
Fixpoint split_last (p : string) : string * string :=
  match p with
  | "" => ("", "")
  | String c p' =>
      let '(hd, tl) := split_last p' in
      if Ascii.eqb c sep then
        (* a later separator exists iff [hd] is not empty *)
        if String.eqb hd "" then (String c "", p') else (String c hd, tl)
      else
        if String.eqb hd "" then ("", String c p') else (String c hd, tl)
  end.

Definition basename (p : string) : string := snd (split_last p).

Fixpoint all_sep (p : string) : bool :=
  match p with
  | "" => true
  | String c p' => Ascii.eqb c sep && all_sep p'
  end.

(** [head.rstrip('/')] *)
Fixpoint rstrip_sep (p : string) : string :=
  match p with
  | "" => ""
  | String c p' =>
      if all_sep (String c p') then "" else String c (rstrip_sep p')
  end.

Definition dirname (p : string) : string :=
  let hd := fst (split_last p) in
  if negb (String.eqb hd "") && negb (all_sep hd) then rstrip_sep hd else hd.

(** *** Path resolution

    The file system below is keyed by resolved paths: the list of the
    names from the root to the entry.  [resolve cwd p] is the entry a
    path string designates: separators split it, empty and [.]
    components are dropped and [..] steps to the parent.  Symbolic
    links are not modelled, and the resolution is lexical, as
    [os.path.normpath] computes it: a [..] cancels the name before it
    whether or not there is such a directory, and a separator at the
    end is dropped.  The operating system agrees where the names
    before a [..] are directories and no separator follows the name of
    a regular file; elsewhere it reports an error. *)

(** [p.split('/')] *)
Fixpoint split_sep (p : string) : list string :=
  match p with
  | "" => [""]
  | String c p' =>
      if Ascii.eqb c sep then "" :: split_sep p'
      else match split_sep p' with
           | [] => [String c ""]
           | w :: ws => String c w :: ws
           end
  end.

Definition step (acc : list string) (c : string) : list string :=
  if String.eqb c "" || String.eqb c "." then acc
  else if String.eqb c ".." then removelast acc
  else acc ++ [c].

Definition resolve (cwd : list string) (p : string) : list string :=
  fold_left step (split_sep p) (if starts_with_sep p then [] else cwd).

Fixpoint has_sep (p : string) : bool :=
  match p with
  | "" => false
  | String c p' => Ascii.eqb c sep || has_sep p'
  end.

(** A name a directory entry can have. *)
Definition simple_name (n : string) : bool :=
  negb (String.eqb n "") && negb (String.eqb n ".")
  && negb (String.eqb n "..") && negb (has_sep n).

End posixpath.

(** ** The file system

    A finite map from resolved paths to entries.  The root directory (the
    empty path) always exists.  Regular files and directories are the
    only entries; their operations are those of [os], [os.path] and
    [shutil] that the driver calls, on a POSIX host. *)
Module fs.

Inductive node : Type :=
  | File (content : string)
  | Dir.

Abbreviation path := (list string).
Abbreviation t := (gmap (list string) node).

Definition isfile (m : t) (p : path) : bool :=
  match m !! p with
  | Some (File _) => true
  | _ => false
  end.

Definition isdir (m : t) (p : path) : bool :=
  match p with
  | [] => true
  | _ => match m !! p with
         | Some Dir => true
         | _ => false
         end
  end.

Definition exists_ (m : t) (p : path) : bool := isfile m p || isdir m p.

(** [after_prefix p k = Some suf] when [k = p ++ suf]. *)
Fixpoint after_prefix (p k : path) : option path :=
  match p, k with
  | [], _ => Some k
  | a :: p', b :: k' => if String.eqb a b then after_prefix p' k' else None
  | _ :: _, [] => None
  end.

Definition under (p k : path) : bool :=
  match after_prefix p k with Some _ => true | None => false end.

(** The file system is a tree: every entry has a name a directory
    entry can have and lies in a directory. *)
Definition wf (m : t) : bool :=
  forallb (fun k => match last k with
                    | Some n => posixpath.simple_name n
                                && isdir m (removelast k)
                    | None => false
                    end)
          (map_to_list m).*1.

(** Create the directories [base/c1], [base/c1/c2], ... that do not
    exist yet; a regular file on the way is an error. *)
Fixpoint mkdirs_from (base : path) (rest : list string) (m : t) : result t :=
  match rest with
  | [] => Ok m
  | c :: rest' =>
      let d := base ++ [c] in
      match m !! d with
      | Some (File _) => Raise (OSError "Not a directory")
      | Some Dir => mkdirs_from d rest' m
      | None => mkdirs_from d rest' (<[d := Dir]> m)
      end
  end.

(** [os.makedirs]: the leaf must not exist. *)
Definition makedirs (m : t) (p : path) : result t :=
  if exists_ m p then Raise (OSError "File exists")
  else mkdirs_from [] p m.

(** [open(p, 'wb')] followed by writing [content]: the parent must be a
    directory and [p] must not be one. *)
Definition write_file (m : t) (p : path) (content : string) : result t :=
  if isdir m p then Raise (IOError "Is a directory")
  else if isdir m (removelast p) then Ok (<[p := File content]> m)
  else Raise (IOError "No such file or directory").

(** The content of a regular file, [open(p).read()]. *)
Definition read_file (m : t) (p : path) : result string :=
  match m !! p with
  | Some (File c) => Ok c
  | _ => Raise (IOError "No such file or directory")
  end.

(** [os.listdir]: the names of the entries of a directory, in the order
    the file system reports them. *)
Definition entry_name (d : path) (k : path) : option string :=
  match after_prefix d k with
  | Some [n] => Some n
  | _ => None
  end.

Definition listdir (m : t) (d : path) : result (list string) :=
  if isdir m d then Ok (omap (entry_name d) (map_to_list m).*1)
  else Raise (OSError "Not a directory").

(** [shutil.rmtree]: the directory and everything below it go. *)
Definition rmtree (m : t) (p : path) : result t :=
  if isdir m p
  then Ok (filter (fun kv => under p kv.1 = false) m)
  else Raise (OSError "Not a directory").

(** The entries below [src], keyed by their path relative to [src]
    (the entry [src] itself has the empty key). *)
Definition subtree (src : path) (m : t) : t :=
  list_to_map
    (omap (M := list)
          (fun kv : path * node =>
             match after_prefix src kv.1 with
             | Some suf => Some (suf, kv.2)
             | None => None
             end)
          (map_to_list m)).

(** [os.rename(src, dst)] for a target that does not exist: its parent
    must be a directory, and a directory cannot move below itself.  The
    entries below [src] become the entries below [dst]. *)
Definition rename (m : t) (src dst : path) : result t :=
  if negb (exists_ m src) || match src with [] => true | _ => false end
  then Raise (OSError "No such file or directory")
  else if exists_ m dst then Raise (OSError "File exists")
  else if under src dst then Raise (OSError "Invalid argument")
  else if negb (isdir m (removelast dst))
  then Raise (OSError "No such file or directory")
  else Ok (kmap (app dst) (subtree src m)
           ∪ filter (fun kv => under src kv.1 || under dst kv.1 = false) m).

(** [shutil.move(src, dst)]: into [dst] under the last name of [src]
    when [dst] is a directory (an existing target of that name is an
    error of shutil's own), else to [dst] itself. *)
Definition move (m : t) (src dst : path) : result t :=
  if isdir m dst then
    match last src with
    | None => Raise (OSError "Invalid argument")
    | Some n =>
        let real_dst := dst ++ [n] in
        if exists_ m real_dst
        then Raise (ShutilError "Destination path already exists")
        else rename m src real_dst
    end
  else if exists_ m dst then Raise (OSError "File exists")
  else rename m src dst.

End fs.

(** ** Tar archives

    The members of an archive as [tarfile] reports them, with the name
    relative to the extraction directory: regular files, directories,
    and the members that are neither (a symbolic or hard link, a
    device, a FIFO), which carry their type field and their link
    name. *)
Inductive member_kind : Type :=
  | RegFile (content : string)
  | Directory
  | Special (type : string) (linkname : string).

Record TarInfo : Type := {
  name : string;
  kind : member_kind;
}.

Definition member_isfile (m : TarInfo) : bool :=
  match kind m with
  | RegFile _ => true
  | Directory | Special _ _ => false
  end.


(** ** The host the driver runs on

    What the code reads from the interpreter, from the network, from
    child processes and from libraries that are not part of the
    repository, gathered in one record. *)

(** Python values as [json.loads] produces them; [JNull] is [None] and
    [JStr] a string. *)
Inductive pyobj : Type :=
  | JNull
  | JBool (b : bool)
  | JNum (literal : string)
  | JStr (s : string)
  | JList (items : list pyobj)
  | JObj (items : list (string * pyobj)).

(** What [yaml.load] makes of the content of a file: it raises an
    error of the parser with a message, or it returns a mapping or
    another value. *)
Inductive yaml_doc : Type :=
  | YamlParseError (msg : string)
  | YamlMapping (d : list (string * value))
  | YamlOther.

Record Host : Type := {
  os_name : string;
  sys_executable : option string;
  sys_path : list string;
  TIMEOUT_ENABLED : bool;
  (** [json.loads]; [None] stands for its [ValueError]. *)
  json_loads : string -> option pyobj;
  (** [shlex.split(s, comments=True)]; fails on unbalanced quotes. *)
  shlex_split : string -> result (list string);
  (** [hashlib.md5(s).hexdigest()] *)
  md5_hexdigest : string -> string;
  (** the scheme component of [urlparse.urlsplit] and [urlparse.urlparse] *)
  url_scheme : string -> string;
  (** the path component of [urlparse.urlsplit] *)
  url_path : string -> string;
  (** [urlparse.urljoin] *)
  urljoin : string -> string -> string;
  (** [yaml.load] on the content of a file *)
  yaml_load : string -> yaml_doc;
  (** the working directory relative paths are resolved against *)
  cwd : list string;
  (** what [urllib2.urlopen(url)] delivers: the body, or a [URLError] *)
  urlopen : string -> result string;
  (** the members [tarfile.open] finds in a file of this content;
      [None] when it is not a tar archive ([tarfile.TarError]) *)
  tar_members : string -> option (list TarInfo);
  (** what [tar.extract] does at the target path with a member that
      is neither a regular file nor a directory; [tarfile.makelink],
      for one, unlinks what is at the target before it makes the
      link *)
  extract_special : TarInfo -> list string -> gmap (list string) fs.node ->
                    result (gmap (list string) fs.node);
  (** the name [tempfile.mkdtemp] picks on this file system *)
  mkdtemp_name : gmap (list string) fs.node -> string;
  (** [subprocess.Popen(command, cwd=.., env=..).communicate(timeout)]:
      what the child does to the file system, with its output, error
      output and exit code *)
  popen : list string -> string -> gmap string string -> option Z ->
          gmap (list string) fs.node ->
          result (gmap (list string) fs.node * (string * string * Z));
}.

(** ** The process state and the monad of effects

    What a call of the driver can change: the process environment
    [os.environ], the file system, and, as a record of what was done, the
    URLs fetched and the lines written to [sys.stderr].  An exception
    keeps the state reached when it was raised. *)
Record World : Type := {
  environ : gmap string string;
  files : gmap (list string) fs.node;
  fetched : list string;
  stderr : list string;
}.

Definition M (A : Type) : Type := World -> World * result A.

Definition ret {A} (a : A) : M A := fun w => (w, Ok a).

Definition bind {A B} (c : M A) (k : A -> M B) : M B := fun w =>
  match c w with
  | (w', Ok a) => k a w'
  | (w', Raise e) => (w', Raise e)
  end.

Declare Scope M_scope.
Notation "x ← y ; z" := (bind y (fun x => z))
  (at level 20, y at level 100, z at level 200, only parsing) : M_scope.
Notation "x ;; z" := (bind x (fun _ => z))
  (at level 100, z at level 200, only parsing, right associativity) : M_scope.
Open Scope M_scope.

Definition raise {A} (e : exn) : M A := fun w => (w, Raise e).

(** [try: c except ...: handler]; the handler says which exceptions it
    catches. *)
Definition try_except {A} (c : M A) (handler : exn -> option (M A)) : M A :=
  fun w =>
    match c w with
    | (w', Raise e) =>
        match handler e with
        | Some k => k w'
        | None => (w', Raise e)
        end
    | r => r
    end.

(** [for x in l: body(x)] *)
Fixpoint for_ {A} (l : list A) (body : A -> M unit) : M unit :=
  match l with
  | [] => ret tt
  | x :: rest => body x;; for_ rest body
  end.

Definition when_ (b : bool) (c : M unit) : M unit :=
  if b then c else ret tt.

(** A computation that only returns or raises. *)
Definition lift {A} (r : result A) : M A := fun w => (w, r).

Definition set_files (m : gmap (list string) fs.node) (w : World) : World :=
  {| environ := environ w; files := m;
     fetched := fetched w; stderr := stderr w |}.

Definition set_environ (e : gmap string string) (w : World) : World :=
  {| environ := e; files := files w;
     fetched := fetched w; stderr := stderr w |}.

(** Run a file-system operation on the current file system. *)
Definition fs_update (op : gmap (list string) fs.node ->
                           result (gmap (list string) fs.node)) : M unit :=
  fun w =>
    match op (files w) with
    | Ok m => (set_files m w, Ok tt)
    | Raise e => (w, Raise e)
    end.

Definition fs_read {A} (op : gmap (list string) fs.node -> result A) : M A :=
  fun w => (w, op (files w)).

(** ** os, os.path, shutil and tempfile on path strings

    The empty string designates no entry. *)
Module os.
Section with_host.
Context (h : Host).

Definition locate (p : string) : list string := posixpath.resolve (cwd h) p.

(** What [os.path.exists], [isfile] and [isdir] answer in a state. *)
Definition exists_in (w : World) (p : string) : bool :=
  negb (String.eqb p "") && fs.exists_ (files w) (locate p).

Definition isfile_in (w : World) (p : string) : bool :=
  negb (String.eqb p "") && fs.isfile (files w) (locate p).

Definition isdir_in (w : World) (p : string) : bool :=
  negb (String.eqb p "") && fs.isdir (files w) (locate p).

Definition path_exists (p : string) : M bool :=
  fun w => (w, Ok (exists_in w p)).

Definition path_isfile (p : string) : M bool :=
  fun w => (w, Ok (isfile_in w p)).

Definition path_isdir (p : string) : M bool :=
  fun w => (w, Ok (isdir_in w p)).

Definition checked (p : string) (c : M unit) : M unit :=
  if String.eqb p "" then raise (OSError "No such file or directory")
  else c.

Definition makedirs (p : string) : M unit :=
  checked p (fs_update (fun m => fs.makedirs m (locate p))).

Definition listdir (p : string) : M (list string) :=
  if String.eqb p "" then raise (OSError "No such file or directory")
  else fs_read (fun m => fs.listdir m (locate p)).

Definition rmtree (p : string) : M unit :=
  checked p (fs_update (fun m => fs.rmtree m (locate p))).

Definition move (src dst : string) : M unit :=
  checked src (checked dst
    (fs_update (fun m => fs.move m (locate src) (locate dst)))).

(** [with open(p, 'wb') as fp: shutil.copyfileobj(body, fp)] *)
Definition write (p : string) (body : string) : M unit :=
  if String.eqb p "" then raise (IOError "No such file or directory")
  else fs_update (fun m => fs.write_file m (locate p) body).

(** [tempfile.mkdtemp()] *)
Definition mkdtemp : M string :=
  fun w =>
    let p := mkdtemp_name h (files w) in
    match makedirs p w with
    | (w', Ok _) => (w', Ok p)
    | (w', Raise e) => (w', Raise e)
    end.

Definition getenv (var : string) : M (option string) :=
  fun w => (w, Ok (environ w !! var)).

Definition setenv (var value : string) : M unit :=
  fun w => (set_environ (<[var := value]> (environ w)) w, Ok tt).

(** [os.environ.pop(var)] *)
Definition environ_pop (var : string) : M unit :=
  fun w =>
    match environ w !! var with
    | Some _ => (set_environ (delete var (environ w)) w, Ok tt)
    | None => (w, Raise (KeyError var))
    end.

(** [urllib2.urlopen(url)]; the request is recorded. *)
Definition urllib2_urlopen (url : string) : M string :=
  fun w =>
    ({| environ := environ w; files := files w;
        fetched := fetched w ++ [url]; stderr := stderr w |},
     urlopen h url).

(** [tarfile.open(name=p)] up to the list of members. *)
Definition tarfile_open (p : string) : M (list TarInfo) :=
  if String.eqb p "" then raise (IOError "No such file or directory")
  else
    content ← fs_read (fun m => fs.read_file m (locate p));
    match tar_members h content with
    | Some members => ret members
    | None => raise (TarError "file could not be opened successfully")
    end.

(** [tar.extract(member, path=directory)]: missing directories above
    the target are created; a regular file is written over whatever
    file is there; a directory that exists already is left alone; a
    link or another special member does what the host says. *)
Definition tar_extract (member : TarInfo) (directory : string) : M unit :=
  let target := locate (posixpath.join directory (name member)) in
  let upperdirs := removelast target in
  fs_update (fun m =>
    match (if fs.exists_ m upperdirs then Ok m
           else fs.makedirs m upperdirs) with
    | Raise e => Raise e
    | Ok m =>
        match kind member with
        | RegFile content => fs.write_file m target content
        | Directory =>
            if fs.exists_ m target then Ok m
            else if fs.isdir m upperdirs then Ok (<[target := fs.Dir]> m)
            else Raise (OSError "Not a directory")
        | Special _ _ => extract_special h member target m
        end
    end).

(** [subprocess.Popen(command, cwd=cwd, env=env)] and
    [communicate(timeout)] *)
Definition subprocess_run (command : list string) (dir : string)
    (env : gmap string string) (timeout : option Z)
  : M (string * string * Z) :=
  fun w =>
    match popen h command dir env timeout (files w) with
    | Ok (m, r) => (set_files m w, Ok r)
    | Raise e => (w, Raise e)
    end.

Definition stderr_write (line : string) : M unit :=
  fun w =>
    ({| environ := environ w; files := files w;
        fetched := fetched w; stderr := stderr w ++ [line] |}, Ok tt).

End with_host.
End os.

(** ** error.py

    The exception classes are constructors of [exn]; the helpers that
    raise them follow. *)
Module error.

(** Modelled from the spec: error.RaiseInvalidKey is not among the
    sources.  An unknown configuration key is a [ConfigError] (the
    tests expect this class for [Config(foo='bar')]). *)
Definition RaiseInvalidKey {A} (key : string) : result A :=
  Raise (ConfigError ("Invalid config key [" +:+ key +:+ "]")).

(** Modelled from the spec: error.RaiseTarError is not among the
    sources.  A download or extraction failure is an [InitError]
    that carries the action, the location and the reason. *)
Definition RaiseTarError {A} (action tar reason : string) : M A :=
  raise (InitError ("Error " +:+ action +:+ " tar [" +:+ tar +:+ "]: "
                    +:+ reason)).

(** Modelled from the spec: error.HandlePossibleError is not among
    the sources.  A process result with a non-zero exit code raises
    the given class with the message, the code and the captured
    output; a zero exit code raises nothing. *)
Definition HandlePossibleError (r : string * string * Z)
    (error_type : string -> exn) (message : string) : M unit :=
  let '(out, err, code) := r in
  if (code =? 0)%Z then ret tt
  else raise (error_type
    (message +:+ String "010" "" +:+ "exit code: " +:+ pretty code
     +:+ String "010" "" +:+ out +:+ String "010" "" +:+ err)).

(** The [environment_variables] mapping of [config] has a key of the
    locked list. *)
Definition has_locked_variable (config : list (string * value)) : bool :=
  match pydict.get config "environment_variables" with
  | Some (VMap env) =>
      existsb (pydict.mem env) constants.LOCKED_ENVIRONMENT_VARIABLES
  | _ => false
  end.

(** Modelled from the spec: error.ValidateLockedEnvironmentVariables
    is not among the sources.  It fails with a [ConfigError] naming the
    variable if a key of the fixed locked list appears in the
    [environment_variables] mapping of the given dictionary, and
    accepts a dictionary that has no such mapping. *)
Definition ValidateLockedEnvironmentVariables
    (config : list (string * value)) : result unit :=
  match pydict.get config "environment_variables" with
  | Some (VMap env) =>
      match List.find (pydict.mem env)
                      constants.LOCKED_ENVIRONMENT_VARIABLES with
      | Some var =>
          Raise (ConfigError ("Invalid config: environment variable ["
                              +:+ var +:+ "] cannot be set."))
      | None => Ok tt
      end
  | _ => Ok tt
  end.

End error.

(** ** _sdk_tar.py *)
Module _sdk_tar.
Section with_host.
Context (h : Host).

Definition DownloadTar (tar_location download_directory : string)
  : M string :=
  if negb (String.eqb (url_scheme h tar_location) "") then
    (* Prepare the download directory. *)
    let download_directory :=
      posixpath.join download_directory constants.DOWNLOAD_FOLDER in
    ex ← os.path_exists h download_directory;
    when_ (negb ex) (os.makedirs h download_directory);;
    let tar_name := posixpath.basename (url_path h tar_location) in
    let download_path := posixpath.join download_directory tar_name in
    (* Don't redownload the same file if it already exists. *)
    isf ← os.path_isfile h download_path;
    when_ (negb isf)
      (try_except
         (req ← os.urllib2_urlopen h tar_location;
          os.write h download_path req)
         (fun e =>
            match e with
            | URLError reason =>
                Some (error.RaiseTarError "downloading" tar_location reason)
            | ShutilError msg =>
                Some (error.RaiseTarError "downloading" tar_location msg)
            | _ => None
            end));;
    ret download_path
  else
    (* Tar location points to a local path. *)
    isf ← os.path_isfile h tar_location;
    if negb isf
    then raise (ValueError ("[" +:+ tar_location +:+ "] does not exist"))
    else ret tar_location.

Definition ExtractWithoutOverwrite (tar : list TarInfo) (directory : string)
  : M unit :=
  for_ tar (fun member =>
    isf ← os.path_isfile h (posixpath.join directory (name member));
    if member_isfile member && isf
    then ret tt (* This file already exists. Don't overwrite it. *)
    else os.tar_extract h member directory).

(** [try: with tarfile.open(name=archive) as tar:
           ExtractWithoutOverwrite(tar, directory)
     except tarfile.TarError as err:
           error.RaiseTarError('extracting', download_path, err.message)] *)
Definition extract_archive (archive directory download_path : string)
  : M unit :=
  try_except
    (tar ← os.tarfile_open h archive;
     ExtractWithoutOverwrite tar directory)
    (fun e =>
       match e with
       | TarError msg =>
           Some (error.RaiseTarError "extracting" download_path msg)
       | _ => None
       end).

(** The first part of [UnpackTar]: the archive is extracted into the
    staging directory [root_directory/repo], created if missing. *)
Definition stage_archive (download_path root_directory : string) : M unit :=
  let repo_directory :=
    posixpath.join root_directory constants.REPO_FOLDER in
  ex ← os.path_exists h repo_directory;
  when_ (negb ex) (os.makedirs h repo_directory);;
  extract_archive download_path repo_directory download_path.

Definition UnpackTar (download_path tar_location root_directory : string)
  : M (option string) :=
  stage_archive download_path root_directory;;
  let repo_directory :=
    posixpath.join root_directory constants.REPO_FOLDER in
  (* If there's a components json file in the tar, assume it's a full
     repo. Otherwise, assume it's only an installer. *)
  let components_json :=
    posixpath.join repo_directory constants.COMPONENTS_FILE in
  isf ← os.path_isfile h components_json;
  if isf then
    (* tar_location pointed to a repo tar. *)
    let snapshot_url := "file://" +:+ components_json in
    extract_archive
      (posixpath.join repo_directory constants.INSTALLER_FILE)
      root_directory download_path;;
    ret (Some snapshot_url)
  else
    (* tar_location pointed to an installer tar. *)
    snapshot_url ←
      (if String.eqb (url_scheme h tar_location) "" then (* Local path *)
         let components_json :=
           posixpath.join (posixpath.dirname tar_location)
                          constants.COMPONENTS_FILE in
         isf ← os.path_isfile h components_json;
         if isf
         then ret (Some (urljoin h "file://" components_json))
         else ret None
       else ret None);
    (* This wasn't a repo, so move the files up a level. *)
    try_except
      (names ← os.listdir h repo_directory;
       for_ names (fun filename =>
         ex ← os.path_exists h (posixpath.join root_directory filename);
         when_ (negb ex)
           (os.move h (posixpath.join repo_directory filename)
                      root_directory)))
      (fun e =>
         match e with
         | OSError msg | ShutilError msg =>
             Some (error.RaiseTarError "extracting" download_path msg)
         | _ => None
         end);;
    ret snapshot_url.

End with_host.
End _sdk_tar.

(** ** json.dumps(d, sort_keys=True)

    The serialisation of a configuration dictionary: keys sorted, the
    separators [", "] and [": "], [None] as [null], and strings quoted
    with every character outside the printable ASCII range, the quote and
    the backslash escaped (the default [ensure_ascii]).  The characters of
    a string are code points below 256. *)
Module json.

Definition dquote : ascii := "034"%char.
Definition backslash : ascii := "092"%char.

Definition hex_digit (n : N) : ascii :=
  if (n <? 10)%N then ascii_of_N (48 + n) else ascii_of_N (87 + n).

Definition escape_char (c : ascii) : string :=
  let n := N_of_ascii c in
  if (n =? 34)%N then String backslash (String dquote "")
  else if (n =? 92)%N then String backslash (String backslash "")
  else if (n =? 10)%N then String backslash "n"
  else if (n =? 13)%N then String backslash "r"
  else if (n =? 9)%N then String backslash "t"
  else if (n =? 8)%N then String backslash "b"
  else if (n =? 12)%N then String backslash "f"
  else if ((32 <=? n) && (n <=? 126))%N then String c ""
  else String backslash
         (String "u" (String "0" (String "0"
            (String (hex_digit (n / 16)) (String (hex_digit (n mod 16)) ""))))).

Fixpoint escape (s : string) : string :=
  match s with
  | "" => ""
  | String c s' => escape_char c +:+ escape s'
  end.

Definition dumps_str (s : string) : string :=
  String dquote (escape s +:+ String dquote "").

(** [sorted(d.items(), key=lambda kv: kv[0])] *)
Fixpoint insert_item {V} (kv : string * V) (l : list (string * V))
  : list (string * V) :=
  match l with
  | [] => [kv]
  | kv' :: l' =>
      if String.leb kv.1 kv'.1 then kv :: l else kv' :: insert_item kv l'
  end.

Fixpoint sort_items {V} (l : list (string * V)) : list (string * V) :=
  match l with
  | [] => []
  | kv :: l' => insert_item kv (sort_items l')
  end.

(** The items after the first, each behind its separator: [str_join ", "
    (x :: rest)] is [x] followed by [more_items rest]. *)
Fixpoint more_items (items : list string) : string :=
  match items with
  | [] => ""
  | x :: rest => ", " +:+ x +:+ more_items rest
  end.

Definition dumps_item {V} (dumps_v : V -> string) (kv : string * V)
  : string :=
  dumps_str kv.1 +:+ ": " +:+ dumps_v kv.2.

(** The items in the given order, between braces. *)
Definition dumps_items {V} (dumps_v : V -> string)
    (items : list (string * V)) : string :=
  "{" +:+ str_join ", " (map (dumps_item dumps_v) items) +:+ "}".

Definition dumps_object {V} (dumps_v : V -> string)
    (d : list (string * V)) : string :=
  dumps_items dumps_v (sort_items d).

Definition dumps_value (v : value) : string :=
  match v with
  | VNone => "null"
  | VStr s => dumps_str s
  | VMap m => dumps_object dumps_str m
  end.

Definition dumps (d : list (string * value)) : string :=
  dumps_object dumps_value d.

(** *** What a serialisation determines

    The canonical form of a dictionary: items sorted by key, nested
    mappings too.  Two dictionaries have the same content when every key
    has the same value in both, nested mappings being compared key by
    key. *)
Definition canon_value (v : value) : value :=
  match v with
  | VMap m => VMap (sort_items m)
  | _ => v
  end.

Definition canon (d : list (string * value)) : list (string * value) :=
  sort_items (map (fun kv => (kv.1, canon_value kv.2)) d).

Definition same_value (v1 v2 : value) : Prop :=
  match v1, v2 with
  | VNone, VNone => True
  | VStr a, VStr b => a = b
  | VMap m1, VMap m2 => forall k, pydict.get m1 k = pydict.get m2 k
  | _, _ => False
  end.

Definition same_content (d1 d2 : list (string * value)) : Prop :=
  forall k,
    match pydict.get d1 k, pydict.get d2 k with
    | None, None => True
    | Some v1, Some v2 => same_value v1 v2
    | _, _ => False
    end.

(** A Python dictionary has no key twice, at either level. *)
Definition dict_ok (d : list (string * value)) : Prop :=
  NoDup d.*1 /\ forall k m, (k, VMap m) ∈ d -> NoDup m.*1.

(** The serialisation without the sorting: [dumps d] is
    [dumps_canon (canon d)]. *)
Definition dumps_canon_value (v : value) : string :=
  match v with
  | VNone => "null"
  | VStr s => dumps_str s
  | VMap m => dumps_items dumps_str m
  end.

Definition dumps_canon (d : list (string * value)) : string :=
  dumps_items dumps_canon_value d.

(** The character that one escape sequence at the head of a string
    stands for, with the rest of the string; the inverse of
    [escape_char]. *)
Definition unhex (c : ascii) : option N :=
  let n := N_of_ascii c in
  if ((48 <=? n) && (n <=? 57))%N then Some (n - 48)%N
  else if ((97 <=? n) && (n <=? 102))%N then Some (n - 87)%N
  else None.

Definition unescape_head (s : string) : option (ascii * string) :=
  match s with
  | "" => None
  | String c rest =>
      if Ascii.eqb c dquote then None
      else if Ascii.eqb c backslash then
        match rest with
        | "" => None
        | String d rest' =>
            if Ascii.eqb d dquote then Some (dquote, rest')
            else if Ascii.eqb d backslash then Some (backslash, rest')
            else if Ascii.eqb d "n" then Some ("010"%char, rest')
            else if Ascii.eqb d "r" then Some ("013"%char, rest')
            else if Ascii.eqb d "t" then Some ("009"%char, rest')
            else if Ascii.eqb d "b" then Some ("008"%char, rest')
            else if Ascii.eqb d "f" then Some ("012"%char, rest')
            else if Ascii.eqb d "u" then
              match rest' with
              | String _ (String _ (String x (String y rest''))) =>
                  match unhex x, unhex y with
                  | Some hi, Some lo => Some (ascii_of_N (16 * hi + lo), rest'')
                  | _, _ => None
                  end
              | _ => None
              end
            else None
        end
      else Some (c, rest)
  end.

(** [int(digest, 16)] *)
Definition hex_value (c : ascii) : option Z :=
  let n := Z.of_N (N_of_ascii c) in
  if ((48 <=? n) && (n <=? 57))%Z then Some (n - 48)%Z
  else if ((97 <=? n) && (n <=? 102))%Z then Some (n - 87)%Z
  else if ((65 <=? n) && (n <=? 70))%Z then Some (n - 55)%Z
  else None.

Fixpoint int16_from (acc : Z) (s : string) : result Z :=
  match s with
  | "" => Ok acc
  | String c s' =>
      match hex_value c with
      | Some d => int16_from (16 * acc + d)%Z s'
      | None => Raise (ValueError "invalid literal for int() with base 16")
      end
  end.

Definition int16 (s : string) : result Z :=
  match s with
  | "" => Raise (ValueError "invalid literal for int() with base 16")
  | _ => int16_from 0 s
  end.

End json.

(** ** _config.py *)
Module _config.

(** The first key of [dictionary], in iteration order, that is not a
    key of the default configuration. *)
Definition invalid_key (dictionary : list (string * value))
  : option string :=
  List.find (fun key => negb (pydict.mem constants.DEFAULT_CONFIG key))
            dictionary.*1.

(** [BaseConfig._UpdateDict(self, dictionary)] on the [__dict__] of
    [self].  The deep copy of a value is the value. *)
Definition _UpdateDict (self dictionary : list (string * value))
  : result (list (string * value)) :=
  match invalid_key dictionary with
  | Some key => error.RaiseInvalidKey key
  | None => Ok (pydict.update self dictionary)
  end.

(** [BaseConfig.keys(self)] *)
Definition keys (self : list (string * value)) : list string := self.*1.

(** [BaseConfig.__len__(self)] *)
Definition __len__ (self : list (string * value)) : nat := length self.

(** [BaseConfig.__getitem__(self, key)] *)
Definition __getitem__ (self : list (string * value)) (key : string)
  : result value :=
  match pydict.get self key with
  | Some v => Ok v
  | None => Raise (KeyError key)
  end.

(** [BaseConfig.__iter__(self)] *)
Definition __iter__ (self : list (string * value)) : list string :=
  keys self.

(** An [ImmutableConfig] object is its [__dict__]. *)
Record ImmutableConfig : Type := { __dict__ : list (string * value) }.

(** [ImmutableConfig.__init__(self, config)] from the [__dict__] of
    [config]. *)
Definition ImmutableConfig__init__ (config : list (string * value))
  : result ImmutableConfig :=
  match _UpdateDict [] config with
  | Ok d => Ok {| __dict__ := d |}
  | Raise e => Raise e
  end.

Definition ImmutableConfig__setitem__ (self : ImmutableConfig)
    (unused_key : string) (unused_value : value) : result ImmutableConfig :=
  Raise (ConfigError "ImmutableConfig object is immutable").

Definition ImmutableConfig__setattr__ (self : ImmutableConfig)
    (unused_name : string) (unused_value : value) : result ImmutableConfig :=
  Raise (ConfigError "ImmutableConfig object is immutable").

Definition _Key (self : ImmutableConfig) : string :=
  json.dumps (__dict__ self).

Definition __hash__ (h : Host) (self : ImmutableConfig) : result Z :=
  let digest := md5_hexdigest h (_Key self) in
  json.int16 digest.

(** What [__eq__] can be compared with. *)
Inductive object : Type :=
  | AnImmutableConfig (c : ImmutableConfig)
  | AnotherObject.

Definition __eq__ (self : ImmutableConfig) (other : object) : bool :=
  match other with
  | AnImmutableConfig other => String.eqb (_Key self) (_Key other)
  | AnotherObject => false
  end.


(** [PrepareEnviron(user_environ, config_name, sdk_dir)].  [os_environ]
    is the process environment the function reads; the deep copy of
    [user_environ] is the value itself. *)
Definition PrepareEnviron (h : Host) (os_environ : gmap string string)
    (user_environ : gmap string string) (config_name sdk_dir : string)
  : result (gmap string string) :=
  let environ := user_environ in
  let bin_folder := posixpath.join sdk_dir constants.BIN_FOLDER in
  let path_components := [bin_folder] in
  let path_components :=
    match environ !! "PATH" with
    | Some p => path_components ++ [p]
    | None => path_components
    end in
  (* both operands of the test and the append read os.environ['PATH'] *)
  match os_environ !! "PATH" with
  | None => Raise (KeyError "PATH")
  | Some host_path =>
      let path_components :=
        match environ !! "PATH" with
        | None => path_components ++ [host_path]
        | Some p =>
            if negb (str_contains host_path p)
            then path_components ++ [host_path]
            else path_components
        end in
      let environ :=
        <["PATH" := str_join posixpath.pathsep path_components]> environ in
      let environ :=
        <[constants.CONFIG_ENV := posixpath.join sdk_dir config_name]>
          environ in
      let with_python : result (gmap string string) :=
        match environ !! constants.PYTHON_ENV with
        | Some _ => Ok environ
        | None =>
            match sys_executable h with
            | Some exe =>
                if String.eqb exe ""
                then Raise (SDKError
                  ("Neither sys.executable nor the " +:+ constants.PYTHON_ENV
                   +:+ " environment variable are set."))
                else Ok (<[constants.PYTHON_ENV := exe]> environ)
            | None =>
                Raise (SDKError
                  ("Neither sys.executable nor the " +:+ constants.PYTHON_ENV
                   +:+ " environment variable are set."))
            end
        end in
      match with_python with
      | Raise e => Raise e
      | Ok environ =>
          match environ !! constants.PYTHON_PATH with
          | None =>
              Ok (<[constants.PYTHON_PATH :=
                      str_join posixpath.pathsep (sys_path h)]> environ)
          | Some pp =>
              Ok (<[constants.PYTHON_PATH :=
                      str_join posixpath.pathsep (pp :: sys_path h)]> environ)
          end
      end
  end.

End _config.

(** ** driver.py *)
Module driver.

(** What a caller can pass as a command. *)
Inductive command : Type :=
  | CmdStr (s : string)
  | CmdList (l : list string)
  | CmdTuple (l : list string)
  | CmdOther (repr : string).

(** What a caller can pass as [additional_components]. *)
Inductive components : Type :=
  | NoComponents
  | ComponentsStr (s : string)
  | ComponentsList (l : list string).

Definition components_truthy (c : components) : bool :=
  match c with
  | NoComponents => false
  | ComponentsStr s => negb (String.eqb s "")
  | ComponentsList l => match l with [] => false | _ => true end
  end.

(** [s.replace(sep, sep + sep)] for a one-character separator *)
Fixpoint double_char (sep : ascii) (s : string) : string :=
  match s with
  | "" => ""
  | String c s' =>
      if Ascii.eqb c sep then String c (String c (double_char sep s'))
      else String c (double_char sep s')
  end.

Section with_host.
Context (h : Host).

(** *** class Config *)

(** [Config.LoadFile(self, filename)] on the [__dict__] of [self].

    The handler around [yaml.load] is [except yaml.parser.ParseError];
    the module [yaml.parser] has a [ParserError] and no [ParseError],
    so when [yaml.load] raises, looking the handler's class up raises
    [AttributeError] and the [ConfigError] of the handler's body is
    never reached. *)
Definition LoadFile (self : list (string * value)) (filename : string)
  : M (list (string * value)) :=
  content ← (if String.eqb filename ""
             then raise (IOError "No such file or directory")
             else fs_read (fun m => fs.read_file m (os.locate h filename)));
  match yaml_load h content with
  | YamlParseError msg =>
      raise (AttributeError
               "'module' object has no attribute 'ParseError'")
  | YamlOther =>
      raise (ConfigError ("Invalid config file [" +:+ filename
                          +:+ "]. Top level is not a dictionary."))
  | YamlMapping config =>
      fun w =>
        (w, match error.ValidateLockedEnvironmentVariables config with
            | Raise e => Raise e
            | Ok _ => _config._UpdateDict self config
            end)
  end.

(** What the file contributes to a construction: nothing without a file
    name, else the mapping [yaml.load] finds in the file. *)
Definition overlay_of (w : World) (filename : option string)
    (overlay : list (string * value)) : Prop :=
  match filename with
  | None => overlay = []
  | Some f =>
      f <> ""
      /\ exists content,
           fs.read_file (files w) (os.locate h f) = Ok content
           /\ yaml_load h content = YamlMapping overlay
  end.

(** [Config.__init__(self, filename=None, **kwargs)]; the result is the
    [__dict__] of the new object. *)
Definition Config__init__ (filename : option string)
    (kwargs : list (string * value)) : M (list (string * value)) :=
  (* Add values to dictionary in order: default, then file, then kwargs. *)
  self ← (fun w => (w, _config._UpdateDict [] constants.DEFAULT_CONFIG));
  self ← match filename with
         | Some filename => LoadFile self filename
         | None => ret self
         end;
  self ← (fun w => (w, _config._UpdateDict self kwargs));
  fun w =>
    (w, match error.ValidateLockedEnvironmentVariables self with
        | Raise e => Raise e
        | Ok _ => Ok self
        end).

(** [Config.__setattr__(self, name, value)] *)
Definition Config__setattr__ (self : list (string * value))
    (name : string) (v : value) : result (list (string * value)) :=
  if negb (pydict.mem self name) then error.RaiseInvalidKey name
  else Ok (pydict.set self name v).

Definition Config__setitem__ (self : list (string * value))
    (key : string) (v : value) : result (list (string * value)) :=
  Config__setattr__ self key v.

Definition Validate (self : list (string * value)) : result unit :=
  error.ValidateLockedEnvironmentVariables self.

(** *** Module functions *)

Definition _IsOnWindows : bool := String.eqb (os_name h) "nt".

Definition _PrepareCommand (cmd : command) : result (list string) :=
  match cmd with
  | CmdStr s =>
      (* shlex escapes backslashes when parsing in Posix mode. *)
      let s := if _IsOnWindows then double_char "\" s else s in
      shlex_split h s
  | CmdList l | CmdTuple l => Ok l
  | CmdOther repr =>
      Raise (SDKError ("Command [" +:+ repr
                       +:+ "] must be a string, list or tuple."))
  end.

(** The part of [Init] that follows the choice of the root directory:
    download, unpack, run the installer, publish the location. *)
Definition install_into (tar_location : string)
    (additional_components : components) (root_directory : string)
  : M unit :=
  download_path ← _sdk_tar.DownloadTar h tar_location root_directory;
  snapshot_url ←
    _sdk_tar.UnpackTar h download_path tar_location root_directory;
  let env : gmap string string := ∅ in
  let env := if truthy snapshot_url
             then match snapshot_url with
                  | Some url => <[constants.SNAPSHOT_ENV := url]> env
                  | None => env
                  end
             else env in
  let env := if truthy (sys_executable h)
             then match sys_executable h with
                  | Some exe => <[constants.PYTHON_ENV := exe]> env
                  | None => env
                  end
             else env in
  os_environ ← (fun w => (w, Ok (environ w)));
  (* env.update(os.environ): the process environment wins *)
  let env := os_environ ∪ env in
  if negb (bool_decide (is_Some (env !! constants.PYTHON_ENV)))
  then raise (InitError ("Neither sys.executable nor the "
                         +:+ constants.PYTHON_ENV
                         +:+ " environment variable are set."))
  else
  let sdk_dir := posixpath.join root_directory constants.SDK_FOLDER in
  let cmd :=
    [ "./install.sh";
      "--disable-installation-options";
      "--bash-completion=false";
      "--path-update=false";
      "--usage-reporting=false";
      "--rc-path=" +:+ root_directory +:+ "/.bashrc" ] in
  cmd ← (if components_truthy additional_components then
           match additional_components with
           | ComponentsStr _ =>
               raise (InitError
                 "additional_components must be an iterable of strings.")
           | ComponentsList l =>
               ret (cmd ++ ["--additional-components"] ++ l)
           | NoComponents => ret cmd
           end
         else ret cmd);
  r ← os.subprocess_run h cmd sdk_dir env None;
  error.HandlePossibleError r InitError "SDK installation failed";;
  isd ← os.path_isdir h sdk_dir;
  if negb isd
  then raise (InitError
         "SDK installation failed. SDK directory was not created.")
  else
  (* Set this last so that a failed installation won't permit the
     creation of SDK objects. *)
  os.setenv constants.DRIVER_LOCATION_ENV root_directory.

Definition Init (tar_location : option string)
    (additional_components : components) (root_directory : option string)
  : M unit :=
  if _IsOnWindows
  then raise (InitError "This driver is not currently Windows compatible.")
  else
  location ← os.getenv constants.DRIVER_LOCATION_ENV;
  if bool_decide (is_Some location)
  then raise (InitError "Driver is already initialized.")
  else
  let tar_location :=
    match tar_location with
    | None => constants.RELEASE_TAR
    | Some t => t
    end in
  root_directory ←
    match root_directory with
    | None => os.mkdtemp h
    | Some root_directory =>
        isd ← os.path_isdir h root_directory;
        (if negb isd then os.makedirs h root_directory
         else os.setenv constants.DRIVER_KEEP_LOCATION_ENV "True");;
        ret root_directory
    end;
  install_into tar_location additional_components root_directory.

Definition Destroy : M unit :=
  root_directory ← os.getenv constants.DRIVER_LOCATION_ENV;
  keep_location ← os.getenv constants.DRIVER_KEEP_LOCATION_ENV;
  match root_directory with
  | Some root_directory =>
      isd ← os.path_isdir h root_directory;
      when_ (isd && negb (truthy keep_location))
            (os.rmtree h root_directory);;
      os.environ_pop constants.DRIVER_LOCATION_ENV
  | None => ret tt
  end;;
  match keep_location with
  | Some _ => os.environ_pop constants.DRIVER_KEEP_LOCATION_ENV
  | None => ret tt
  end.

(** [with Manager(...): body]: [Destroy] runs on every exit path, and
    an exception of [Init] or of the body is raised again after it. *)
Definition Manager {A} (tar_location : option string)
    (additional_components : components) (root_directory : option string)
    (body : M A) : M A :=
  fun w =>
    match (Init tar_location additional_components root_directory;; body) w
    with
    | (w', r) =>
        match Destroy w' with
        | (w'', Ok _) => (w'', r)
        | (w'', Raise e) => (w'', Raise e)
        end
    end.

(** *** class SDK *)
Record SDK : Type := {
  config : _config.ImmutableConfig;
  _sdk_dir : string;
  _config_name : string;
  _env : gmap string string;
}.

(** [SDK.__init__(self, config, sdk_dir, config_name, environ)] from
    the [__dict__] of [config] *)
Definition SDK__init__ (cfg : list (string * value))
    (sdk_dir config_name : string) (env : gmap string string)
  : result SDK :=
  match Validate cfg with
  | Raise e => Raise e
  | Ok _ =>
      match _config.ImmutableConfig__init__ cfg with
      | Raise e => Raise e
      | Ok c => Ok {| config := c; _sdk_dir := sdk_dir;
                      _config_name := config_name; _env := env |}
      end
  end.

Definition timeout_truthy (timeout : option Z) : bool :=
  match timeout with
  | Some t => negb (t =? 0)%Z
  | None => false
  end.

Definition env_truthy (env : option (gmap string string)) : bool :=
  match env with
  | Some e => negb (bool_decide (e = ∅))
  | None => false
  end.

Definition Run (self : SDK) (cmd : command) (timeout : option Z)
    (env : option (gmap string string)) : M (string * string * Z) :=
  (* Add the passed in variables to the precomputed environment. *)
  let env := match env with
             | Some e => if env_truthy env then e ∪ _env self else _env self
             | None => _env self
             end in
  match _PrepareCommand cmd with
  | Raise e => raise e
  | Ok argv =>
      let dir := posixpath.dirname (_sdk_dir self) in
      if TIMEOUT_ENABLED h then os.subprocess_run h argv dir env timeout
      else
        (* [Popen] comes before the warning: when the process cannot be
           started, nothing is written.  [communicate()] without a
           timeout follows the warning; what the child does to the file
           system does not touch the error stream, so the two steps of
           the process are taken together here. *)
        r ← os.subprocess_run h argv dir env None;
        when_ (timeout_truthy timeout)
          (os.stderr_write ("Warning: timeout specified, but "
                              +:+ "subprocess32 is not available."));;
        ret r
  end.

Definition RunGcloudRawOutput (self : SDK) (cmd : command)
    (formats filters : option string) (timeout : option Z)
    (env : option (gmap string string)) : M (string * string * Z) :=
  match _PrepareCommand cmd with
  | Raise e => raise e
  | Ok argv =>
      let argv := "gcloud" :: argv in
      let argv := match formats with
                  | Some fmt => if truthy formats
                                then argv ++ ["--format=" +:+ fmt] else argv
                  | None => argv
                  end in
      let argv := match filters with
                  | Some flt => if truthy filters
                                then argv ++ ["--filter=" +:+ flt] else argv
                  | None => argv
                  end in
      Run self (CmdList argv) timeout env
  end.

(** The [formats] that [RunGcloud] passes on: [json(k1,k2,...)] for a
    non-empty list of keys, else [json]. *)
Definition json_format (format_keys : option (list string)) : string :=
  match format_keys with
  | Some (k :: ks) => "json(" +:+ str_join "," (k :: ks) +:+ ")"
  | _ => "json"
  end.

Definition RunGcloud (self : SDK) (cmd : command)
    (format_keys : option (list string)) (filters : option string)
    (timeout : option Z) (env : option (gmap string string))
  : M (pyobj * string * Z) :=
  let formats := json_format format_keys in
  r ← RunGcloudRawOutput self cmd (Some formats) filters timeout env;
  let '(out, err, code) := r in
  if negb (String.eqb out "") then
    match json_loads h out with
    | Some decoded => ret (decoded, err, code)
    | None => ret (JStr out, err, code)
    end
  else ret (JNull, err, code).

(** Python's truth value of a configuration value. *)
Definition value_truthy (v : value) : bool :=
  match v with
  | VNone => false
  | VStr s => negb (String.eqb s "")
  | VMap m => match m with [] => false | _ => true end
  end.

(** [self.name]: an attribute of a configuration is an entry of its
    [__dict__]. *)
Definition getattr (self : list (string * value)) (name : string)
  : result value :=
  match pydict.get self name with
  | Some v => Ok v
  | None => Raise (AttributeError name)
  end.

(** The argument list of a child process holds strings; [Popen] refuses
    anything else with a [TypeError] before a process runs. *)
Fixpoint args_of (command : list value) : result (list string) :=
  match command with
  | [] => Ok []
  | VStr s :: rest =>
      match args_of rest with
      | Ok l => Ok (s :: l)
      | Raise e => Raise e
      end
  | _ :: _ => Raise (TypeError "execv() arg 2 must contain only strings")
  end.

(** [self.RunGcloudRawOutput(command)] for a list built from
    configuration values *)
Definition RunGcloudRawOutput_values (self : SDK) (command : list value)
  : M (string * string * Z) :=
  argv ← lift (args_of command);
  RunGcloudRawOutput self (CmdList argv) None None None None.

Definition RunInitializationCommands (self : SDK) : M unit :=
  let cfg := _config.__dict__ (config self) in
  keyfile ← lift (getattr cfg "service_account_keyfile");
  when_ (value_truthy keyfile)
    (* Activating a service account should also set this to the active
       account. *)
    (let command := [VStr "auth"; VStr "activate-service-account"] in
     email ← lift (getattr cfg "service_account_email");
     let command :=
       if value_truthy email then command ++ [email] else command in
     let command := command ++ [VStr "--key-file"; keyfile] in
     r ← RunGcloudRawOutput_values self command;
     error.HandlePossibleError r SDKError
       "Activating service account failed");;
  (* Set project. *)
  project ← lift (getattr cfg "project");
  when_ (value_truthy project)
    (r ← RunGcloudRawOutput_values self
           [VStr "config"; VStr "set"; VStr "project"; project];
     error.HandlePossibleError r SDKError "Setting project failed");;
  (* Set properties. *)
  properties ← lift (getattr cfg "properties");
  when_ (value_truthy properties)
    match properties with
    | VMap items =>
        for_ items (fun kv =>
          r ← RunGcloudRawOutput self
                (CmdList ["config"; "set"; kv.1; kv.2]) None None None None;
          error.HandlePossibleError r SDKError
            ("Setting property [" +:+ kv.1 +:+ "] failed"))
    | _ => raise (AttributeError "items")
    end.

(** *** Factories *)

Definition config_name_length : nat := 14.

(** [string.ascii_lowercase + string.digits] *)
Definition config_name_alphabet : string :=
  "abcdefghijklmnopqrstuvwxyz0123456789".

(** [rng.choice(seq)]: the element of [seq] at an index below its
    length; [draw] is what the random source delivers. *)
Definition choice (seq : string) (draw : nat) : ascii :=
  match String.get (draw mod String.length seq) seq with
  | Some c => c
  | None => "000"%char
  end.

(** [''.join(['config'] + [rng.choice(...) for _ in range(...)])];
    [rng i] is the draw of the random source for the [i]-th
    character. *)
Definition random_config_name (rng : nat -> nat) : string :=
  "config" +:+
  string_of_list_ascii
    (map (fun i => choice config_name_alphabet (rng i))
         (seq 0 (config_name_length - String.length "config"))).

(** [_config.PrepareEnviron] on what [config.environment_variables]
    holds.  On a string ['PATH' in environ] is the substring test and the
    item access or assignment that follows is a [TypeError]; [None] is
    not iterable. *)
Definition PrepareEnviron_value (os_environ : gmap string string)
    (user_environ : value) (config_name sdk_dir : string)
  : result (gmap string string) :=
  match user_environ with
  | VMap m =>
      _config.PrepareEnviron h os_environ (list_to_map m) config_name sdk_dir
  | VStr s =>
      if str_contains "PATH" s
      then Raise (TypeError "string indices must be integers, not str")
      else match os_environ !! "PATH" with
           | None => Raise (KeyError "PATH")
           | Some _ =>
               Raise (TypeError
                        "'str' object does not support item assignment")
           end
  | VNone => Raise (TypeError "argument of type 'NoneType' is not iterable")
  end.

(** [SDKFromConfig(config)] from the [__dict__] of [config] *)
Definition SDKFromConfig (rng : nat -> nat) (cfg : list (string * value))
  : M SDK :=
  driver_location ← os.getenv constants.DRIVER_LOCATION_ENV;
  match driver_location with
  | None =>
      raise (SDKError ("Unable to locate the SDK. Make sure Init was "
                       +:+ "called before creating SDK objects."))
  | Some driver_location =>
      (* Generate a random name for this configuration. *)
      let config_name := random_config_name rng in
      (* Prepare the environment variables. *)
      let sdk_dir := posixpath.join driver_location constants.SDK_FOLDER in
      environment_variables ← lift (getattr cfg "environment_variables");
      os_environ ← (fun w => (w, Ok (environ w)));
      env ← lift (PrepareEnviron_value os_environ environment_variables
                                       config_name sdk_dir);
      (* Create and initialize the sdk. *)
      sdk ← lift (SDK__init__ cfg sdk_dir config_name env);
      RunInitializationCommands sdk;;
      ret sdk
  end.

Definition DefaultSDK (rng : nat -> nat) : M SDK :=
  cfg ← Config__init__ None [];
  SDKFromConfig rng cfg.

Definition SDKFromFile (rng : nat -> nat) (filename : option string)
  : M SDK :=
  cfg ← Config__init__ filename [];
  SDKFromConfig rng cfg.

Definition SDKFromDict (rng : nat -> nat) (dictionary : list (string * value))
  : M SDK :=
  cfg ← Config__init__ None dictionary;
  SDKFromConfig rng cfg.

Definition SDKFromArgs (rng : nat -> nat) (kwargs : list (string * value))
  : M SDK :=
  cfg ← Config__init__ None kwargs;
  SDKFromConfig rng cfg.

End with_host.
End driver.

(** ** Configuration objects in a store

    Freezing copies a configuration; whether the copy is independent of
    the original is a matter of which dictionary objects the two share.
    Here the nested mappings are objects in a store, a configuration
    holds references to them, and [copy.deepcopy] allocates. *)
Module objects.

(** What an attribute of a configuration holds: [None], a string, or a
    reference to a dictionary object. *)
Inductive ref : Type :=
  | RNone
  | RStr (s : string)
  | RDict (l : nat).

(** The dictionary objects (string to string), by address. *)
Abbreviation store := (gmap nat (list (string * string))).

(** The addresses an object refers to. *)
Definition refs (d : list (string * ref)) : list nat :=
  omap (fun kv => match kv.2 with RDict l => Some l | _ => None end) d.

Definition alloc (m : store) (content : list (string * string))
  : nat * store :=
  let l := fresh (dom m) in (l, <[l := content]> m).

(** [copy.deepcopy] of the items of a dictionary.  [memo] maps the
    objects copied so far to their copies, so that an object referred to
    twice is copied once. *)
Fixpoint deepcopy_items (items : list (string * ref)) (memo : gmap nat nat)
    (m : store) : list (string * ref) * gmap nat nat * store :=
  match items with
  | [] => ([], memo, m)
  | (k, v) :: rest =>
      let '(v', memo, m) :=
        match v with
        | RDict l =>
            match memo !! l with
            | Some l' => (RDict l', memo, m)
            | None =>
                let '(l', m) := alloc m (default [] (m !! l)) in
                (RDict l', <[l := l']> memo, m)
            end
        | _ => (v, memo, m)
        end in
      let '(rest', memo, m) := deepcopy_items rest memo m in
      ((k, v') :: rest', memo, m)
  end.

Definition deepcopy (d : list (string * ref)) (m : store)
  : list (string * ref) * store :=
  let '(d', _, m') := deepcopy_items d ∅ m in (d', m').

(** [BaseConfig._UpdateDict(self, dictionary)] *)
Definition _UpdateDict (self dictionary : list (string * ref)) (m : store)
  : result (list (string * ref) * store) :=
  match List.find (fun key => negb (pydict.mem constants.DEFAULT_CONFIG key))
                  dictionary.*1 with
  | Some key => error.RaiseInvalidKey key
  | None =>
      let '(copy, m') := deepcopy dictionary m in
      Ok (pydict.update self copy, m')
  end.

(** [ImmutableConfig.__init__(self, config)]: the [__dict__] of the new
    object, from that of [config]. *)
Definition ImmutableConfig__init__ (config : list (string * ref)) (m : store)
  : result (list (string * ref) * store) :=
  _UpdateDict [] config m.

(** [BaseConfig.__getitem__(self, key)]: what the attribute holds; for
    a nested mapping that is the dictionary object itself, not a copy
    of it. *)
Definition __getitem__ (self : list (string * ref)) (key : string)
  : result ref :=
  match pydict.get self key with
  | Some v => Ok v
  | None => Raise (KeyError key)
  end.

(** [Config.__setattr__(self, name, value)]: the attribute holds what
    it is given, a dictionary object by reference. *)
Definition Config__setattr__ (self : list (string * ref)) (name : string)
    (v : ref) : result (list (string * ref)) :=
  if negb (pydict.mem self name) then error.RaiseInvalidKey name
  else Ok (pydict.set self name v).

(** The values seen through an object: every read of an attribute, of
    an entry of a nested mapping, of the keys, and the serialisation are
    functions of this. *)
Definition view_ref (m : store) (v : ref) : value :=
  match v with
  | RNone => VNone
  | RStr s => VStr s
  | RDict l => VMap (default [] (m !! l))
  end.

Definition view (m : store) (d : list (string * ref))
  : list (string * value) :=
  map (fun kv => (kv.1, view_ref m kv.2)) d.

(** [del d[key]] *)
Fixpoint remove (d : list (string * string)) (key : string)
  : list (string * string) :=
  match d with
  | [] => []
  | (k, v) :: d' => if String.eqb k key then d' else (k, v) :: remove d' key
  end.

(** What a caller can do to a [Config] object. *)
Inductive mutation : Type :=
  (** [config.name = v] or [config[name] = v] *)
  | SetAttr (name : string) (v : ref)
  (** [config.name = {...}], a new dictionary *)
  | SetNewDict (name : string) (content : list (string * string))
  (** [config.name[key] = value] *)
  | SetEntry (name key value : string)
  (** [del config.name[key]] *)
  | DelEntry (name key : string).

(** The dictionary object the attribute [name] refers to. *)
Definition attr_dict (self : list (string * ref)) (m : store) (name : string)
  : result (nat * list (string * string)) :=
  match pydict.get self name with
  | None => Raise (AttributeError name)
  | Some (RDict l) =>
      match m !! l with
      | Some d => Ok (l, d)
      | None => Raise (KeyError name)
      end
  | Some _ => Raise (TypeError "object does not support item assignment")
  end.

Definition mutate (mu : mutation) (st : list (string * ref) * store)
  : result (list (string * ref) * store) :=
  let '(self, m) := st in
  match mu with
  | SetAttr name v =>
      match Config__setattr__ self name v with
      | Ok self' => Ok (self', m)
      | Raise e => Raise e
      end
  | SetNewDict name content =>
      let '(l, m') := alloc m content in
      match Config__setattr__ self name (RDict l) with
      | Ok self' => Ok (self', m')
      | Raise e => Raise e
      end
  | SetEntry name key v =>
      match attr_dict self m name with
      | Ok (l, d) => Ok (self, <[l := pydict.set d key v]> m)
      | Raise e => Raise e
      end
  | DelEntry name key =>
      match attr_dict self m name with
      | Ok (l, d) =>
          if pydict.mem d key then Ok (self, <[l := remove d key]> m)
          else Raise (KeyError key)
      | Raise e => Raise e
      end
  end.

(** A sequence of mutations; one that raises changes nothing and the
    caller goes on. *)
Definition mutate_all (mus : list mutation)
    (st : list (string * ref) * store) : list (string * ref) * store :=
  fold_left (fun st mu => match mutate mu st with
                          | Ok st' => st'
                          | Raise _ => st
                          end) mus st.

(** The mutation does not assign a dictionary object of [frozen] to the
    original. *)
Definition no_alias (frozen : list (string * ref)) (mu : mutation) : Prop :=
  match mu with
  | SetAttr _ (RDict l) => l ∉ refs frozen
  | _ => True
  end.

End objects.

(** The computation [c] leaves the process environment as it was. *)
Definition keeps_environ {A} (c : M A) : Prop :=
  forall w w' r, c w = (w', r) -> environ w' = environ w.

(** ** The layout an installer-only archive ends in

    [UnpackTar] moves the entries of the staging directory [root/repo]
    that have no namesake in [root] up into [root].  [moved_up m root
    names] gives the entries of the file system after that, from the
    file system [m] before it and the names listed in [root/repo]. *)
Module layout.

(** The entry [n] of [root/repo] is moved: it was listed and [root] has
    no entry of that name. *)
Definition goes (m : gmap (list string) fs.node) (root : list string)
    (names : list string) (n : string) : bool :=
  bool_decide (n ∈ names) && negb (fs.exists_ m (root ++ [n])).

Definition moved_up (m : gmap (list string) fs.node) (root : list string)
    (names : list string) (k : list string) : option fs.node :=
  match fs.after_prefix root k with
  | Some (n :: suf) =>
      if goes m root names n
      then m !! (root ++ constants.REPO_FOLDER :: n :: suf)
      else match suf with
           | n' :: _ =>
               if String.eqb n constants.REPO_FOLDER && goes m root names n'
               then None
               else m !! k
           | [] => m !! k
           end
  | _ => m !! k
  end.

End layout.

(** ** A concrete host and state

    A small host on which the definitions above can be run: one archive
    with the installer-only shape, reachable both as a local file and
    through a URL, an installer that succeeds, and a [gcloud] that prints
    nothing except for its help. *)
Module examples.

Definition scheme_of (url : string) : string :=
  if String.prefix "http://" url then "http"
  else if String.prefix "https://" url then "https"
  else "".

(** The path of [http://host/path]: what follows the host name. *)
Fixpoint from_first_sep (s : string) : string :=
  match s with
  | "" => ""
  | String c s' =>
      if Ascii.eqb c posixpath.sep then s else from_first_sep s'
  end.

Definition path_of (url : string) : string :=
  if String.prefix "http://" url
  then from_first_sep (String.substring 7 (String.length url) url)
  else if String.prefix "https://" url
  then from_first_sep (String.substring 8 (String.length url) url)
  else url.

Definition sdk_archive : list TarInfo :=
  [ {| name := "google-cloud-sdk"; kind := Directory |};
    {| name := "google-cloud-sdk/install.sh";
       kind := RegFile "#!/bin/sh" |} ].

(** [urlparse.urljoin(base, url)] for the base [file://] and a [url]
    that is a path of plain names (no scheme, network location, query
    or fragment, and no [.] or [..] component): the base has an empty
    path, so the path of the result starts at the root whether [url]
    starts with a separator or not, and
    [urljoin('file://', 'components-2.json')] is
    [file:///components-2.json]. *)
Definition urljoin_path (base url : string) : string :=
  if String.eqb url "" then base
  else if posixpath.starts_with_sep url then base +:+ url
  else base +:+ "/" +:+ url.

(** The text of a configuration file that sets a locked variable. *)
Definition bad_env_yaml : string :=
  "environment_variables: {CLOUDSDK_CONFIG: foo}".

Definition host : Host := {|
  os_name := "posix";
  sys_executable := Some "/usr/bin/python";
  sys_path := ["/usr/lib/python2.7"];
  TIMEOUT_ENABLED := false;
  json_loads := fun s => if String.eqb s "null" then Some JNull else None;
  shlex_split := fun s => Ok [s];
  md5_hexdigest := fun s => "d41d8cd98f00b204e9800998ecf8427e";
  url_scheme := scheme_of;
  url_path := path_of;
  urljoin := urljoin_path;
  yaml_load := fun s =>
    if String.eqb s bad_env_yaml
    then YamlMapping
           [("environment_variables", VMap [("CLOUDSDK_CONFIG", "foo")])]
    else if String.eqb s "{}" then YamlMapping []
    else if String.eqb s "{" then YamlParseError "expected the node content"
    else YamlOther;
  cwd := [];
  urlopen := fun url => Ok "SDK";
  tar_members := fun c =>
    if String.eqb c "SDK" then Some sdk_archive else None;
  extract_special := fun member target m => Ok (delete target m);
  mkdtemp_name := fun m => "/tmp/tmpdir";
  popen := fun command dir env timeout m =>
    Ok (m, (if bool_decide (command !! 1%nat = Some "help")
            then "usage: gcloud" else "", "", 0%Z));
|}.

Definition world : World := {|
  environ := {[ "PATH" := "/usr/bin" ]};
  files := {[ ["sdk.tar"] := fs.File "SDK";
              ["components-2.json"] := fs.File "{}";
              ["bad_env.yaml"] := fs.File bad_env_yaml;
              ["tmp"] := fs.Dir;
              ["work"] := fs.Dir ]};
  fetched := [];
  stderr := [];
|}.

(** The state after an installation into [/srv], a directory that
    [Init] has to create. *)
Definition installed_in_new_directory : World :=
  (driver.Init host (Some "/sdk.tar") driver.NoComponents (Some "/srv")
               world).1.

(** The state after an installation into [/work], which exists. *)
Definition installed_in_existing_directory : World :=
  (driver.Init host (Some "http://host/dl/sdk.tar") driver.NoComponents
               (Some "/work") world).1.

(** The state after the archive [/sdk.tar] was extracted into the
    staging directory of [/work]. *)
Definition staged : World :=
  (_sdk_tar.stage_archive host "/sdk.tar" "/work" world).1.

(** The state after a first download into [/work]. *)
Definition downloaded : World :=
  (_sdk_tar.DownloadTar host "http://host/dl/sdk.tar" "/work" world).1.

Definition sdk : driver.SDK := {|
  driver.config := {| _config.__dict__ := constants.DEFAULT_CONFIG |};
  driver._sdk_dir := "/work/google-cloud-sdk";
  driver._config_name := "configxxxxxxxx";
  driver._env := {[ "PATH" := "/work/google-cloud-sdk/bin:/usr/bin" ]};
|}.

(** A configuration object with two dictionaries, the store they live
    in, the frozen copy and the store after freezing, and mutations of
    the original. *)
Definition config_object : list (string * objects.ref) :=
  [ ("environment_variables", objects.RDict 0);
    ("project", objects.RStr "p");
    ("properties", objects.RDict 1) ].

Definition heap : objects.store :=
  <[1 := [("core/account", "a")]]> (<[0 := [("A", "1")]]> ∅).

Definition frozen_object : list (string * objects.ref) :=
  [ ("environment_variables", objects.RDict 2);
    ("project", objects.RStr "p");
    ("properties", objects.RDict 3) ].

Definition frozen_heap : objects.store :=
  <[3 := [("core/account", "a")]]> (<[2 := [("A", "1")]]> heap).

Definition mutations : list objects.mutation :=
  [ objects.SetEntry "environment_variables" "A" "2";
    objects.SetEntry "properties" "core/project" "q";
    objects.DelEntry "properties" "core/account";
    objects.SetAttr "project" objects.RNone;
    objects.SetNewDict "environment_variables" [("B", "3")];
    objects.SetEntry "environment_variables" "C" "4" ].

(** [config.environment_variables = frozen['environment_variables']]
    and then [config.environment_variables['A'] = '2']: the original
    is given the dictionary object of the frozen copy, and an entry is
    set through the original. *)
Definition aliasing_mutations : list objects.mutation :=
  [ objects.SetAttr "environment_variables" (objects.RDict 2);
    objects.SetEntry "environment_variables" "A" "2" ].

End examples.

(** Every run of [c] takes a state to one that [R] relates to it,
    whether it returns or raises. *)
Definition respects (R : World -> World -> Prop) {A} (c : M A) : Prop :=
  forall w w' r, c w = (w', r) -> R w w'.

(** Entries are added to the file system; none is changed or removed,
    and the process environment is as it was. *)
Definition only_adds (w w' : World) : Prop :=
  files w ⊆ files w' /\ environ w' = environ w.

(** ** More concrete inputs *)
Module samples.


(** The host of [examples], without a network. *)
Definition offline_host : Host := {|
  os_name := os_name examples.host;
  sys_executable := sys_executable examples.host;
  sys_path := sys_path examples.host;
  TIMEOUT_ENABLED := TIMEOUT_ENABLED examples.host;
  json_loads := json_loads examples.host;
  shlex_split := shlex_split examples.host;
  md5_hexdigest := md5_hexdigest examples.host;
  url_scheme := url_scheme examples.host;
  url_path := url_path examples.host;
  urljoin := urljoin examples.host;
  yaml_load := yaml_load examples.host;
  cwd := cwd examples.host;
  urlopen := fun url => Raise (URLError "Network is unreachable");
  tar_members := tar_members examples.host;
  extract_special := extract_special examples.host;
  mkdtemp_name := mkdtemp_name examples.host;
  popen := popen examples.host;
|}.




(** The host of [examples], with a [gcloud] and an installer that
    fail. *)
Definition failing_host : Host := {|
  os_name := os_name examples.host;
  sys_executable := sys_executable examples.host;
  sys_path := sys_path examples.host;
  TIMEOUT_ENABLED := TIMEOUT_ENABLED examples.host;
  json_loads := json_loads examples.host;
  shlex_split := shlex_split examples.host;
  md5_hexdigest := md5_hexdigest examples.host;
  url_scheme := url_scheme examples.host;
  url_path := url_path examples.host;
  urljoin := urljoin examples.host;
  yaml_load := yaml_load examples.host;
  cwd := cwd examples.host;
  urlopen := urlopen examples.host;
  tar_members := tar_members examples.host;
  extract_special := extract_special examples.host;
  mkdtemp_name := mkdtemp_name examples.host;
  popen := fun command dir env timeout m =>
    Ok (m, ("", "ERROR: failed", 1%Z));
|}.

(** The host of [examples] with [/work] as the working directory, and
    an installer archive in that directory with the components file
    beside it. *)
Definition relative_host : Host := {|
  os_name := os_name examples.host;
  sys_executable := sys_executable examples.host;
  sys_path := sys_path examples.host;
  TIMEOUT_ENABLED := TIMEOUT_ENABLED examples.host;
  json_loads := json_loads examples.host;
  shlex_split := shlex_split examples.host;
  md5_hexdigest := md5_hexdigest examples.host;
  url_scheme := url_scheme examples.host;
  url_path := url_path examples.host;
  urljoin := urljoin examples.host;
  yaml_load := yaml_load examples.host;
  cwd := ["work"];
  urlopen := urlopen examples.host;
  tar_members := tar_members examples.host;
  extract_special := extract_special examples.host;
  mkdtemp_name := mkdtemp_name examples.host;
  popen := popen examples.host;
|}.

Definition relative_world : World := {|
  environ := environ examples.world;
  files := {[ ["work"] := fs.Dir;
              ["work"; "sdk.tar"] := fs.File "SDK";
              ["work"; "components-2.json"] := fs.File "{}";
              ["work"; "out"] := fs.Dir ]};
  fetched := [];
  stderr := [];
|}.

(** The file system of [examples] with a file that is not YAML. *)
Definition broken_yaml_world : World := {|
  environ := environ examples.world;
  files := <[ ["broken.yaml"] := fs.File "{" ]> (files examples.world);
  fetched := [];
  stderr := [];
|}.


(** An SDK object for a service account. *)
Definition service_account_sdk : driver.SDK := {|
  driver.config :=
    {| _config.__dict__ :=
         pydict.set
           (pydict.set constants.DEFAULT_CONFIG "service_account_keyfile"
              (VStr "/key.json"))
           "service_account_email" (VStr "sa@example.com") |};
  driver._sdk_dir := "/work/google-cloud-sdk";
  driver._config_name := "configabcdefgh";
  driver._env := {[ "PATH" := "/work/google-cloud-sdk/bin:/usr/bin" ]};
|}.

End samples.

(* ===================================================================== *)
(** * Theorems *)
(* ===================================================================== *)

(** ** Strings *)

#[local] Arguments String.append !_ _ / : simpl nomatch.

Lemma string_prefix_app (a b : string) : String.prefix a (a +:+ b) = true.
Proof.
  induction a as [|c a IH]; simpl.
  - by destruct b.
  - destruct (ascii_dec c c); [done | congruence].
Qed.

Lemma string_prefix_inv (a s : string) :
  String.prefix a s = true -> exists b, s = a +:+ b.
Proof.
  revert s. induction a as [|c a IH]; intros s H; simpl in *.
  - by exists s.
  - destruct s as [|d s]; simpl in H; [done|].
    destruct (ascii_dec c d) as [->|]; [|done].
    destruct (IH _ H) as [b ->]. by exists b.
Qed.

Lemma string_app_assoc (a b c : string) : (a +:+ b) +:+ c = a +:+ (b +:+ c).
Proof. induction a as [|x a IH]; simpl; [done | by rewrite IH]. Qed.

Lemma string_app_nil_r (a : string) : a +:+ "" = a.
Proof. induction a as [|x a IH]; simpl; [done | by rewrite IH]. Qed.

(** [str_contains] is Python's substring test. *)
Lemma str_contains_spec (needle hay : string) :
  str_contains needle hay = true <->
  exists a b, hay = a +:+ needle +:+ b.
Proof.
  split.
  - induction hay as [|c hay IH]; intros H.
    + cbn [str_contains] in H. rewrite orb_false_r in H.
      destruct (string_prefix_inv _ _ H) as [b ->]. by exists "", b.
    + cbn [str_contains] in H. apply orb_true_iff in H as [H|H].
      * destruct (string_prefix_inv _ _ H) as [b Hb]. exists "", b.
        by rewrite Hb.
      * destruct (IH H) as (a & b & ->). by exists (String c a), b.
  - intros (a & b & ->). induction a as [|c a IH].
    + change ("" +:+ needle +:+ b) with (needle +:+ b).
      destruct (needle +:+ b) eqn:E; cbn [str_contains];
        rewrite <- E, string_prefix_app; done.
    + change (String c a +:+ needle +:+ b)
        with (String c (a +:+ needle +:+ b)).
      cbn [str_contains]. rewrite IH. apply orb_true_r.
Qed.

(** ** PrepareEnviron *)

Lemma str_join_two (sep a b : string) : str_join sep [a; b] = a +:+ sep +:+ b.
Proof. reflexivity. Qed.

Lemma str_join_three (sep a b c : string) :
  str_join sep [a; b; c] = a +:+ sep +:+ b +:+ sep +:+ c.
Proof. reflexivity. Qed.

(** The value of [PATH] that [PrepareEnviron] computes. *)
Lemma PrepareEnviron_lookup_PATH (h : Host)
    (os_environ user_environ env : gmap string string)
    (config_name sdk_dir host_path : string) :
  os_environ !! "PATH" = Some host_path ->
  _config.PrepareEnviron h os_environ user_environ config_name sdk_dir
    = Ok env ->
  env !! "PATH" =
    Some (str_join ":"
            (posixpath.join sdk_dir constants.BIN_FOLDER
             :: match user_environ !! "PATH" with
                | None => [host_path]
                | Some p => if str_contains host_path p then [p]
                            else [p; host_path]
                end)).
Proof.
  intros Hhost. unfold _config.PrepareEnviron. rewrite Hhost.
  set (path := str_join posixpath.pathsep _).
  assert (Hpath : path = str_join ":"
            (posixpath.join sdk_dir constants.BIN_FOLDER
             :: match user_environ !! "PATH" with
                | None => [host_path]
                | Some p => if str_contains host_path p then [p]
                            else [p; host_path]
                end)).
  { subst path. destruct (user_environ !! "PATH") as [p|]; [|done].
    by destruct (str_contains host_path p). }
  rewrite <- Hpath. clearbody path. clear Hpath.
  set (e1 := <[constants.CONFIG_ENV:=_]> _).
  assert (H1 : e1 !! "PATH" = Some path).
  { subst e1. rewrite lookup_insert_ne by done. apply lookup_insert_eq. }
  destruct (e1 !! constants.PYTHON_ENV) as [py|] eqn:Hpy.
  - destruct (e1 !! constants.PYTHON_PATH); intros [= <-];
      by rewrite lookup_insert_ne.
  - destruct (sys_executable h) as [exe|]; [|done].
    destruct (String.eqb exe ""); [done|].
    destruct (_ !! constants.PYTHON_PATH); intros [= <-];
      by rewrite !lookup_insert_ne.
Qed.

(** [PrepareEnviron] returns once the host has a [PATH] and an
    interpreter can be determined. *)
Lemma PrepareEnviron_returns (h : Host)
    (os_environ user_environ : gmap string string)
    (config_name sdk_dir host_path : string) :
  os_environ !! "PATH" = Some host_path ->
  truthy (sys_executable h) = true
  \/ is_Some (user_environ !! constants.PYTHON_ENV) ->
  exists env,
    _config.PrepareEnviron h os_environ user_environ config_name sdk_dir
      = Ok env.
Proof.
  intros Hhost Hpy. unfold _config.PrepareEnviron. rewrite Hhost.
  set (e1 := <[constants.CONFIG_ENV:=_]> _).
  assert (H1 : e1 !! constants.PYTHON_ENV = user_environ !! constants.PYTHON_ENV).
  { subst e1. by rewrite !lookup_insert_ne. }
  rewrite H1. destruct (user_environ !! constants.PYTHON_ENV) as [py|] eqn:E.
  - destruct (e1 !! constants.PYTHON_PATH); eauto.
  - destruct Hpy as [Hpy|[? ?]]; [|done].
    destruct (sys_executable h) as [exe|]; [|done]. simpl in Hpy.
    destruct (String.eqb exe ""); [done|].
    destruct (_ !! constants.PYTHON_PATH); eauto.
Qed.

(** C5.  Whenever the host has a [PATH] and an interpreter location can
    be determined, [PrepareEnviron] returns, for every user environment,
    configuration name and SDK directory, an environment whose [PATH]
    starts with the SDK binary directory [join sdk_dir bin] followed by
    the separator; with no [PATH] key in the user environment the result
    still has a [PATH] (the binary directory and the host's [PATH]); and
    when the user's [PATH] contains the host's [PATH] as a substring the
    host's [PATH] is not appended again. *)
Theorem PrepareEnviron_PATH (h : Host)
    (os_environ user_environ : gmap string string)
    (config_name sdk_dir host_path : string) :
  os_environ !! "PATH" = Some host_path ->
  truthy (sys_executable h) = true
  \/ is_Some (user_environ !! constants.PYTHON_ENV) ->
  let bin_folder := posixpath.join sdk_dir constants.BIN_FOLDER in
  exists env path,
    _config.PrepareEnviron h os_environ user_environ config_name sdk_dir
      = Ok env
    /\ env !! "PATH" = Some path
    /\ (exists rest, path = bin_folder +:+ ":" +:+ rest)
    /\ (user_environ !! "PATH" = None ->
        path = bin_folder +:+ ":" +:+ host_path)
    /\ (forall user_path,
          user_environ !! "PATH" = Some user_path ->
          (exists a b, user_path = a +:+ host_path +:+ b) ->
          path = bin_folder +:+ ":" +:+ user_path)
    /\ (forall user_path,
          user_environ !! "PATH" = Some user_path ->
          ~ (exists a b, user_path = a +:+ host_path +:+ b) ->
          path = bin_folder +:+ ":" +:+ user_path +:+ ":" +:+ host_path).
Proof.
  intros Hhost Hpy bin_folder.
  destruct (PrepareEnviron_returns h _ _ config_name sdk_dir _ Hhost Hpy)
    as [env Henv].
  pose proof (PrepareEnviron_lookup_PATH _ _ _ _ _ _ _ Hhost Henv) as HP.
  exists env. eexists. split; [exact Henv|]. split; [exact HP|].
  fold bin_folder. repeat split.
  - destruct (user_environ !! "PATH") as [p|].
    + destruct (str_contains host_path p); eexists; reflexivity.
    + eexists; reflexivity.
  - by intros ->.
  - intros p -> Hsub. apply str_contains_spec in Hsub. by rewrite Hsub.
  - intros p -> Hsub.
    destruct (str_contains host_path p) eqn:E; [|done].
    apply str_contains_spec in E. done.
Qed.

(** ** RunGcloud *)

(** What [RunGcloud] makes of the output of the raw runner. *)
Lemma RunGcloud_of_raw (h : Host) (self : driver.SDK) (cmd : driver.command)
    (format_keys : option (list string)) (filters : option string)
    (timeout : option Z) (env : option (gmap string string))
    (w w' : World) (r : result (string * string * Z)) :
  driver.RunGcloudRawOutput h self cmd
    (Some (driver.json_format format_keys)) filters timeout env w = (w', r) ->
  driver.RunGcloud h self cmd format_keys filters timeout env w =
    (w', match r with
         | Raise e => Raise e
         | Ok (out, err, code) =>
             Ok (if String.eqb out "" then JNull
                 else match json_loads h out with
                      | Some decoded => decoded
                      | None => JStr out
                      end, err, code)
         end).
Proof.
  intros Hraw. unfold driver.RunGcloud, bind. rewrite Hraw.
  destruct r as [[[out err] code]|e]; [|done].
  destruct (String.eqb out ""); simpl; [done|].
  by destruct (json_loads h out).
Qed.

(** C9.  When the raw runner returns [(out, err, code)], [RunGcloud]
    returns [None] as its decoded value if [out] is empty, and [out]
    itself if [out] is not empty and [json.loads] rejects it; in both
    cases with the same [err] and [code], and in the state the raw runner
    left. *)
Theorem RunGcloud_empty_or_undecodable (h : Host) (self : driver.SDK)
    (cmd : driver.command) (format_keys : option (list string))
    (filters : option string) (timeout : option Z)
    (env : option (gmap string string))
    (w w' : World) (out err : string) (code : Z) :
  driver.RunGcloudRawOutput h self cmd
    (Some (driver.json_format format_keys)) filters timeout env w
    = (w', Ok (out, err, code)) ->
  (out = "" ->
   driver.RunGcloud h self cmd format_keys filters timeout env w
   = (w', Ok (JNull, err, code)))
  /\ (out <> "" -> json_loads h out = None ->
      driver.RunGcloud h self cmd format_keys filters timeout env w
      = (w', Ok (JStr out, err, code))).
Proof.
  intros Hraw. rewrite (RunGcloud_of_raw _ _ _ _ _ _ _ _ _ _ Hraw). split.
  - by intros ->.
  - intros Hne Hloads. rewrite Hloads.
    destruct (String.eqb_spec out ""); [done|done].
Qed.

(** ** Which effects touch the process environment

    Downloading, unpacking and running a child process change the file
    system and the record of fetches, never [os.environ]. *)

Create HintDb keeps discriminated.

Lemma keeps_ret {A} (a : A) : keeps_environ (ret a).
Proof. by intros w w' r [= <- _]. Qed.

Lemma keeps_raise {A} (e : exn) : keeps_environ (raise (A := A) e).
Proof. by intros w w' r [= <- _]. Qed.

Lemma keeps_bind {A B} (c : M A) (k : A -> M B) :
  keeps_environ c -> (forall a, keeps_environ (k a)) ->
  keeps_environ (bind c k).
Proof.
  intros Hc Hk w w' r. unfold bind.
  destruct (c w) as [w1 [a|e]] eqn:E.
  - intros H. rewrite (Hk _ _ _ _ H). eauto.
  - intros [= <- _]. eauto.
Qed.

Lemma keeps_try_except {A} (c : M A) (handler : exn -> option (M A)) :
  keeps_environ c ->
  (forall e k, handler e = Some k -> keeps_environ k) ->
  keeps_environ (try_except c handler).
Proof.
  intros Hc Hh w w' r. unfold try_except.
  destruct (c w) as [w1 [a|e]] eqn:E.
  - intros [= <- _]. eauto.
  - destruct (handler e) as [k|] eqn:Ek.
    + intros H. rewrite (Hh _ _ Ek _ _ _ H). eauto.
    + intros [= <- _]. eauto.
Qed.

Lemma keeps_when (b : bool) (c : M unit) :
  keeps_environ c -> keeps_environ (when_ b c).
Proof. destruct b; [done|]. intros _. apply keeps_ret. Qed.

Lemma keeps_for {A} (l : list A) (body : A -> M unit) :
  (forall x, keeps_environ (body x)) -> keeps_environ (for_ l body).
Proof.
  intros Hb. induction l as [|x l IH]; simpl.
  - apply keeps_ret.
  - apply keeps_bind; auto.
Qed.

Lemma keeps_fs_update op : keeps_environ (fs_update op).
Proof.
  intros w w' r. unfold fs_update.
  destruct (op (files w)); by intros [= <- _].
Qed.

Lemma keeps_fs_read {A} (op : gmap (list string) fs.node -> result A) :
  keeps_environ (fs_read op).
Proof. by intros w w' r [= <- _]. Qed.

Lemma keeps_if {A} (b : bool) (c1 c2 : M A) :
  keeps_environ c1 -> keeps_environ c2 ->
  keeps_environ (if b then c1 else c2).
Proof. by destruct b. Qed.

#[local] Hint Resolve keeps_ret keeps_raise keeps_bind keeps_try_except
  keeps_when keeps_for keeps_fs_update keeps_fs_read keeps_if : keeps.

Lemma keeps_path_exists h p : keeps_environ (os.path_exists h p).
Proof. by intros w w' r [= <- _]. Qed.
Lemma keeps_path_isfile h p : keeps_environ (os.path_isfile h p).
Proof. by intros w w' r [= <- _]. Qed.
Lemma keeps_path_isdir h p : keeps_environ (os.path_isdir h p).
Proof. by intros w w' r [= <- _]. Qed.
Lemma keeps_checked p c : keeps_environ c -> keeps_environ (os.checked p c).
Proof. unfold os.checked. auto with keeps. Qed.
Lemma keeps_makedirs h p : keeps_environ (os.makedirs h p).
Proof. apply keeps_checked. auto with keeps. Qed.
Lemma keeps_listdir h p : keeps_environ (os.listdir h p).
Proof. unfold os.listdir. auto with keeps. Qed.
Lemma keeps_rmtree h p : keeps_environ (os.rmtree h p).
Proof. apply keeps_checked. auto with keeps. Qed.
Lemma keeps_move h src dst : keeps_environ (os.move h src dst).
Proof. do 2 apply keeps_checked. auto with keeps. Qed.
Lemma keeps_write h p body : keeps_environ (os.write h p body).
Proof. unfold os.write. auto with keeps. Qed.
Lemma keeps_urlopen h url : keeps_environ (os.urllib2_urlopen h url).
Proof. by intros w w' r [= <- _]. Qed.
Lemma keeps_tar_extract h member directory :
  keeps_environ (os.tar_extract h member directory).
Proof. unfold os.tar_extract. auto with keeps. Qed.
Lemma keeps_tarfile_open h p : keeps_environ (os.tarfile_open h p).
Proof.
  unfold os.tarfile_open. apply keeps_if; [auto with keeps|].
  apply keeps_bind; [auto with keeps|]. intros c.
  destruct (tar_members h c); auto with keeps.
Qed.
Lemma keeps_mkdtemp h : keeps_environ (os.mkdtemp h).
Proof.
  intros w w' r. unfold os.mkdtemp.
  destruct (os.makedirs h _ w) as [w1 [a|e]] eqn:E; intros [= <- _];
    eapply keeps_makedirs; eauto.
Qed.
Lemma keeps_subprocess_run h command dir env timeout :
  keeps_environ (os.subprocess_run h command dir env timeout).
Proof.
  intros w w' r. unfold os.subprocess_run.
  destruct (popen h _ _ _ _ _) as [[m x]|e]; by intros [= <- _].
Qed.
Lemma keeps_RaiseTarError {A} action tar reason :
  keeps_environ (error.RaiseTarError (A := A) action tar reason).
Proof. apply keeps_raise. Qed.
Lemma keeps_HandlePossibleError r error_type message :
  keeps_environ (error.HandlePossibleError r error_type message).
Proof.
  destruct r as [[out err] code]. unfold error.HandlePossibleError.
  auto with keeps.
Qed.

#[local] Hint Resolve keeps_path_exists keeps_path_isfile keeps_path_isdir
  keeps_makedirs keeps_listdir keeps_rmtree keeps_move keeps_write
  keeps_urlopen keeps_tar_extract keeps_tarfile_open keeps_mkdtemp
  keeps_subprocess_run keeps_RaiseTarError keeps_HandlePossibleError : keeps.

Lemma keeps_DownloadTar h tar_location download_directory :
  keeps_environ (_sdk_tar.DownloadTar h tar_location download_directory).
Proof.
  unfold _sdk_tar.DownloadTar.
  apply keeps_if; repeat (apply keeps_bind; [|intros ?]); auto with keeps.
  apply keeps_when, keeps_try_except; [auto with keeps|].
  intros [] k; intros [= <-]; auto with keeps.
Qed.

Lemma keeps_ExtractWithoutOverwrite h tar directory :
  keeps_environ (_sdk_tar.ExtractWithoutOverwrite h tar directory).
Proof. unfold _sdk_tar.ExtractWithoutOverwrite. auto 10 with keeps. Qed.

Lemma keeps_extract_archive h archive directory download_path :
  keeps_environ (_sdk_tar.extract_archive h archive directory download_path).
Proof.
  unfold _sdk_tar.extract_archive. apply keeps_try_except.
  - apply keeps_bind; [auto with keeps|]. intros ?.
    apply keeps_ExtractWithoutOverwrite.
  - intros [] k; intros [= <-]; auto with keeps.
Qed.

Lemma keeps_stage_archive h download_path root_directory :
  keeps_environ (_sdk_tar.stage_archive h download_path root_directory).
Proof.
  pose proof keeps_extract_archive.
  unfold _sdk_tar.stage_archive.
  repeat (apply keeps_bind; [auto with keeps|intros ?]). auto with keeps.
Qed.

Lemma keeps_UnpackTar h download_path tar_location root_directory :
  keeps_environ (_sdk_tar.UnpackTar h download_path tar_location
                                    root_directory).
Proof.
  pose proof keeps_extract_archive. pose proof keeps_stage_archive.
  unfold _sdk_tar.UnpackTar.
  repeat (apply keeps_bind; [auto with keeps|intros ?]).
  apply keeps_if.
  - auto with keeps.
  - apply keeps_bind; [auto 10 with keeps|intros ?].
    apply keeps_bind; [|auto with keeps].
    apply keeps_try_except; [auto 10 with keeps|].
    intros [] k; intros [= <-]; auto with keeps.
Qed.

(** ** Init and Destroy *)

Lemma bind_inv {A B} (c : M A) (k : A -> M B) (w w' : World) (r : result B) :
  bind c k w = (w', r) ->
  (exists w1 a, c w = (w1, Ok a) /\ k a w1 = (w', r))
  \/ (exists e, c w = (w', Raise e) /\ r = Raise e).
Proof.
  unfold bind. destruct (c w) as [w1 [a|e]].
  - intros H. left. eauto.
  - intros [= <- <-]. right. eauto.
Qed.

(** [install_into] changes [os.environ] only by publishing the location,
    and only when it succeeds. *)
Lemma install_into_environ (h : Host) (tar_location : string)
    (additional_components : driver.components) (root_directory : string)
    (w w' : World) (r : result unit) :
  driver.install_into h tar_location additional_components root_directory w
    = (w', r) ->
  environ w' = match r with
               | Ok _ => <[constants.DRIVER_LOCATION_ENV := root_directory]>
                           (environ w)
               | Raise _ => environ w
               end.
Proof.
  unfold driver.install_into. intros H.
  apply bind_inv in H as [(w1 & dp & H1 & H)|(e & H1 & ->)];
    [|by apply keeps_DownloadTar in H1].
  apply keeps_DownloadTar in H1. rewrite <- H1. clear H1.
  apply bind_inv in H as [(w2 & url & H2 & H)|(e & H2 & ->)];
    [|by apply keeps_UnpackTar in H2].
  apply keeps_UnpackTar in H2. rewrite <- H2. clear H2.
  apply bind_inv in H as [(w3 & oe & [= <- <-] & H)|(e & [=] & _)].
  match type of H with (if ?b then _ else _) _ = _ => destruct b end;
    [by injection H as <- <-|].
  apply bind_inv in H as [(w3 & cmd & H3 & H)|(e & H3 & ->)].
  2:{ destruct (driver.components_truthy _); [|done].
      destruct additional_components; by injection H3 as <-. }
  assert (w3 = w2) as ->.
  { destruct (driver.components_truthy _); [|by injection H3].
    destruct additional_components; by injection H3. }
  clear H3.
  apply bind_inv in H as [(w4 & res & H4 & H)|(e & H4 & ->)];
    [|by apply keeps_subprocess_run in H4].
  apply keeps_subprocess_run in H4. rewrite <- H4. clear H4.
  apply bind_inv in H as [(w5 & [] & H5 & H)|(e & H5 & ->)];
    [|by apply keeps_HandlePossibleError in H5].
  apply keeps_HandlePossibleError in H5. rewrite <- H5. clear H5.
  apply bind_inv in H as [(w6 & isd & [= <- <-] & H)|(e & [=] & _)].
  match type of H with (if negb ?b then _ else _) _ = _ => destruct b end;
    simpl in H; by injection H as <- <-.
Qed.

(** C8.  While the driver-location variable is set, [Init] raises
    [InitError] (the class the driver uses for a double initialisation)
    and leaves the whole state as it was: the environment, and with it
    the record of the installation, and the file system. *)
Theorem Init_twice_fails (h : Host) (tar_location : option string)
    (additional_components : driver.components)
    (root_directory : option string) (w : World) :
  is_Some (environ w !! constants.DRIVER_LOCATION_ENV) ->
  exists msg,
    driver.Init h tar_location additional_components root_directory w
    = (w, Raise (InitError msg))
    /\ (driver._IsOnWindows h = false ->
        msg = "Driver is already initialized.").
Proof.
  intros Hset. unfold driver.Init.
  destruct (driver._IsOnWindows h); [eexists; split; [done|done]|].
  eexists. split; [|done].
  unfold bind, os.getenv. simpl. by rewrite bool_decide_true.
Qed.

(** What [Init] does before it installs, for a root directory the caller
    supplies and that exists: it sets the keep-location marker. *)
Lemma Init_existing_root (h : Host) (tar_location : option string)
    (additional_components : driver.components) (root_directory : string)
    (w : World) :
  driver._IsOnWindows h = false ->
  environ w !! constants.DRIVER_LOCATION_ENV = None ->
  os.isdir_in h w root_directory = true ->
  driver.Init h tar_location additional_components (Some root_directory) w
  = driver.install_into h
      (match tar_location with
       | None => constants.RELEASE_TAR
       | Some t => t
       end)
      additional_components root_directory
      (set_environ (<[constants.DRIVER_KEEP_LOCATION_ENV := "True"]>
                      (environ w)) w).
Proof.
  intros Hwin Hloc Hdir. unfold driver.Init. rewrite Hwin.
  unfold bind at 1. unfold os.getenv. rewrite Hloc.
  rewrite bool_decide_false by (by intros [? ?]).
  unfold bind at 1. unfold bind at 1. unfold os.path_isdir.
  rewrite Hdir. simpl. reflexivity.
Qed.

(** C10.  When [Init] is called with a root directory that exists (on a
    host that is not Windows and with no installation active), the
    keep-location marker is set before the download, the extraction and
    the installer run: [Init] is [install_into] run in the state with
    the marker set.  If [Init] then fails, the marker is still set and
    the driver-location variable is not. *)
Theorem Init_failure_leaves_keep_marker (h : Host)
    (tar_location : option string)
    (additional_components : driver.components) (root_directory : string)
    (w : World) :
  driver._IsOnWindows h = false ->
  environ w !! constants.DRIVER_LOCATION_ENV = None ->
  os.isdir_in h w root_directory = true ->
  driver.Init h tar_location additional_components (Some root_directory) w
  = driver.install_into h
      (match tar_location with
       | None => constants.RELEASE_TAR
       | Some t => t
       end)
      additional_components root_directory
      (set_environ (<[constants.DRIVER_KEEP_LOCATION_ENV := "True"]>
                      (environ w)) w)
  /\ forall w' e,
       driver.Init h tar_location additional_components
                   (Some root_directory) w = (w', Raise e) ->
       environ w' !! constants.DRIVER_KEEP_LOCATION_ENV = Some "True"
       /\ environ w' !! constants.DRIVER_LOCATION_ENV = None.
Proof.
  intros Hwin Hloc Hdir.
  pose proof (Init_existing_root h tar_location additional_components
                root_directory w Hwin Hloc Hdir) as HInit.
  split; [exact HInit|]. intros w' e H. rewrite HInit in H.
  apply install_into_environ in H. rewrite H. simpl. split.
  - apply lookup_insert_eq.
  - by rewrite lookup_insert_ne.
Qed.

(** What [Destroy] does when an installation is recorded: it removes the
    root directory unless the keep-location marker has a true value, and
    clears both variables. *)
Lemma Destroy_spec (h : Host) (w : World) (root : string) :
  environ w !! constants.DRIVER_LOCATION_ENV = Some root ->
  exists w',
    driver.Destroy h w = (w', Ok tt)
    /\ environ w' = delete constants.DRIVER_KEEP_LOCATION_ENV
                      (delete constants.DRIVER_LOCATION_ENV (environ w))
    /\ files w' =
         if os.isdir_in h w root
            && negb (truthy (environ w !! constants.DRIVER_KEEP_LOCATION_ENV))
         then filter (fun kv => fs.under (os.locate h root) kv.1 = false)
                     (files w)
         else files w.
Proof.
  intros Hroot. unfold driver.Destroy.
  unfold bind at 1. unfold os.getenv at 1. rewrite Hroot.
  unfold bind at 1. unfold os.getenv at 1.
  set (keep := environ w !! constants.DRIVER_KEEP_LOCATION_ENV).
  unfold bind at 1. unfold bind at 1. unfold bind at 1.
  unfold os.path_isdir.
  destruct (os.isdir_in h w root) eqn:Hdir; simpl.
  - destruct (truthy keep) eqn:Hkeep; simpl.
    + unfold ret, os.environ_pop. rewrite Hroot.
      destruct keep as [k|] eqn:Ek; [|done]. subst keep. simpl.
      rewrite lookup_delete_ne by done. rewrite Ek. eauto.
    + unfold os.rmtree, os.checked.
      assert (root <> "") as Hne.
      { intros ->. by unfold os.isdir_in in Hdir. }
      apply String.eqb_neq in Hne. rewrite Hne.
      unfold fs_update, fs.rmtree.
      assert (fs.isdir (files w) (os.locate h root) = true) as ->.
      { unfold os.isdir_in in Hdir. by apply andb_true_iff in Hdir as [_ ?]. }
      unfold os.environ_pop. simpl. rewrite Hroot.
      destruct keep as [k|] eqn:Ek; subst keep; simpl.
      * rewrite lookup_delete_ne by done. rewrite Ek. eauto.
      * eexists. split; [done|]. simpl. split; [|done].
        symmetry. apply delete_id. by rewrite lookup_delete_ne.
  - unfold ret, os.environ_pop. rewrite Hroot.
    destruct keep as [k|] eqn:Ek; subst keep; simpl.
    + rewrite lookup_delete_ne by done. rewrite Ek. eauto.
    + eexists. split; [done|]. simpl. split; [|done].
      symmetry. apply delete_id. by rewrite lookup_delete_ne.
Qed.

(** ** File-system facts *)

Lemma after_prefix_Some (p k suf : list string) :
  fs.after_prefix p k = Some suf <-> k = p ++ suf.
Proof.
  revert k. induction p as [|a p IH]; intros k; simpl.
  - split; [by intros [= ->] | by intros ->].
  - destruct k as [|b k]; [split; [done | by intros [=]]|].
    destruct (String.eqb_spec a b) as [->|Hne].
    + rewrite IH. split; [by intros -> | by intros [= ->]].
    + split; [done|]. intros [= -> _]. done.
Qed.

Lemma after_prefix_app (p suf : list string) :
  fs.after_prefix p (p ++ suf) = Some suf.
Proof. by apply after_prefix_Some. Qed.

Lemma under_true (p k : list string) :
  fs.under p k = true <-> exists suf, k = p ++ suf.
Proof.
  unfold fs.under. destruct (fs.after_prefix p k) as [suf|] eqn:E.
  - apply after_prefix_Some in E. split; eauto.
  - split; [done|]. intros [suf ->]. by rewrite after_prefix_app in E.
Qed.

Lemma under_refl (p : list string) : fs.under p p = true.
Proof. apply under_true. exists []. by rewrite app_nil_r. Qed.

Lemma rmtree_lookup (m : gmap (list string) fs.node) (p k : list string) :
  filter (fun kv => fs.under p kv.1 = false) m !! k
  = if fs.under p k then None else m !! k.
Proof.
  destruct (fs.under p k) eqn:E.
  - apply map_lookup_filter_None. right. intros x _. simpl. congruence.
  - destruct (m !! k) as [x|] eqn:Ek.
    + by apply map_lookup_filter_Some.
    + apply map_lookup_filter_None. by left.
Qed.

Lemma isdir_nonroot (m : gmap (list string) fs.node) (p : list string) :
  p <> [] ->
  fs.isdir m p = match m !! p with Some fs.Dir => true | _ => false end.
Proof. by destruct p. Qed.

Lemma exists_root (m : gmap (list string) fs.node) : fs.exists_ m [] = true.
Proof. unfold fs.exists_. simpl. apply orb_true_r. Qed.

Lemma makedirs_ok_inv (h : Host) (p : string) (w w' : World) :
  os.makedirs h p w = (w', Ok tt) ->
  environ w' = environ w /\ p <> "" /\ os.locate h p <> []
  /\ os.exists_in h w p = false.
Proof.
  intros H. split; [by apply keeps_makedirs in H|].
  unfold os.makedirs, os.checked in H.
  destruct (String.eqb_spec p "") as [->|Hne]; [done|]. split; [done|].
  unfold fs_update, fs.makedirs in H. unfold os.exists_in.
  destruct (fs.exists_ (files w) (os.locate h p)) eqn:E; [done|].
  split; [|by rewrite andb_false_r].
  intros Hp. rewrite Hp in E. by rewrite exists_root in E.
Qed.

(** A successful [Init] is a successful [install_into] on the root
    directory chosen: the one supplied, marked to be kept if it exists
    and created if not, or a fresh temporary directory. *)
Lemma Init_ok_inv (h : Host) (tar_location : option string)
    (additional_components : driver.components)
    (root_directory : option string) (w w1 : World) :
  driver.Init h tar_location additional_components root_directory w
    = (w1, Ok tt) ->
  exists root w0,
    driver.install_into h
      (match tar_location with
       | None => constants.RELEASE_TAR
       | Some t => t
       end) additional_components root w0 = (w1, Ok tt)
    /\ match root_directory with
       | Some r =>
           root = r
           /\ if os.isdir_in h w r
              then w0 = set_environ
                          (<[constants.DRIVER_KEEP_LOCATION_ENV := "True"]>
                             (environ w)) w
              else os.makedirs h r w = (w0, Ok tt)
       | None => os.makedirs h root w = (w0, Ok tt)
       end.
Proof.
  unfold driver.Init. destruct (driver._IsOnWindows h); [done|].
  intros H.
  apply bind_inv in H as [(w' & loc & [= <- <-] & H)|(e & _ & [=])].
  destruct (bool_decide _); [done|].
  apply bind_inv in H as [(w0 & root & Hroot & H)|(e & _ & [=])].
  exists root, w0. split; [exact H|]. clear H.
  destruct root_directory as [r|].
  - apply bind_inv in Hroot as [(w' & isd & [= <- <-] & H)|(e & _ & [=])].
    apply bind_inv in H as [(w' & [] & H & [= <- <-])|(e & _ & [=])].
    split; [done|].
    destruct (os.isdir_in h w r); simpl in H; [by injection H|done].
  - unfold os.mkdtemp in Hroot.
    destruct (os.makedirs h _ w) as [w' [[]|e]] eqn:E; [|done].
    by injection Hroot as <- <-.
Qed.

(** C2 (amended).  After a successful [Init], [Destroy] succeeds and
    clears the driver-location variable and the keep-location marker.
    If the caller supplied a root directory that existed already as a
    directory, [Destroy] leaves the file system as it is, so that
    directory is preserved.  If [Init] created the root directory itself
    (a temporary one because the caller passed [None], or the supplied
    one because it did not exist) and the keep-location marker had no
    true value when [Init] was called, the root directory is not a
    directory after [Destroy], and when it was one before [Destroy]
    nothing remains below it. *)
Theorem Destroy_after_Init (h : Host) (tar_location : option string)
    (additional_components : driver.components)
    (root_directory : option string) (w w1 : World) :
  driver.Init h tar_location additional_components root_directory w
    = (w1, Ok tt) ->
  exists root w2,
    environ w1 !! constants.DRIVER_LOCATION_ENV = Some root
    /\ driver.Destroy h w1 = (w2, Ok tt)
    /\ environ w2 !! constants.DRIVER_LOCATION_ENV = None
    /\ environ w2 !! constants.DRIVER_KEEP_LOCATION_ENV = None
    /\ (forall r, root_directory = Some r -> root = r)
    /\ (forall r, root_directory = Some r -> os.isdir_in h w r = true ->
        files w2 = files w1)
    /\ (root_directory = None
        \/ (exists r, root_directory = Some r /\ os.isdir_in h w r = false) ->
        truthy (environ w !! constants.DRIVER_KEEP_LOCATION_ENV) = false ->
        os.isdir_in h w2 root = false
        /\ (os.isdir_in h w1 root = true ->
            forall suf, files w2 !! (os.locate h root ++ suf) = None)).
Proof.
  intros HInit.
  destruct (Init_ok_inv _ _ _ _ _ _ HInit) as (root & w0 & Hinst & Hroot).
  pose proof (install_into_environ _ _ _ _ _ _ _ Hinst) as Henv.
  simpl in Henv.
  assert (Hloc : environ w1 !! constants.DRIVER_LOCATION_ENV = Some root).
  { rewrite Henv. apply lookup_insert_eq. }
  destruct (Destroy_spec h w1 root Hloc) as (w2 & HD & HE & HF).
  exists root, w2. split; [done|]. split; [done|].
  split. { rewrite HE. rewrite lookup_delete_ne by done.
           apply lookup_delete_eq. }
  split. { rewrite HE. apply lookup_delete_eq. }
  split. { intros r ->. by destruct Hroot. }
  split.
  - intros r -> Hdir. destruct Hroot as [-> Hw0]. rewrite Hdir in Hw0.
    rewrite HF. rewrite Henv, Hw0. simpl.
    rewrite lookup_insert_ne by done. rewrite lookup_insert_eq. simpl.
    by rewrite andb_false_r.
  - intros Hcase Hkeep.
    assert (Hmk : os.makedirs h root w = (w0, Ok tt)).
    { destruct Hcase as [->|(r & -> & Hdir)]; [done|].
      destruct Hroot as [-> Hw0]. by rewrite Hdir in Hw0. }
    apply makedirs_ok_inv in Hmk as (Hw0 & Hne & Hnr & _).
    rewrite Henv, Hw0 in HF. rewrite lookup_insert_ne in HF by done.
    rewrite Hkeep in HF. simpl in HF. rewrite andb_true_r in HF.
    destruct (os.isdir_in h w1 root) eqn:Hd1.
    + split.
      * unfold os.isdir_in. rewrite HF, isdir_nonroot by done.
        rewrite rmtree_lookup, under_refl. apply andb_false_r.
      * intros _ suf. rewrite HF, rmtree_lookup.
        assert (fs.under (os.locate h root) (os.locate h root ++ suf) = true)
          as -> by (apply under_true; eauto).
        done.
    + split; [|done]. unfold os.isdir_in in *. by rewrite HF.
Qed.

(** The directory [/srv] does not exist; [Init] is asked to install
    into it, creates it and succeeds; the directory is there after
    [Init]; [Destroy] then removes it although the caller supplied it. *)
Lemma Destroy_removes_supplied_root :
  os.isdir_in examples.host examples.world "/srv" = false
  /\ driver.Init examples.host (Some "/sdk.tar") driver.NoComponents
       (Some "/srv") examples.world
     = (examples.installed_in_new_directory, Ok tt)
  /\ os.isdir_in examples.host examples.installed_in_new_directory "/srv"
     = true
  /\ (driver.Destroy examples.host examples.installed_in_new_directory).2
     = Ok tt
  /\ os.isdir_in examples.host
       (driver.Destroy examples.host examples.installed_in_new_directory).1
       "/srv" = false.
Proof. repeat split; vm_compute; reflexivity. Qed.

Lemma Destroy_after_Init_witness :
  driver.Init examples.host (Some "http://host/dl/sdk.tar")
    driver.NoComponents (Some "/work") examples.world
  = (examples.installed_in_existing_directory, Ok tt)
  /\ exists w2,
       driver.Destroy examples.host examples.installed_in_existing_directory
       = (w2, Ok tt)
       /\ files w2 = files examples.installed_in_existing_directory.
Proof.
  assert (H : driver.Init examples.host (Some "http://host/dl/sdk.tar")
                driver.NoComponents (Some "/work") examples.world
              = (examples.installed_in_existing_directory, Ok tt))
    by (vm_compute; reflexivity).
  split; [exact H|].
  destruct (Destroy_after_Init _ _ _ _ _ _ H)
    as (root & w2 & _ & HD & _ & _ & _ & Hkeep & _).
  exists w2. split; [exact HD|].
  apply (Hkeep "/work"); [reflexivity | vm_compute; reflexivity].
Defined.

Lemma Init_twice_fails_witness :
  is_Some (environ examples.installed_in_existing_directory
             !! constants.DRIVER_LOCATION_ENV)
  /\ exists msg,
       driver.Init examples.host None driver.NoComponents None
         examples.installed_in_existing_directory
       = (examples.installed_in_existing_directory, Raise (InitError msg)).
Proof.
  assert (H : is_Some (environ examples.installed_in_existing_directory
                         !! constants.DRIVER_LOCATION_ENV))
    by (vm_compute; eauto).
  split; [exact H|].
  destruct (Init_twice_fails examples.host None driver.NoComponents None _ H)
    as (msg & Hmsg & _).
  exists msg. exact Hmsg.
Defined.

Lemma Init_failure_leaves_keep_marker_witness :
  (driver._IsOnWindows examples.host = false
   /\ environ examples.world !! constants.DRIVER_LOCATION_ENV = None
   /\ os.isdir_in examples.host examples.world "/work" = true)
  /\ forall w' e,
       driver.Init examples.host (Some "/missing.tar") driver.NoComponents
         (Some "/work") examples.world = (w', Raise e) ->
       environ w' !! constants.DRIVER_KEEP_LOCATION_ENV = Some "True"
       /\ environ w' !! constants.DRIVER_LOCATION_ENV = None.
Proof.
  split; [repeat split; vm_compute; reflexivity|].
  apply (Init_failure_leaves_keep_marker examples.host (Some "/missing.tar")
           driver.NoComponents "/work" examples.world);
    vm_compute; reflexivity.
Defined.

Lemma PrepareEnviron_PATH_witness :
  (environ examples.world !! "PATH" = Some "/usr/bin"
   /\ truthy (sys_executable examples.host) = true)
  /\ exists env,
       _config.PrepareEnviron examples.host (environ examples.world)
         {[ "PATH" := "/usr/bin:/opt/bin" ]} "configxxxxxxxx"
         "/work/google-cloud-sdk" = Ok env
       /\ env !! "PATH"
          = Some "/work/google-cloud-sdk/bin:/usr/bin:/opt/bin".
Proof.
  split; [split; reflexivity|].
  destruct (PrepareEnviron_PATH examples.host (environ examples.world)
              {[ "PATH" := "/usr/bin:/opt/bin" ]} "configxxxxxxxx"
              "/work/google-cloud-sdk" "/usr/bin")
    as (env & path & Henv & Hpath & _ & _ & Hdup & _);
    [reflexivity | left; reflexivity |].
  exists env. split; [exact Henv|]. rewrite Hpath. f_equal.
  apply (Hdup "/usr/bin:/opt/bin"); [reflexivity|].
  by exists "", ":/opt/bin".
Defined.

Lemma RunGcloud_empty_or_undecodable_witness :
  driver.RunGcloudRawOutput examples.host examples.sdk
    (driver.CmdList ["config"; "list"])
    (Some (driver.json_format None)) None None None examples.world
  = (examples.world, Ok ("", "", 0%Z))
  /\ driver.RunGcloud examples.host examples.sdk
       (driver.CmdList ["config"; "list"]) None None None None examples.world
     = (examples.world, Ok (JNull, "", 0%Z)).
Proof.
  assert (H : driver.RunGcloudRawOutput examples.host examples.sdk
                (driver.CmdList ["config"; "list"])
                (Some (driver.json_format None)) None None None examples.world
              = (examples.world, Ok ("", "", 0%Z)))
    by (vm_compute; reflexivity).
  split; [exact H|].
  apply (RunGcloud_empty_or_undecodable _ _ _ _ _ _ _ _ _ _ _ _ H).
  reflexivity.
Defined.

(** ** DownloadTar *)

Lemma mkdirs_from_lookup (base rest : list string)
    (m m' : gmap (list string) fs.node) :
  fs.mkdirs_from base rest m = Ok m' -> rest <> [] ->
  m' !! (base ++ rest) = Some fs.Dir.
Proof.
  revert base m. induction rest as [|c rest IH]; intros base m H Hne; [done|].
  simpl in H. replace (base ++ c :: rest) with ((base ++ [c]) ++ rest)
    by (by rewrite <- app_assoc).
  destruct rest as [|c' rest].
  - rewrite app_nil_r. simpl in H.
    destruct (m !! (base ++ [c])) as [[|]|] eqn:E; [done| |].
    + by injection H as <-.
    + injection H as <-. apply lookup_insert_eq.
  - destruct (m !! (base ++ [c])) as [[|]|] eqn:E; [done| |];
      by apply IH in H.
Qed.

Lemma makedirs_exists (h : Host) (p : string) (w w' : World) :
  os.makedirs h p w = (w', Ok tt) -> os.exists_in h w' p = true.
Proof.
  intros H. pose proof (makedirs_ok_inv _ _ _ _ H) as (_ & Hne & Hnr & _).
  unfold os.makedirs, os.checked in H.
  apply String.eqb_neq in Hne. rewrite Hne in H.
  unfold fs_update in H.
  destruct (fs.makedirs (files w) (os.locate h p)) as [m|] eqn:E; [|done].
  injection H as <-. unfold os.exists_in. rewrite Hne. simpl.
  unfold fs.makedirs in E.
  destruct (fs.exists_ (files w) (os.locate h p)); [done|].
  apply mkdirs_from_lookup in E; [|done]. simpl in E.
  unfold fs.exists_. rewrite isdir_nonroot by done. rewrite E.
  apply orb_true_r.
Qed.

Lemma write_ok_inv (h : Host) (p body : string) (w w' : World) :
  os.write h p body w = (w', Ok tt) ->
  p <> "" /\ fs.isdir (files w) (os.locate h p) = false
  /\ w' = set_files (<[os.locate h p := fs.File body]> (files w)) w.
Proof.
  unfold os.write. destruct (String.eqb_spec p "") as [->|Hne]; [done|].
  unfold fs_update, fs.write_file.
  destruct (fs.isdir (files w) (os.locate h p)); [done|].
  destruct (fs.isdir (files w) (removelast (os.locate h p))); [|done].
  by intros [= <-].
Qed.

(** Writing a regular file keeps every entry that exists in existence. *)
Lemma exists_insert_file (m : gmap (list string) fs.node)
    (k q : list string) (body : string) :
  fs.isdir m k = false -> fs.exists_ m q = true ->
  fs.exists_ (<[k := fs.File body]> m) q = true.
Proof.
  intros Hk Hq. destruct q as [|c q]; [apply exists_root|].
  unfold fs.exists_, fs.isfile, fs.isdir in *.
  destruct (decide (k = c :: q)) as [->|Hne].
  - by rewrite lookup_insert_eq.
  - by rewrite lookup_insert_ne.
Qed.

Lemma mkdirs_from_isfile (base rest : list string)
    (m m' : gmap (list string) fs.node) (k : list string) :
  fs.mkdirs_from base rest m = Ok m' -> fs.isfile m' k = fs.isfile m k.
Proof.
  revert base m. induction rest as [|c rest IH]; intros base m H; simpl in H.
  - by injection H as <-.
  - destruct (m !! (base ++ [c])) as [[|]|] eqn:E; [done|by eapply IH|].
    rewrite (IH _ _ H). unfold fs.isfile.
    destruct (decide (base ++ [c] = k)) as [<-|Hne].
    + by rewrite lookup_insert_eq, E.
    + by rewrite lookup_insert_ne.
Qed.

Lemma makedirs_isfile (h : Host) (p q : string) (w w' : World) :
  os.makedirs h p w = (w', Ok tt) ->
  os.isfile_in h w' q = os.isfile_in h w q /\ fetched w' = fetched w.
Proof.
  unfold os.makedirs, os.checked. destruct (String.eqb p ""); [done|].
  unfold fs_update, fs.makedirs.
  destruct (fs.exists_ (files w) (os.locate h p)); [done|].
  destruct (fs.mkdirs_from _ _ _) as [m|] eqn:E; [|done].
  intros [= <-]. split; [|done]. unfold os.isfile_in. simpl.
  by rewrite (mkdirs_from_isfile _ _ _ _ _ E).
Qed.

(** C6.  For a location with a URL scheme: if the download subdirectory
    exists and holds a regular file named after the last segment of the
    URL's path, [DownloadTar] returns the path of that file and changes
    nothing, so no fetch is issued.  Hence, when a first call of
    [DownloadTar] returns, a second call with the same arguments returns
    the same path without changing anything, and the two calls together
    have issued exactly one fetch, that of the location, if the file was
    not there at the start (and none if it was). *)
Theorem DownloadTar_fetches_once (h : Host)
    (tar_location download_directory : string) (w : World) :
  url_scheme h tar_location <> "" ->
  let directory :=
    posixpath.join download_directory constants.DOWNLOAD_FOLDER in
  let download_path :=
    posixpath.join directory
      (posixpath.basename (url_path h tar_location)) in
  (os.exists_in h w directory = true ->
   os.isfile_in h w download_path = true ->
   _sdk_tar.DownloadTar h tar_location download_directory w
   = (w, Ok download_path))
  /\ (forall w1 p1,
        _sdk_tar.DownloadTar h tar_location download_directory w
        = (w1, Ok p1) ->
        p1 = download_path
        /\ _sdk_tar.DownloadTar h tar_location download_directory w1
           = (w1, Ok download_path)
        /\ fetched w1 =
             if os.isfile_in h w download_path then fetched w
             else fetched w ++ [tar_location]).
Proof.
  intros Hscheme directory download_path.
  apply String.eqb_neq in Hscheme.
  assert (Hhit : forall w0, os.exists_in h w0 directory = true ->
            os.isfile_in h w0 download_path = true ->
            _sdk_tar.DownloadTar h tar_location download_directory w0
            = (w0, Ok download_path)).
  { intros w0 Hdir Hfile. unfold _sdk_tar.DownloadTar. rewrite Hscheme. simpl.
    fold directory. fold download_path.
    unfold bind, os.path_exists, os.path_isfile. rewrite Hdir. simpl.
    by rewrite Hfile. }
  split; [apply Hhit|]. intros w1 p1 H.
  unfold _sdk_tar.DownloadTar in H. rewrite Hscheme in H. simpl in H.
  fold directory in H. fold download_path in H.
  apply bind_inv in H as [(w' & ex & [= <- <-] & H)|(e & _ & [=])].
  apply bind_inv in H as [(wa & [] & Hmk & H)|(e & _ & [=])].
  assert (Ha : os.exists_in h wa directory = true
               /\ os.isfile_in h wa download_path
                  = os.isfile_in h w download_path
               /\ fetched wa = fetched w).
  { destruct (os.exists_in h w directory) eqn:Hex; simpl in Hmk.
    - injection Hmk as <-. done.
    - split; [by eapply makedirs_exists|]. by eapply makedirs_isfile. }
  destruct Ha as (Hdir & Hfile & Hfetched). clear Hmk.
  apply bind_inv in H as [(w' & isf & [= <- <-] & H)|(e & _ & [=])].
  apply bind_inv in H as [(wb & [] & Hdl & [= <- <-])|(e & _ & [=])].
  split; [done|]. rewrite <- Hfile.
  destruct (os.isfile_in h wa download_path) eqn:Hisf; simpl in Hdl.
  - injection Hdl as <-. split; [by apply Hhit|done].
  - unfold try_except in Hdl.
    destruct (bind (os.urllib2_urlopen h tar_location) _ wa)
      as [wc [[]|e]] eqn:Hbody.
    + injection Hdl as <-.
      apply bind_inv in Hbody as [(wd & req & Hopen & Hwrite)|(e & _ & [=])].
      apply write_ok_inv in Hwrite as (Hne & Hnd & ->).
      assert (wd = {| environ := environ wa; files := files wa;
                      fetched := fetched wa ++ [tar_location];
                      stderr := stderr wa |}) as ->.
      { unfold os.urllib2_urlopen in Hopen. by injection Hopen. }
      simpl in *. split; [|by rewrite Hfetched].
      apply Hhit.
      * unfold os.exists_in in *. simpl.
        apply andb_true_iff in Hdir as [-> Hdir]. simpl.
        by apply exists_insert_file.
      * unfold os.isfile_in. simpl. apply String.eqb_neq in Hne.
        rewrite Hne. simpl. unfold fs.isfile. by rewrite lookup_insert_eq.
    + exfalso. destruct e; try done;
        unfold error.RaiseTarError, raise in Hdl; done.
Qed.

(** ** Paths: joining a directory and an entry name *)

Lemma split_sep_nonempty (s : string) : posixpath.split_sep s <> [].
Proof.
  destruct s as [|c s]; simpl; [done|].
  destruct (Ascii.eqb c posixpath.sep); [done|].
  by destruct (posixpath.split_sep s).
Qed.

Lemma split_sep_app (a b : string) :
  posixpath.split_sep (a +:+ String "/" b)
  = posixpath.split_sep a ++ posixpath.split_sep b.
Proof.
  induction a as [|c a IH]; simpl in *; [done|].
  rewrite IH. destruct (Ascii.eqb c posixpath.sep); [done|].
  pose proof (split_sep_nonempty a).
  by destruct (posixpath.split_sep a).
Qed.

Lemma split_sep_trailing (a : string) :
  posixpath.split_sep (a +:+ "/") = posixpath.split_sep a ++ [""].
Proof.
  induction a as [|c a IH]; simpl in *; [done|].
  rewrite IH. destruct (Ascii.eqb c posixpath.sep); [done|].
  pose proof (split_sep_nonempty a).
  by destruct (posixpath.split_sep a).
Qed.

Lemma split_sep_no_sep (n : string) :
  posixpath.has_sep n = false -> posixpath.split_sep n = [n].
Proof.
  induction n as [|c n IH]; simpl; [done|].
  intros H. apply orb_false_iff in H as [-> H]. by rewrite IH.
Qed.

Lemma ends_with_sep_inv (a : string) :
  posixpath.ends_with_sep a = true -> exists a', a = a' +:+ "/".
Proof.
  induction a as [|c a IH]; [done|]. simpl.
  destruct a as [|d a].
  - intros H. apply Ascii.eqb_eq in H as ->. by exists "".
  - intros H. destruct (IH H) as [a' Ha']. exists (String c a').
    simpl. by rewrite <- Ha'.
Qed.

Lemma simple_name_inv (n : string) :
  posixpath.simple_name n = true ->
  n <> "" /\ n <> "." /\ n <> ".." /\ posixpath.has_sep n = false.
Proof.
  unfold posixpath.simple_name. intros H.
  apply andb_true_iff in H as [H H4]. apply andb_true_iff in H as [H H3].
  apply andb_true_iff in H as [H1 H2].
  apply negb_true_iff in H1, H2, H3, H4.
  apply String.eqb_neq in H1, H2, H3. done.
Qed.

Lemma step_simple (acc : list string) (n : string) :
  posixpath.simple_name n = true -> posixpath.step acc n = acc ++ [n].
Proof.
  intros H. apply simple_name_inv in H as (H1 & H2 & H3 & _).
  unfold posixpath.step. apply String.eqb_neq in H1, H2, H3.
  by rewrite H1, H2, H3.
Qed.

Lemma starts_with_sep_app (a b : string) :
  a <> "" ->
  posixpath.starts_with_sep (a +:+ b) = posixpath.starts_with_sep a.
Proof. by destruct a. Qed.

(** The entry [n] of the directory [a]. *)
Lemma resolve_join_name (cwd : list string) (a n : string) :
  posixpath.simple_name n = true ->
  posixpath.resolve cwd (posixpath.join a n) = posixpath.resolve cwd a ++ [n].
Proof.
  intros Hn. pose proof (simple_name_inv _ Hn) as (Hne & _ & _ & Hsep).
  assert (Hstart : posixpath.starts_with_sep n = false).
  { destruct n as [|c n]; [done|]. simpl in *.
    by apply orb_false_iff in Hsep as [-> _]. }
  unfold posixpath.join. rewrite Hstart.
  destruct (String.eqb_spec a "") as [->|Ha]; simpl.
  - unfold posixpath.resolve. rewrite Hstart. simpl.
    rewrite split_sep_no_sep by done. simpl. by apply step_simple.
  - unfold posixpath.resolve.
    destruct (posixpath.ends_with_sep a) eqn:E.
    + rewrite starts_with_sep_app by done.
      destruct (ends_with_sep_inv _ E) as [a' ->].
      rewrite string_app_assoc. simpl.
      rewrite split_sep_app, split_sep_trailing.
      rewrite !fold_left_app.
      rewrite split_sep_no_sep by done. simpl.
      rewrite step_simple by done. done.
    + rewrite starts_with_sep_app by done.
      rewrite split_sep_app, fold_left_app.
      rewrite split_sep_no_sep by done. simpl.
      by apply step_simple.
Qed.

(** ** The file system: listing and moving *)

Lemma entry_name_Some (d k : list string) (n : string) :
  fs.entry_name d k = Some n <-> k = d ++ [n].
Proof.
  unfold fs.entry_name. destruct (fs.after_prefix d k) as [suf|] eqn:E.
  - apply after_prefix_Some in E as ->.
    destruct suf as [|a [|b suf]].
    + split; [done|]. intros H. apply (f_equal length) in H.
      rewrite app_nil_r, length_app in H. simpl in H. lia.
    + split; [by intros [= ->] | by intros [= ->]%app_inv_head].
    + split; [done | by intros [=]%app_inv_head].
  - split; [done|]. intros ->. by rewrite after_prefix_app in E.
Qed.

Lemma listdir_elem (m : gmap (list string) fs.node) (d : list string)
    (names : list string) (n : string) :
  fs.listdir m d = Ok names ->
  n ∈ names <-> is_Some (m !! (d ++ [n])).
Proof.
  unfold fs.listdir. destruct (fs.isdir m d); [|done]. intros [= <-].
  rewrite list_elem_of_omap. split.
  - intros (k & Hk & Hn). apply entry_name_Some in Hn as ->.
    apply list_elem_of_fmap in Hk as ([k v] & -> & Hkv).
    apply elem_of_map_to_list in Hkv. eauto.
  - intros [v Hv]. exists (d ++ [n]). split; [|by apply entry_name_Some].
    apply list_elem_of_fmap. exists (d ++ [n], v). split; [done|].
    by apply elem_of_map_to_list.
Qed.

Lemma NoDup_omap_inj {A B} (f : A -> option B) (l : list A) :
  (forall x y z, f x = Some z -> f y = Some z -> x = y) ->
  NoDup l -> NoDup (omap f l).
Proof.
  intros Hinj. induction 1 as [|x l Hx Hl IH]; simpl; [constructor|].
  destruct (f x) as [z|] eqn:E; [|done]. constructor; [|done].
  rewrite list_elem_of_omap. intros (y & Hy & Hz).
  by rewrite (Hinj _ _ _ E Hz) in Hx.
Qed.

Lemma listdir_NoDup (m : gmap (list string) fs.node) (d : list string)
    (names : list string) :
  fs.listdir m d = Ok names -> NoDup names.
Proof.
  unfold fs.listdir. destruct (fs.isdir m d); [|done]. intros [= <-].
  apply NoDup_omap_inj; [|apply NoDup_fst_map_to_list].
  intros x y z Hx Hy. apply entry_name_Some in Hx, Hy. congruence.
Qed.

Lemma subtree_lookup (src suf : list string)
    (m : gmap (list string) fs.node) :
  fs.subtree src m !! suf = m !! (src ++ suf).
Proof.
  unfold fs.subtree.
  destruct (m !! (src ++ suf)) as [v|] eqn:E.
  - apply elem_of_list_to_map_1'.
    + intros y Hy. apply list_elem_of_omap in Hy as ([k v'] & Hk & Hf).
      simpl in Hf. destruct (fs.after_prefix src k) as [s|] eqn:Ek; [|done].
      injection Hf as -> ->. apply after_prefix_Some in Ek as ->.
      apply elem_of_map_to_list in Hk. congruence.
    + apply list_elem_of_omap. exists (src ++ suf, v). split.
      * by apply elem_of_map_to_list.
      * simpl. by rewrite after_prefix_app.
  - apply not_elem_of_list_to_map_1. intros Hin.
    apply list_elem_of_fmap in Hin as ([s v] & -> & Hv). simpl in E.
    apply list_elem_of_omap in Hv as ([k v'] & Hk & Hf). simpl in Hf.
    destruct (fs.after_prefix src k) as [s'|] eqn:Ek; [|done].
    injection Hf as -> ->. apply after_prefix_Some in Ek as ->.
    apply elem_of_map_to_list in Hk. congruence.
Qed.

(** What a successful rename leaves: below the target, what was below
    the source; nothing below the source; everything else as it was. *)
Lemma rename_lookup (m m' : gmap (list string) fs.node)
    (src dst k : list string) :
  fs.rename m src dst = Ok m' ->
  m' !! k = match fs.after_prefix dst k with
            | Some suf => m !! (src ++ suf)
            | None => if fs.under src k then None else m !! k
            end.
Proof.
  unfold fs.rename.
  destruct (_ || _); [done|]. destruct (fs.exists_ m dst); [done|].
  destruct (fs.under src dst); [done|].
  destruct (negb _); [done|]. intros [= <-].
  rewrite lookup_union.
  destruct (fs.after_prefix dst k) as [suf|] eqn:E.
  - apply after_prefix_Some in E as ->.
    rewrite (lookup_kmap (app dst)), subtree_lookup.
    rewrite (proj2 (map_lookup_filter_None _ _ _)).
    + by destruct (m !! (src ++ suf)).
    + right. intros x _. simpl.
      assert (fs.under dst (dst ++ suf) = true) as ->
        by (apply under_true; eauto).
      by rewrite orb_true_r.
  - rewrite (proj2 (lookup_kmap_None (app dst) _ _)).
    2:{ intros i ->. by rewrite after_prefix_app in E. }
    assert (fs.under dst k = false) as Hd by (unfold fs.under; by rewrite E).
    destruct (fs.under src k) eqn:Hs.
    + rewrite (proj2 (map_lookup_filter_None _ _ _)); [done|].
      right. intros x _. simpl. by rewrite Hs.
    + destruct (m !! k) as [x|] eqn:Ek.
      * rewrite (proj2 (map_lookup_filter_Some _ _ _ x)); [done|].
        split; [done|]. simpl. by rewrite Hs, Hd.
      * rewrite (proj2 (map_lookup_filter_None _ _ _)); [done|]. by left.
Qed.

(** ** Moving the entries of the staging directory up *)

Lemma exists_lookup (m m' : gmap (list string) fs.node) (k : list string) :
  k <> [] -> m' !! k = m !! k -> fs.exists_ m' k = fs.exists_ m k.
Proof.
  intros Hk H. unfold fs.exists_, fs.isfile. rewrite !isdir_nonroot by done.
  by rewrite H.
Qed.

Lemma exists_is_Some (m : gmap (list string) fs.node) (k : list string) :
  is_Some (m !! k) -> fs.exists_ m k = true.
Proof.
  intros [x Hx]. destruct k as [|c k]; [apply exists_root|].
  unfold fs.exists_, fs.isfile, fs.isdir. rewrite Hx. by destruct x.
Qed.

Lemma after_prefix_cons_ne (p suf suf' : list string) (a b : string) :
  a <> b -> fs.after_prefix (p ++ a :: suf) (p ++ b :: suf') = None.
Proof.
  intros Hne. destruct (fs.after_prefix _ _) as [s|] eqn:E; [|done].
  apply after_prefix_Some in E. rewrite <- app_assoc in E.
  apply app_inv_head in E. simpl in E. by injection E.
Qed.

Lemma after_prefix_longer (p k : list string) :
  length k < length p -> fs.after_prefix p k = None.
Proof.
  intros Hlen. destruct (fs.after_prefix p k) as [s|] eqn:E; [|done].
  apply after_prefix_Some in E. subst k. rewrite length_app in Hlen. lia.
Qed.

Lemma under_false (p k : list string) :
  fs.after_prefix p k = None -> fs.under p k = false.
Proof. unfold fs.under. by intros ->. Qed.

Lemma after_prefix_not_under (root k : list string) (a : string)
    (suf : list string) :
  fs.after_prefix root k = None ->
  fs.after_prefix (root ++ a :: suf) k = None.
Proof.
  intros H. destruct (fs.after_prefix (root ++ _) k) as [s|] eqn:E; [|done].
  apply after_prefix_Some in E. subst k.
  by rewrite <- app_assoc, after_prefix_app in H.
Qed.

(** One move: the entry [n] of [root/repo] goes to [root]. *)
Lemma move_one (m : gmap (list string) fs.node) (root : list string)
    (n : string) :
  fs.isdir m root = true ->
  fs.exists_ m (root ++ [n]) = false ->
  is_Some (m !! (root ++ [constants.REPO_FOLDER; n])) ->
  n <> constants.REPO_FOLDER ->
  exists m',
    fs.move m (root ++ [constants.REPO_FOLDER; n]) root = Ok m'
    /\ forall k, m' !! k = layout.moved_up m root [n] k.
Proof.
  intros Hroot Hdst Hsrc Hn. unfold fs.move. rewrite Hroot.
  replace (root ++ [constants.REPO_FOLDER; n])
    with ((root ++ [constants.REPO_FOLDER]) ++ [n])
    by (by rewrite <- app_assoc).
  rewrite last_snoc. cbv zeta. rewrite Hdst.
  destruct (fs.rename m _ _) as [m'|e] eqn:E.
  2:{ exfalso. unfold fs.rename in E.
      rewrite <- app_assoc in E. simpl in E.
      rewrite (exists_is_Some _ _ Hsrc) in E. simpl in E.
      destruct (root ++ [constants.REPO_FOLDER; n]) eqn:El;
        [by destruct root|]. rewrite <- El in E. clear El.
      rewrite Hdst in E.
      rewrite (under_false _ _ (after_prefix_cons_ne root _ [] _ n
                 (not_eq_sym Hn))) in E.
      rewrite removelast_last, Hroot in E. done. }
  exists m'. split; [done|]. intros k.
  rewrite (rename_lookup _ _ _ _ k E). unfold layout.moved_up, layout.goes.
  destruct (fs.after_prefix root k) as [[|n0 suf]|] eqn:Ek.
  - apply after_prefix_Some in Ek. rewrite app_nil_r in Ek. subst k.
    rewrite after_prefix_longer by (rewrite length_app; simpl; lia).
    rewrite under_false;
      [done|apply after_prefix_longer; rewrite !length_app; simpl; lia].
  - apply after_prefix_Some in Ek. subst k.
    destruct (decide (n0 = n)) as [->|Hne].
    + rewrite bool_decide_true by (by apply list_elem_of_singleton). rewrite Hdst. simpl.
      replace (root ++ n :: suf) with ((root ++ [n]) ++ suf)
        by (by rewrite <- app_assoc).
      rewrite after_prefix_app. by rewrite <- !app_assoc.
    + rewrite bool_decide_false by (by rewrite list_elem_of_singleton). simpl.
      rewrite after_prefix_cons_ne by done.
      destruct suf as [|n' suf'].
      * rewrite under_false;
          [done|apply after_prefix_longer; rewrite !length_app; simpl; lia].
      * destruct (String.eqb_spec n0 constants.REPO_FOLDER) as [->|Hr]; simpl.
        -- destruct (decide (n' = n)) as [->|Hne'].
           ++ rewrite bool_decide_true by (by apply list_elem_of_singleton). rewrite Hdst. simpl.
              assert (fs.under ((root ++ [constants.REPO_FOLDER]) ++ [n])
                        (root ++ constants.REPO_FOLDER :: n :: suf') = true)
                as ->; [|done].
              apply under_true. exists suf'. by rewrite <- !app_assoc.
           ++ rewrite bool_decide_false by (by rewrite list_elem_of_singleton). simpl.
              rewrite under_false; [done|].
              rewrite <- app_assoc. simpl.
              replace (root ++ constants.REPO_FOLDER :: n' :: suf')
                with ((root ++ [constants.REPO_FOLDER]) ++ n' :: suf')
                by (by rewrite <- app_assoc).
              replace (root ++ [constants.REPO_FOLDER; n])
                with ((root ++ [constants.REPO_FOLDER]) ++ [n])
                by (by rewrite <- app_assoc).
              by apply after_prefix_cons_ne.
        -- rewrite under_false; [done|].
           rewrite <- app_assoc. simpl. by apply after_prefix_cons_ne.
  - rewrite after_prefix_not_under by done.
    rewrite under_false; [done|].
    rewrite <- app_assoc. by apply after_prefix_not_under.
Qed.

Lemma goes_cons (m : gmap (list string) fs.node) (root : list string)
    (n : string) (l : list string) (n0 : string) :
  layout.goes m root (n :: l) n0
  = (bool_decide (n0 = n) && negb (fs.exists_ m (root ++ [n0])))
    || layout.goes m root l n0.
Proof.
  unfold layout.goes.
  destruct (decide (n0 = n)) as [->|Hne].
  - rewrite !bool_decide_true by (done || by left).
    by destruct (negb _), (bool_decide _).
  - rewrite (bool_decide_false (n0 = n)) by done. simpl.
    destruct (decide (n0 ∈ l)) as [Hin|Hnin].
    + by rewrite !bool_decide_true by (done || by right).
    + rewrite !bool_decide_false; [done|done|].
      rewrite elem_of_cons. by intros [?|?].
Qed.

Lemma goes_nil (m : gmap (list string) fs.node) (root : list string)
    (n0 : string) :
  layout.goes m root [] n0 = false.
Proof.
  unfold layout.goes. rewrite bool_decide_false; [done|]. apply not_elem_of_nil.
Qed.

(** An entry that has a namesake in [root] stays where it is. *)
Lemma moved_up_cons_skip (m : gmap (list string) fs.node)
    (root : list string) (n : string) (l : list string) (k : list string) :
  fs.exists_ m (root ++ [n]) = true ->
  layout.moved_up m root (n :: l) k = layout.moved_up m root l k.
Proof.
  intros Hex.
  assert (Hg : forall n0, layout.goes m root (n :: l) n0
                          = layout.goes m root l n0).
  { intros n0. rewrite goes_cons.
    destruct (decide (n0 = n)) as [->|Hne].
    - by rewrite Hex, andb_false_r.
    - by rewrite bool_decide_false. }
  unfold layout.moved_up.
  destruct (fs.after_prefix root k) as [[|n0 [|n' suf]]|]; try done.
  - by rewrite Hg.
  - by rewrite !Hg.
Qed.

(** The moves of the entries [l] after the move of the entry [n]. *)
Lemma moved_up_cons_go (m m1 : gmap (list string) fs.node)
    (root : list string) (n : string) (l : list string) :
  fs.exists_ m (root ++ [n]) = false ->
  n <> constants.REPO_FOLDER ->
  n ∉ l ->
  (forall k, m1 !! k = layout.moved_up m root [n] k) ->
  forall k, layout.moved_up m1 root l k = layout.moved_up m root (n :: l) k.
Proof.
  intros Hdst Hn Hnl Hm1.
  assert (Hg1 : forall n0, layout.goes m root [n] n0 = bool_decide (n0 = n)).
  { intros n0. rewrite goes_cons, goes_nil, orb_false_r.
    destruct (decide (n0 = n)) as [->|Hne].
    - by rewrite bool_decide_true, Hdst.
    - by rewrite bool_decide_false. }
  assert (Hentry : forall n0, m1 !! (root ++ [n0])
                     = if bool_decide (n0 = n)
                       then m !! (root ++ [constants.REPO_FOLDER; n0])
                       else m !! (root ++ [n0])).
  { intros n0. rewrite Hm1. unfold layout.moved_up.
    rewrite after_prefix_app, Hg1. done. }
  assert (Hg2 : forall n0, layout.goes m1 root l n0 = layout.goes m root l n0).
  { intros n0. unfold layout.goes.
    destruct (decide (n0 ∈ l)) as [Hin|Hnin].
    - rewrite (exists_lookup m m1); [done|by destruct root|].
      rewrite Hentry. rewrite bool_decide_false; [done|].
      intros ->. done.
    - by rewrite !bool_decide_false. }
  assert (Hg3 : forall n0, layout.goes m root (n :: l) n0
                  = bool_decide (n0 = n) || layout.goes m root l n0).
  { intros n0. rewrite goes_cons.
    destruct (decide (n0 = n)) as [->|Hne].
    - by rewrite bool_decide_true, Hdst.
    - by rewrite bool_decide_false. }
  assert (Hgn : layout.goes m root l n = false).
  { unfold layout.goes. by rewrite bool_decide_false. }
  assert (Hrepo : bool_decide (constants.REPO_FOLDER = n) = false).
  { by rewrite bool_decide_false. }
  intros k. unfold layout.moved_up.
  destruct (fs.after_prefix root k) as [[|n0 suf]|] eqn:Ek.
  - rewrite Hm1. unfold layout.moved_up. by rewrite Ek.
  - rewrite Hg2, Hg3.
    destruct (decide (n0 = n)) as [->|Hne].
    + rewrite bool_decide_true by done. rewrite Hgn. simpl.
      assert (m1 !! k = m !! (root ++ constants.REPO_FOLDER :: n :: suf))
        as Hk.
      { rewrite Hm1. unfold layout.moved_up. rewrite Ek, Hg1.
        by rewrite bool_decide_true. }
      apply String.eqb_neq in Hn. rewrite Hn. simpl.
      by destruct suf.
    + rewrite (bool_decide_false (n0 = n)) by done. simpl.
      destruct (layout.goes m root l n0) eqn:Hg.
      * rewrite Hm1. unfold layout.moved_up.
        rewrite after_prefix_app, !Hg1, Hrepo.
        rewrite String.eqb_refl. by rewrite bool_decide_false.
      * assert (m1 !! k
                = match suf with
                  | n' :: _ =>
                      if String.eqb n0 constants.REPO_FOLDER
                         && bool_decide (n' = n)
                      then None else m !! k
                  | [] => m !! k
                  end) as Hk.
        { rewrite Hm1. unfold layout.moved_up. rewrite Ek, Hg1.
          rewrite bool_decide_false by done.
          destruct suf as [|n' suf']; [done|]. by rewrite Hg1. }
        destruct suf as [|n' suf']; [done|].
        rewrite Hg2, Hg3. rewrite Hk.
        destruct (String.eqb n0 constants.REPO_FOLDER); simpl; [|done].
        by destruct (bool_decide (n' = n)), (layout.goes m root l n').
  - rewrite Hm1. unfold layout.moved_up. by rewrite Ek.
Qed.

Lemma moved_up_nil (m : gmap (list string) fs.node) (root k : list string) :
  layout.moved_up m root [] k = m !! k.
Proof.
  unfold layout.moved_up.
  destruct (fs.after_prefix root k) as [[|n0 [|n' suf]]|]; try done;
    rewrite ?goes_nil; simpl; try done.
  by rewrite andb_false_r.
Qed.

Lemma join_nonempty (a b : string) : a <> "" -> posixpath.join a b <> "".
Proof.
  intros Ha. unfold posixpath.join.
  destruct (posixpath.starts_with_sep b) eqn:Eb; [by destruct b|].
  destruct (_ || _); by destruct a.
Qed.

Lemma set_files_files (w : World) : set_files (files w) w = w.
Proof. by destruct w. Qed.

(** One iteration of the loop of [UnpackTar] that moves the entries of
    the staging directory up. *)
Lemma move_up_step (h : Host) (root_directory n : string) (w : World) :
  root_directory <> "" ->
  posixpath.simple_name n = true ->
  (ex ← os.path_exists h (posixpath.join root_directory n);
   when_ (negb ex)
     (os.move h
        (posixpath.join
           (posixpath.join root_directory constants.REPO_FOLDER) n)
        root_directory)) w
  = if fs.exists_ (files w) (os.locate h root_directory ++ [n])
    then (w, Ok tt)
    else match fs.move (files w)
                 (os.locate h root_directory ++ [constants.REPO_FOLDER; n])
                 (os.locate h root_directory) with
         | Ok m => (set_files m w, Ok tt)
         | Raise e => (w, Raise e)
         end.
Proof.
  intros Hroot Hsimple.
  assert (Hloc : os.locate h (posixpath.join root_directory n)
                 = os.locate h root_directory ++ [n])
    by (by apply resolve_join_name).
  assert (Hlocsrc :
    os.locate h (posixpath.join
                   (posixpath.join root_directory constants.REPO_FOLDER) n)
    = os.locate h root_directory ++ [constants.REPO_FOLDER; n]).
  { unfold os.locate. rewrite !resolve_join_name by done.
    by rewrite <- app_assoc. }
  unfold bind, os.path_exists, os.exists_in.
  pose proof (join_nonempty root_directory n Hroot) as Hj.
  apply String.eqb_neq in Hj. rewrite Hj, Hloc. simpl.
  destruct (fs.exists_ (files w) (os.locate h root_directory ++ [n]));
    [done|]. simpl.
  unfold os.move, os.checked.
  pose proof (join_nonempty (posixpath.join root_directory
                               constants.REPO_FOLDER) n
                (join_nonempty _ _ Hroot)) as Hj2.
  apply String.eqb_neq in Hj2. rewrite Hj2.
  apply String.eqb_neq in Hroot. rewrite Hroot.
  unfold fs_update. by rewrite Hlocsrc.
Qed.

(** The loop of [UnpackTar] that moves the entries of the staging
    directory up, run on the names [names] of entries of that
    directory. *)
Lemma move_loop (h : Host) (root_directory : string) (names : list string)
    (w : World) :
  root_directory <> "" ->
  fs.isdir (files w) (os.locate h root_directory) = true ->
  NoDup names ->
  (forall n, n ∈ names ->
     posixpath.simple_name n = true
     /\ is_Some (files w !! (os.locate h root_directory
                              ++ [constants.REPO_FOLDER; n]))) ->
  is_Some (files w !! (os.locate h root_directory
                        ++ [constants.REPO_FOLDER])) ->
  exists m',
    for_ names (fun filename =>
      ex ← os.path_exists h (posixpath.join root_directory filename);
      when_ (negb ex)
        (os.move h
           (posixpath.join
              (posixpath.join root_directory constants.REPO_FOLDER) filename)
           root_directory)) w
    = (set_files m' w, Ok tt)
    /\ forall k, m' !! k
         = layout.moved_up (files w) (os.locate h root_directory) names k.
Proof.
  intros Hroot. revert w.
  induction names as [|n l IH]; intros w Hdir Hnd Hnames Hrepo.
  - exists (files w). split.
    + simpl. by rewrite set_files_files.
    + intros k. by rewrite moved_up_nil.
  - apply NoDup_cons in Hnd as [Hnl Hnd].
    destruct (Hnames n) as [Hsimple Hsrc]; [by left|].
    cbn [for_]. unfold bind at 1.
    rewrite (move_up_step h root_directory n w Hroot Hsimple).
    destruct (fs.exists_ (files w) (os.locate h root_directory ++ [n]))
      eqn:Hex.
    + destruct (IH w Hdir Hnd) as (m' & Hfor & Hm'); [|done|].
      { intros n' Hn'. apply Hnames. by right. }
      exists m'. split; [done|]. intros k.
      by rewrite moved_up_cons_skip.
    + assert (Hn : n <> constants.REPO_FOLDER).
      { intros ->. by rewrite (exists_is_Some _ _ Hrepo) in Hex. }
      destruct (move_one (files w) _ n Hdir Hex Hsrc Hn) as (m1 & Hmv & Hm1).
      rewrite Hmv.
      destruct (IH (set_files m1 w)) as (m' & Hfor & Hm'); simpl.
      * destruct (os.locate h root_directory) eqn:ER; [done|].
        rewrite <- ER in *. rewrite isdir_nonroot in * by (by rewrite ER).
        rewrite Hm1. unfold layout.moved_up.
        replace (fs.after_prefix (os.locate h root_directory)
                   (os.locate h root_directory)) with (Some (@nil string));
          [done|].
        symmetry. apply after_prefix_Some. by rewrite app_nil_r.
      * done.
      * intros n' Hn'. destruct (Hnames n') as [Hs' Hsrc']; [by right|].
        split; [done|]. rewrite Hm1. unfold layout.moved_up.
        rewrite after_prefix_app. unfold layout.goes at 1.
        rewrite bool_decide_false
          by (rewrite list_elem_of_singleton; congruence).
        simpl. unfold layout.goes.
        rewrite bool_decide_false; [done|].
        rewrite list_elem_of_singleton. intros ->. done.
      * rewrite Hm1. unfold layout.moved_up.
        rewrite after_prefix_app. unfold layout.goes.
        rewrite bool_decide_false
          by (rewrite list_elem_of_singleton; congruence).
        done.
      * exists m'. split; [exact Hfor|]. intros k.
        rewrite Hm'. simpl. by apply moved_up_cons_go.
Qed.

(** ** UnpackTar on an installer-only archive *)

Lemma wf_entry (m : gmap (list string) fs.node) (p : list string)
    (n : string) :
  fs.wf m = true -> is_Some (m !! (p ++ [n])) ->
  posixpath.simple_name n = true /\ fs.isdir m p = true.
Proof.
  unfold fs.wf. rewrite forallb_forall. intros Hwf [x Hx].
  specialize (Hwf (p ++ [n])).
  rewrite last_snoc, removelast_last in Hwf.
  apply andb_true_iff, Hwf, list_elem_of_In, list_elem_of_fmap.
  exists (p ++ [n], x). split; [done|]. by apply elem_of_map_to_list.
Qed.

(** X30.  The installer-only branch of [UnpackTar].  Let the archive
    be extracted into the staging directory [root/repo] (the first part
    of [UnpackTar] returns, in the state [w1]) with no components file
    among the extracted contents, the staging directory being a
    directory of a tree-shaped file system.  Then [UnpackTar] returns:
    what [urljoin] makes of [file://] and the path of the components
    file next to the original location, if that location has no URL
    scheme and the sibling is a regular file, and [None] otherwise.  In
    both cases every entry [n] that [os.listdir] reports
    in the staging directory and that has no namesake in the root
    directory is, with everything below it, in the root directory
    afterwards and no longer in the staging directory; an entry whose
    name is present in the root directory stays in the staging
    directory, and its namesake in the root directory is untouched. *)
Theorem UnpackTar_installer_only (h : Host)
    (download_path tar_location root_directory : string) (w w1 : World)
    (names : list string) :
  let repo_directory :=
    posixpath.join root_directory constants.REPO_FOLDER in
  let root := os.locate h root_directory in
  let repo := root ++ [constants.REPO_FOLDER] in
  let sibling :=
    posixpath.join (posixpath.dirname tar_location)
                   constants.COMPONENTS_FILE in
  root_directory <> "" ->
  _sdk_tar.stage_archive h download_path root_directory w = (w1, Ok tt) ->
  os.isfile_in h w1
    (posixpath.join repo_directory constants.COMPONENTS_FILE) = false ->
  fs.wf (files w1) = true ->
  fs.listdir (files w1) repo = Ok names ->
  exists m2,
    _sdk_tar.UnpackTar h download_path tar_location root_directory w
    = (set_files m2 w1,
       Ok (if String.eqb (url_scheme h tar_location) ""
              && os.isfile_in h w1 sibling
           then Some (urljoin h "file://" sibling)
           else None))
    /\ forall n, n ∈ names ->
         forall below,
           if fs.exists_ (files w1) (root ++ [n])
           then m2 !! (repo ++ n :: below)
                = files w1 !! (repo ++ n :: below)
                /\ (n <> constants.REPO_FOLDER ->
                    m2 !! (root ++ n :: below)
                    = files w1 !! (root ++ n :: below))
           else m2 !! (root ++ n :: below)
                = files w1 !! (repo ++ n :: below)
                /\ m2 !! (repo ++ n :: below) = None.
Proof.
  intros repo_directory root repo sibling Hroot Hstage Hshape Hwf Hls.
  assert (Hrepo_loc : os.locate h repo_directory = repo).
  { unfold repo_directory, os.locate. by rewrite resolve_join_name. }
  assert (Hrepo_dir : fs.isdir (files w1) repo = true).
  { unfold fs.listdir in Hls. by destruct (fs.isdir (files w1) repo). }
  assert (Hrepo_some : is_Some (files w1 !! repo)).
  { unfold repo in *. rewrite isdir_nonroot in Hrepo_dir by (by destruct root).
    destruct (files w1 !! _) as [[]|]; [done|eauto|done]. }
  destruct (wf_entry _ _ _ Hwf Hrepo_some) as [_ Hroot_dir].
  assert (Hnames : forall n, n ∈ names ->
            posixpath.simple_name n = true
            /\ is_Some (files w1 !! (root ++ [constants.REPO_FOLDER; n]))).
  { intros n Hn. apply (listdir_elem _ _ _ _ Hls) in Hn.
    unfold repo in Hn. rewrite <- app_assoc in Hn. split; [|done].
    replace (root ++ [constants.REPO_FOLDER] ++ [n])
      with ((root ++ [constants.REPO_FOLDER]) ++ [n]) in Hn
      by (by rewrite <- app_assoc).
    by destruct (wf_entry _ _ _ Hwf Hn). }
  destruct (move_loop h root_directory names w1 Hroot Hroot_dir
              (listdir_NoDup _ _ _ Hls) Hnames Hrepo_some)
    as (m2 & Hloop & Hm2).
  fold root in Hm2. exists m2. split.
  - unfold _sdk_tar.UnpackTar. unfold bind at 1. rewrite Hstage.
    fold repo_directory. unfold bind at 1. unfold os.path_isfile at 1.
    rewrite Hshape. fold sibling.
    unfold bind at 1.
    assert (Hsnap :
      (if String.eqb (url_scheme h tar_location) ""
       then isf ← os.path_isfile h sibling;
            (if isf then ret (Some (urljoin h "file://" sibling))
             else ret None)
       else ret None) w1
      = (w1, Ok (if String.eqb (url_scheme h tar_location) ""
                    && os.isfile_in h w1 sibling
                 then Some (urljoin h "file://" sibling)
                 else None))).
    { destruct (String.eqb (url_scheme h tar_location) ""); [|done].
      unfold bind, os.path_isfile. simpl.
      by destruct (os.isfile_in h w1 sibling). }
    rewrite Hsnap. unfold bind at 1. unfold try_except.
    unfold bind at 1. unfold os.listdir.
    pose proof (join_nonempty root_directory constants.REPO_FOLDER Hroot)
      as Hj. fold repo_directory in Hj.
    apply String.eqb_neq in Hj. rewrite Hj.
    unfold fs_read. rewrite Hrepo_loc, Hls.
    unfold repo_directory. rewrite Hloop. done.
  - intros n Hn below.
    assert (Hin : bool_decide (n ∈ names) = true) by by apply bool_decide_true.
    assert (Hrepo_ex : fs.exists_ (files w1) (root ++ [constants.REPO_FOLDER])
                       = true) by by apply exists_is_Some.
    assert (Hng : layout.goes (files w1) root names constants.REPO_FOLDER
                  = false).
    { unfold layout.goes. by rewrite Hrepo_ex, andb_false_r. }
    destruct (fs.exists_ (files w1) (root ++ [n])) eqn:Hex.
    + assert (Hg : layout.goes (files w1) root names n = false).
      { unfold layout.goes. by rewrite Hex, andb_false_r. }
      split.
      * rewrite Hm2. unfold layout.moved_up, repo.
        rewrite <- app_assoc. simpl. rewrite after_prefix_app.
        by rewrite Hng, Hg, andb_false_r.
      * intros Hne. rewrite Hm2. unfold layout.moved_up.
        rewrite after_prefix_app, Hg.
        apply String.eqb_neq in Hne. rewrite Hne.
        by destruct below.
    + assert (Hg : layout.goes (files w1) root names n = true).
      { unfold layout.goes. by rewrite Hin, Hex. }
      split.
      * rewrite Hm2. unfold layout.moved_up, repo.
        rewrite after_prefix_app, Hg. by rewrite <- app_assoc.
      * rewrite Hm2. unfold layout.moved_up, repo.
        rewrite <- app_assoc. simpl. rewrite after_prefix_app.
        by rewrite Hng, Hg, String.eqb_refl.
Qed.

Lemma UnpackTar_installer_only_witness :
  ("/work" <> ""
   /\ _sdk_tar.stage_archive examples.host "/sdk.tar" "/work" examples.world
      = (examples.staged, Ok tt)
   /\ os.isfile_in examples.host examples.staged
        (posixpath.join (posixpath.join "/work" constants.REPO_FOLDER)
                        constants.COMPONENTS_FILE) = false
   /\ fs.wf (files examples.staged) = true
   /\ fs.listdir (files examples.staged)
        (os.locate examples.host "/work" ++ [constants.REPO_FOLDER])
      = Ok ["google-cloud-sdk"])
  /\ exists m2,
       _sdk_tar.UnpackTar examples.host "/sdk.tar" "/sdk.tar" "/work"
         examples.world
       = (set_files m2 examples.staged,
          Ok (Some "file:///components-2.json"))
       /\ m2 !! ["work"; "google-cloud-sdk"; "install.sh"]
          = Some (fs.File "#!/bin/sh")
       /\ m2 !! ["work"; "repo"; "google-cloud-sdk"; "install.sh"] = None.
Proof.
  assert (H1 : "/work" <> "") by done.
  assert (H2 : _sdk_tar.stage_archive examples.host "/sdk.tar" "/work"
                 examples.world = (examples.staged, Ok tt))
    by (vm_compute; reflexivity).
  assert (H3 : os.isfile_in examples.host examples.staged
                 (posixpath.join (posixpath.join "/work" constants.REPO_FOLDER)
                                 constants.COMPONENTS_FILE) = false)
    by (vm_compute; reflexivity).
  assert (H4 : fs.wf (files examples.staged) = true)
    by (vm_compute; reflexivity).
  assert (H5 : fs.listdir (files examples.staged)
                 (os.locate examples.host "/work" ++ [constants.REPO_FOLDER])
               = Ok ["google-cloud-sdk"]) by (vm_compute; reflexivity).
  split; [repeat split; assumption|].
  destruct (UnpackTar_installer_only examples.host "/sdk.tar" "/sdk.tar"
              "/work" examples.world examples.staged ["google-cloud-sdk"]
              H1 H2 H3 H4 H5) as (m2 & HU & Hmoved).
  exists m2. split.
  { rewrite HU. do 2 f_equal. }
  pose proof (Hmoved "google-cloud-sdk" ltac:(by left) ["install.sh"]) as Hm.
  assert (Hex : fs.exists_ (files examples.staged)
                  (os.locate examples.host "/work" ++ ["google-cloud-sdk"])
                = false) by (vm_compute; reflexivity).
  rewrite Hex in Hm. destruct Hm as [Hup Hgone].
  assert (HR : os.locate examples.host "/work" = ["work"])
    by (vm_compute; reflexivity).
  rewrite HR in Hup, Hgone. cbn [app] in Hup, Hgone.
  split; [|exact Hgone].
  rewrite Hup. vm_compute. reflexivity.
Defined.

(** C3.  An installer-only archive at a relative location.  The
    working directory is [/work]; in it are the archive [sdk.tar],
    whose contents do not include the components file, and the
    components file beside it.  [UnpackTar] finds the sibling, and what
    it returns is [urljoin('file://', 'components-2.json')], that is
    [file:///components-2.json]: the URL of a file in the root
    directory of the file system, where there is none, and not of the
    sibling [/work/components-2.json]. *)
Theorem UnpackTar_relative_location :
  let sibling :=
    posixpath.join (posixpath.dirname "sdk.tar") constants.COMPONENTS_FILE in
  let after :=
    _sdk_tar.UnpackTar samples.relative_host "sdk.tar" "sdk.tar" "/work/out"
      samples.relative_world in
  url_scheme samples.relative_host "sdk.tar" = ""
  /\ sibling = "components-2.json"
  /\ os.locate samples.relative_host sibling = ["work"; "components-2.json"]
  /\ (_sdk_tar.stage_archive samples.relative_host "sdk.tar" "/work/out"
        samples.relative_world).2 = Ok tt
  /\ os.isfile_in samples.relative_host
       (_sdk_tar.stage_archive samples.relative_host "sdk.tar" "/work/out"
          samples.relative_world).1
       (posixpath.join (posixpath.join "/work/out" constants.REPO_FOLDER)
                       constants.COMPONENTS_FILE) = false
  /\ os.isfile_in samples.relative_host samples.relative_world sibling
     = true
  /\ after.2 = Ok (Some "file:///components-2.json")
  /\ os.locate samples.relative_host "/components-2.json"
     = ["components-2.json"]
  /\ files samples.relative_world !! ["components-2.json"] = None
  /\ files after.1 !! ["components-2.json"] = None
  /\ files after.1 !! ["work"; "components-2.json"] = Some (fs.File "{}").
Proof.
  cbv zeta. repeat split; vm_compute; reflexivity.
Qed.

Lemma DownloadTar_fetches_once_witness :
  url_scheme examples.host "http://host/dl/sdk.tar" <> ""
  /\ _sdk_tar.DownloadTar examples.host "http://host/dl/sdk.tar" "/work"
       examples.world
     = (examples.downloaded, Ok "/work/downloads/sdk.tar")
  /\ _sdk_tar.DownloadTar examples.host "http://host/dl/sdk.tar" "/work"
       examples.downloaded
     = (examples.downloaded, Ok "/work/downloads/sdk.tar")
  /\ fetched examples.downloaded
     = fetched examples.world ++ ["http://host/dl/sdk.tar"].
Proof.
  assert (H1 : url_scheme examples.host "http://host/dl/sdk.tar" <> "")
    by done.
  assert (H2 : _sdk_tar.DownloadTar examples.host "http://host/dl/sdk.tar"
                 "/work" examples.world
               = (examples.downloaded, Ok "/work/downloads/sdk.tar"))
    by (vm_compute; reflexivity).
  split; [assumption|]. split; [assumption|].
  destruct (DownloadTar_fetches_once examples.host "http://host/dl/sdk.tar"
              "/work" examples.world H1) as [_ Htwice].
  destruct (Htwice _ _ H2) as (_ & Hsecond & Hfetched).
  split.
  - rewrite Hsecond. do 2 f_equal.
  - rewrite Hfetched.
    assert (Hmiss : os.isfile_in examples.host examples.world
              (posixpath.join
                 (posixpath.join "/work" constants.DOWNLOAD_FOLDER)
                 (posixpath.basename
                    (url_path examples.host "http://host/dl/sdk.tar")))
            = false) by (vm_compute; reflexivity).
    by rewrite Hmiss.
Defined.

(** ** Config and the locked environment variables *)

Lemma ValidateLocked_spec (config : list (string * value)) :
  if error.has_locked_variable config
  then exists msg,
         error.ValidateLockedEnvironmentVariables config
         = Raise (ConfigError msg)
  else error.ValidateLockedEnvironmentVariables config = Ok tt.
Proof.
  unfold error.has_locked_variable, error.ValidateLockedEnvironmentVariables.
  destruct (pydict.get config "environment_variables") as [[|s|env]|];
    try done.
  destruct (List.find _ _) as [var|] eqn:E.
  - apply find_some in E as [Hin Hmem].
    rewrite (proj2 (existsb_exists _ _)) by eauto. eauto.
  - destruct (existsb _ _) eqn:Ex; [|done].
    apply existsb_exists in Ex as (var & Hin & Hmem).
    by rewrite (find_none _ _ E var Hin) in Hmem.
Qed.

Lemma invalid_key_nil : _config.invalid_key [] = None.
Proof. reflexivity. Qed.

Lemma UpdateDict_defaults :
  _config._UpdateDict [] constants.DEFAULT_CONFIG
  = Ok constants.DEFAULT_CONFIG.
Proof. reflexivity. Qed.

(** C1 (amended).  Take a construction of a [Config] from the defaults,
    the mapping a file provides (if a file is given) and the keyword
    overrides, and let [merged] be the defaults overlaid with the file's
    mapping and then with the overrides.  If the
    [environment_variables] of [merged], or those of the file's mapping
    itself, contain a locked name, the construction fails with a
    [ConfigError].  If neither does and all keys are known, the
    construction succeeds and yields [merged]. *)
Theorem Config_locked_variables (h : Host) (filename : option string)
    (overlay kwargs : list (string * value)) (w : World) :
  driver.overlay_of h w filename overlay ->
  let merged :=
    pydict.update (pydict.update constants.DEFAULT_CONFIG overlay) kwargs in
  (error.has_locked_variable merged = true
   \/ error.has_locked_variable overlay = true ->
   exists msg,
     driver.Config__init__ h filename kwargs w = (w, Raise (ConfigError msg)))
  /\ (error.has_locked_variable merged = false ->
      error.has_locked_variable overlay = false ->
      _config.invalid_key overlay = None ->
      _config.invalid_key kwargs = None ->
      driver.Config__init__ h filename kwargs w = (w, Ok merged)).
Proof.
  intros Hfile merged.
  assert (Hload :
    match filename with
    | Some f => driver.LoadFile h constants.DEFAULT_CONFIG f
    | None => ret constants.DEFAULT_CONFIG
    end w
    = (w, match error.ValidateLockedEnvironmentVariables overlay with
          | Raise e => Raise e
          | Ok _ => _config._UpdateDict constants.DEFAULT_CONFIG overlay
          end)).
  { destruct filename as [f|]; simpl in Hfile.
    - destruct Hfile as (Hne & content & Hread & Hyaml).
      unfold driver.LoadFile. apply String.eqb_neq in Hne. rewrite Hne.
      unfold bind, fs_read. rewrite Hread, Hyaml. done.
    - subst overlay. done. }
  assert (Hinit : driver.Config__init__ h filename kwargs w
    = (w, match error.ValidateLockedEnvironmentVariables overlay with
          | Raise e => Raise e
          | Ok _ =>
              match _config._UpdateDict constants.DEFAULT_CONFIG overlay with
              | Raise e => Raise e
              | Ok self =>
                  match _config._UpdateDict self kwargs with
                  | Raise e => Raise e
                  | Ok self =>
                      match error.ValidateLockedEnvironmentVariables self with
                      | Raise e => Raise e
                      | Ok _ => Ok self
                      end
                  end
              end
          end)).
  { unfold driver.Config__init__. unfold bind at 1.
    rewrite UpdateDict_defaults. unfold bind at 1. rewrite Hload.
    destruct (error.ValidateLockedEnvironmentVariables overlay); [|done].
    destruct (_config._UpdateDict constants.DEFAULT_CONFIG overlay); [|done].
    unfold bind. by destruct (_config._UpdateDict _ kwargs). }
  rewrite Hinit. clear Hinit Hload.
  pose proof (ValidateLocked_spec overlay) as Hov.
  pose proof (ValidateLocked_spec merged) as Hmg.
  unfold _config._UpdateDict, error.RaiseInvalidKey. split.
  - intros Hlocked.
    destruct (error.has_locked_variable overlay).
    + destruct Hov as [msg ->]. eauto.
    + rewrite Hov. destruct Hlocked as [Hlocked|]; [|done].
      rewrite Hlocked in Hmg. destruct Hmg as [msg Hmg].
      destruct (_config.invalid_key overlay); [eauto|].
      destruct (_config.invalid_key kwargs); [eauto|].
      fold merged. rewrite Hmg. eauto.
  - intros Hm Ho Hk1 Hk2. rewrite Ho in Hov. rewrite Hm in Hmg.
    rewrite Hov, Hk1, Hk2. fold merged. by rewrite Hmg.
Qed.

(** The file [/bad_env.yaml] sets the locked [CLOUDSDK_CONFIG]; the
    overrides replace [environment_variables] by an empty mapping, so the
    resulting mapping has no locked name; all keys are known; the
    construction fails all the same, with the locked-variable
    [ConfigError] raised when the file is loaded. *)
Lemma Config_fails_on_overridden_locked_variable :
  let kwargs := [("environment_variables", VMap [])] in
  let overlay := [("environment_variables", VMap [("CLOUDSDK_CONFIG", "foo")])]
  in
  pydict.get
    (pydict.update (pydict.update constants.DEFAULT_CONFIG overlay) kwargs)
    "environment_variables" = Some (VMap [])
  /\ _config.invalid_key overlay = None
  /\ _config.invalid_key kwargs = None
  /\ driver.Config__init__ examples.host (Some "/bad_env.yaml") kwargs
       examples.world
     = (examples.world,
        Raise (ConfigError
          "Invalid config: environment variable [CLOUDSDK_CONFIG] cannot be set.")).
Proof. repeat split; vm_compute; reflexivity. Qed.

Lemma Config_locked_variables_witness :
  driver.overlay_of examples.host examples.world (Some "/bad_env.yaml")
    [("environment_variables", VMap [("CLOUDSDK_CONFIG", "foo")])]
  /\ exists msg,
       driver.Config__init__ examples.host (Some "/bad_env.yaml") []
         examples.world
       = (examples.world, Raise (ConfigError msg)).
Proof.
  assert (H : driver.overlay_of examples.host examples.world (Some "/bad_env.yaml")
                [("environment_variables",
                  VMap [("CLOUDSDK_CONFIG", "foo")])]).
  { split; [done|]. exists examples.bad_env_yaml.
    split; vm_compute; reflexivity. }
  split; [exact H|].
  apply (Config_locked_variables examples.host (Some "/bad_env.yaml") _ []
           examples.world H).
  right. reflexivity.
Defined.

(** ** The serialisation of a configuration *)

Lemma unescape_escape_char (c : ascii) (r : string) :
  json.unescape_head (json.escape_char c +:+ r) = Some (c, r).
Proof. destruct c as [[] [] [] [] [] [] [] []]; reflexivity. Qed.

Lemma unescape_dquote (r : string) :
  json.unescape_head (String json.dquote r) = None.
Proof. reflexivity. Qed.

(** A quoted string determines the string and what follows it. *)
Lemma escape_inj (s1 s2 r1 r2 : string) :
  json.escape s1 +:+ String json.dquote r1
  = json.escape s2 +:+ String json.dquote r2 ->
  s1 = s2 /\ r1 = r2.
Proof.
  revert s2. induction s1 as [|c1 s1 IH]; intros [|c2 s2] H; simpl in H.
  - by injection H.
  - apply (f_equal json.unescape_head) in H.
    rewrite string_app_assoc, unescape_escape_char in H. done.
  - apply (f_equal json.unescape_head) in H.
    rewrite string_app_assoc, unescape_escape_char in H. done.
  - apply (f_equal json.unescape_head) in H.
    rewrite !string_app_assoc, !unescape_escape_char in H.
    injection H as -> H. by destruct (IH _ H) as [-> ->].
Qed.

Lemma dumps_str_app (s r : string) :
  json.dumps_str s +:+ r
  = String json.dquote (json.escape s +:+ String json.dquote r).
Proof. unfold json.dumps_str. simpl. by rewrite string_app_assoc. Qed.

Lemma dumps_str_inj (s1 s2 r1 r2 : string) :
  json.dumps_str s1 +:+ r1 = json.dumps_str s2 +:+ r2 ->
  s1 = s2 /\ r1 = r2.
Proof.
  rewrite !dumps_str_app. intros [= H]. by apply escape_inj.
Qed.

Lemma str_join_cons (x : string) (rest : list string) :
  str_join ", " (x :: rest) = x +:+ json.more_items rest.
Proof.
  revert x. induction rest as [|y rest IH]; intros x.
  - simpl. by rewrite string_app_nil_r.
  - change (str_join ", " (x :: y :: rest))
      with (x +:+ ", " +:+ str_join ", " (y :: rest)).
    by rewrite IH.
Qed.

Lemma string_app_inv_head (a x y : string) : a +:+ x = a +:+ y -> x = y.
Proof. induction a as [|c a IH]; simpl; [done|]. intros [= H]. auto. Qed.

Section items.
Context {V : Type} (dumps_v : V -> string).
Hypothesis dumps_v_inj : forall v1 v2 r1 r2,
  dumps_v v1 +:+ r1 = dumps_v v2 +:+ r2 -> v1 = v2 /\ r1 = r2.

Lemma item_inj (x1 x2 : string * V) (r1 r2 : string) :
  json.dumps_item dumps_v x1 +:+ r1 = json.dumps_item dumps_v x2 +:+ r2 ->
  x1 = x2 /\ r1 = r2.
Proof.
  destruct x1 as [k1 v1], x2 as [k2 v2]. unfold json.dumps_item.
  cbn [fst snd]. rewrite !string_app_assoc. intros H.
  apply dumps_str_inj in H as [-> H].
  apply string_app_inv_head in H.
  by apply dumps_v_inj in H as [-> ->].
Qed.

Lemma item_head (x : string * V) (r : string) :
  exists r', json.dumps_item dumps_v x +:+ r = String json.dquote r'.
Proof.
  unfold json.dumps_item. rewrite string_app_assoc, dumps_str_app. eauto.
Qed.

Lemma more_items_inj (l1 l2 : list (string * V)) (r1 r2 : string) :
  json.more_items (map (json.dumps_item dumps_v) l1) +:+ String "}" r1
  = json.more_items (map (json.dumps_item dumps_v) l2) +:+ String "}" r2 ->
  l1 = l2 /\ r1 = r2.
Proof.
  revert l2. induction l1 as [|x1 l1 IH]; intros [|x2 l2] H.
  - by injection H.
  - done.
  - done.
  - change (", " +:+ (json.dumps_item dumps_v x1
                      +:+ json.more_items (map (json.dumps_item dumps_v) l1))
            +:+ String "}" r1
            = ", " +:+ (json.dumps_item dumps_v x2
                      +:+ json.more_items (map (json.dumps_item dumps_v) l2))
            +:+ String "}" r2) in H.
    apply string_app_inv_head in H. rewrite !string_app_assoc in H.
    apply item_inj in H as [-> H]. by destruct (IH _ H) as [-> ->].
Qed.

(** The serialisation of a list of items determines the list and what
    follows it. *)
Lemma dumps_items_inj (l1 l2 : list (string * V)) (r1 r2 : string) :
  json.dumps_items dumps_v l1 +:+ r1 = json.dumps_items dumps_v l2 +:+ r2 ->
  l1 = l2 /\ r1 = r2.
Proof.
  unfold json.dumps_items. rewrite !(string_app_assoc "{").
  intros H. apply string_app_inv_head in H. revert H.
  destruct l1 as [|x1 l1], l2 as [|x2 l2];
    cbn [map]; rewrite ?str_join_cons, ?string_app_assoc.
  - by intros [= ->].
  - destruct (item_head x2
                (json.more_items (map (json.dumps_item dumps_v) l2)
                 +:+ "}" +:+ r2)) as [r' ->]. done.
  - destruct (item_head x1
                (json.more_items (map (json.dumps_item dumps_v) l1)
                 +:+ "}" +:+ r1)) as [r' ->]. done.
  - intros H. apply item_inj in H as [-> H].
    by apply more_items_inj in H as [-> ->].
Qed.
End items.

Lemma dumps_canon_value_inj (v1 v2 : value) (r1 r2 : string) :
  json.dumps_canon_value v1 +:+ r1 = json.dumps_canon_value v2 +:+ r2 ->
  v1 = v2 /\ r1 = r2.
Proof.
  destruct v1 as [|s1|m1], v2 as [|s2|m2]; simpl;
    try (unfold json.dumps_str, json.dumps_items; simpl; discriminate).
  - by intros [= ->].
  - intros H. by apply dumps_str_inj in H as [-> ->].
  - intros H. by apply (dumps_items_inj _ dumps_str_inj) in H as [-> ->].
Qed.

(** The serialisation without sorting is injective. *)
Lemma dumps_canon_inj (d1 d2 : list (string * value)) :
  json.dumps_canon d1 = json.dumps_canon d2 -> d1 = d2.
Proof.
  intros H. unfold json.dumps_canon in H.
  assert (H' : json.dumps_items json.dumps_canon_value d1 +:+ ""
               = json.dumps_items json.dumps_canon_value d2 +:+ "")
    by (by rewrite !string_app_nil_r).
  by apply (dumps_items_inj _ dumps_canon_value_inj) in H' as [-> _].
Qed.

(** ** Sorting the items of a dictionary *)

Lemma ascii_compare_refl (a : ascii) : Ascii.compare a a = Eq.
Proof. unfold Ascii.compare. apply N.compare_refl. Qed.

Lemma ascii_compare_lt_trans (a b c : ascii) :
  Ascii.compare a b = Lt -> Ascii.compare b c = Lt -> Ascii.compare a c = Lt.
Proof.
  unfold Ascii.compare. rewrite !N.compare_lt_iff. lia.
Qed.

Lemma string_compare_lt_trans (a b c : string) :
  String.compare a b = Lt -> String.compare b c = Lt ->
  String.compare a c = Lt.
Proof.
  revert b c. induction a as [|x a IH]; intros [|y b] [|z c]; simpl;
    try done.
  destruct (Ascii.compare x y) eqn:Exy; [|  |done];
    destruct (Ascii.compare y z) eqn:Eyz; try done.
  - apply Ascii.compare_eq_iff in Exy as ->, Eyz as ->.
    rewrite ascii_compare_refl. apply IH.
  - apply Ascii.compare_eq_iff in Exy as ->. by rewrite Eyz.
  - apply Ascii.compare_eq_iff in Eyz as <-. by rewrite Exy.
  - by rewrite (ascii_compare_lt_trans _ _ _ Exy Eyz).
Qed.

Lemma string_leb_trans (a b c : string) :
  String.leb a b = true -> String.leb b c = true -> String.leb a c = true.
Proof.
  unfold String.leb.
  destruct (String.compare a b) eqn:Eab; [| |done];
    destruct (String.compare b c) eqn:Ebc; try done; intros _ _.
  - apply String.compare_eq_iff in Eab as ->. by rewrite Ebc.
  - apply String.compare_eq_iff in Eab as ->. by rewrite Ebc.
  - apply String.compare_eq_iff in Ebc as <-. by rewrite Eab.
  - by rewrite (string_compare_lt_trans _ _ _ Eab Ebc).
Qed.

Section sorting.
Context {V : Type}.
Implicit Types (x y : string * V) (l : list (string * V)).

Lemma insert_item_perm x l : json.insert_item x l ≡ₚ x :: l.
Proof.
  induction l as [|z l IH]; simpl; [done|].
  destruct (String.leb x.1 z.1); [done|].
  rewrite IH. apply Permutation_swap.
Qed.

Lemma sort_items_perm l : json.sort_items l ≡ₚ l.
Proof.
  induction l as [|x l IH]; simpl; [done|].
  by rewrite insert_item_perm, IH.
Qed.

Lemma insert_item_comm x y l :
  x.1 <> y.1 ->
  json.insert_item x (json.insert_item y l)
  = json.insert_item y (json.insert_item x l).
Proof.
  intros Hne. induction l as [|z l IH]; simpl.
  - destruct (String.leb x.1 y.1) eqn:Exy, (String.leb y.1 x.1) eqn:Eyx;
      try done.
    + by destruct Hne; apply String.leb_antisym.
    + destruct (String.leb_total x.1 y.1); congruence.
  - destruct (String.leb y.1 z.1) eqn:Eyz, (String.leb x.1 z.1) eqn:Exz;
      simpl; rewrite ?Eyz, ?Exz.
    + destruct (String.leb x.1 y.1) eqn:Exy, (String.leb y.1 x.1) eqn:Eyx;
        try done.
      * by destruct Hne; apply String.leb_antisym.
      * destruct (String.leb_total x.1 y.1); congruence.
    + destruct (String.leb x.1 y.1) eqn:Exy; [|done].
      by rewrite (string_leb_trans _ _ _ Exy Eyz) in Exz.
    + destruct (String.leb y.1 x.1) eqn:Eyx; [|done].
      by rewrite (string_leb_trans _ _ _ Eyx Exz) in Eyz.
    + by rewrite IH.
Qed.

(** Sorting does not depend on the order of the items. *)
Lemma sort_items_order l1 l2 :
  l1 ≡ₚ l2 -> NoDup l1.*1 -> json.sort_items l1 = json.sort_items l2.
Proof.
  induction 1 as [|x l1 l2 Hp IH|x y l|l1 l2 l3 Hp1 IH1 Hp2 IH2];
    intros Hnd; simpl.
  - done.
  - apply NoDup_cons in Hnd as [_ Hnd]. by rewrite IH.
  - apply insert_item_comm. simpl in Hnd.
    apply NoDup_cons in Hnd as [Hy _]. intros Heq. apply Hy.
    rewrite Heq. by left.
  - rewrite IH1 by done. apply IH2. by rewrite <- Hp1.
Qed.

Lemma get_Some_elem l k v :
  NoDup l.*1 -> pydict.get l k = Some v <-> (k, v) ∈ l.
Proof.
  induction l as [|[k' v'] l IH]; simpl; intros Hnd.
  - split; [done | by intros ?%elem_of_nil].
  - apply NoDup_cons in Hnd as [Hk' Hnd]. rewrite elem_of_cons.
    destruct (String.eqb_spec k' k) as [->|Hne].
    + split; [intros [= ->]; by left|]. intros [[= ->]|Hin]; [done|].
      destruct Hk'. apply list_elem_of_fmap. by exists (k, v).
    + rewrite IH by done. split; [by right|].
      intros [[= ? ?]|?]; [congruence|done].
Qed.

Lemma get_perm l1 l2 k :
  l1 ≡ₚ l2 -> NoDup l1.*1 -> pydict.get l1 k = pydict.get l2 k.
Proof.
  intros Hp Hnd1. assert (Hnd2 : NoDup l2.*1) by (by rewrite <- Hp).
  destruct (pydict.get l1 k) as [v|] eqn:E1.
  - symmetry. apply get_Some_elem; [done|]. rewrite <- Hp.
    by apply get_Some_elem.
  - destruct (pydict.get l2 k) as [v|] eqn:E2; [|done].
    apply get_Some_elem in E2; [|done]. rewrite <- Hp in E2.
    apply get_Some_elem in E2; [|done]. congruence.
Qed.

(** Two dictionaries sort to the same list exactly when every key has
    the same value in both. *)
Lemma sort_items_eq_iff l1 l2 :
  NoDup l1.*1 -> NoDup l2.*1 ->
  json.sort_items l1 = json.sort_items l2
  <-> forall k, pydict.get l1 k = pydict.get l2 k.
Proof.
  intros Hnd1 Hnd2. split.
  - intros Hs k.
    rewrite <- (get_perm _ _ k (sort_items_perm l1)).
    2:{ by rewrite sort_items_perm. }
    rewrite <- (get_perm _ _ k (sort_items_perm l2)).
    2:{ by rewrite sort_items_perm. }
    by rewrite Hs.
  - intros Hget. apply sort_items_order; [|done].
    apply NoDup_Permutation.
    + by apply NoDup_fmap_1 in Hnd1.
    + by apply NoDup_fmap_1 in Hnd2.
    + intros [k v]. rewrite <- !get_Some_elem by done. by rewrite Hget.
Qed.
End sorting.

(** ** Equality of immutable configurations *)

Lemma sort_items_map_values {V W} (f : V -> W) (l : list (string * V)) :
  json.sort_items (map (fun kv => (kv.1, f kv.2)) l)
  = map (fun kv => (kv.1, f kv.2)) (json.sort_items l).
Proof.
  assert (Hins : forall x l',
    json.insert_item (x.1, f x.2) (map (fun kv => (kv.1, f kv.2)) l')
    = map (fun kv => (kv.1, f kv.2)) (json.insert_item x l')).
  { intros x l'. induction l' as [|z l' IH]; simpl; [done|].
    destruct (String.leb x.1 z.1); simpl; [done|]. by rewrite IH. }
  induction l as [|x l IH]; simpl; [done|]. by rewrite IH, Hins.
Qed.

Lemma get_map_values {V W} (f : V -> W) (l : list (string * V)) (k : string) :
  pydict.get (map (fun kv => (kv.1, f kv.2)) l) k = f <$> pydict.get l k.
Proof.
  induction l as [|[k' v] l IH]; simpl; [done|].
  by destruct (String.eqb k' k).
Qed.

Lemma dumps_canon_value_canon (v : value) :
  json.dumps_canon_value (json.canon_value v) = json.dumps_value v.
Proof. by destruct v. Qed.

(** The serialisation is that of the canonical form. *)
Lemma dumps_canon_canon (d : list (string * value)) :
  json.dumps d = json.dumps_canon (json.canon d).
Proof.
  unfold json.dumps, json.dumps_object, json.dumps_canon, json.canon.
  rewrite sort_items_map_values. unfold json.dumps_items.
  rewrite map_map. do 3 f_equal. apply map_ext. intros [k v].
  unfold json.dumps_item. simpl. by rewrite dumps_canon_value_canon.
Qed.

Lemma dumps_eq_iff (d1 d2 : list (string * value)) :
  json.dumps d1 = json.dumps d2 <-> json.canon d1 = json.canon d2.
Proof.
  rewrite !dumps_canon_canon. split; [apply dumps_canon_inj | by intros ->].
Qed.

Lemma canon_value_eq_iff (v1 v2 : value) :
  (forall m, v1 = VMap m -> NoDup m.*1) ->
  (forall m, v2 = VMap m -> NoDup m.*1) ->
  json.canon_value v1 = json.canon_value v2 <-> json.same_value v1 v2.
Proof.
  intros H1 H2. destruct v1 as [|s1|m1], v2 as [|s2|m2]; simpl; try done.
  - split; [by intros [= ->] | by intros ->].
  - rewrite <- sort_items_eq_iff by eauto.
    split; [by intros [= ->] | by intros ->].
Qed.

(** Two well-formed dictionaries have the same canonical form exactly
    when they have the same content. *)
Lemma canon_eq_iff (d1 d2 : list (string * value)) :
  json.dict_ok d1 -> json.dict_ok d2 ->
  json.canon d1 = json.canon d2 <-> json.same_content d1 d2.
Proof.
  intros [Hk1 Hm1] [Hk2 Hm2]. unfold json.canon.
  rewrite sort_items_eq_iff.
  2,3: by rewrite <- list_fmap_compose.
  unfold json.same_content.
  apply forall_proper. intros k. rewrite !get_map_values.
  destruct (pydict.get d1 k) as [v1|] eqn:E1,
           (pydict.get d2 k) as [v2|] eqn:E2; simpl; try done.
  apply get_Some_elem in E1, E2; try done.
  rewrite <- canon_value_eq_iff.
  - split; [by intros [= ->] | by intros ->].
  - intros m ->. eauto.
  - intros m ->. eauto.
Qed.

Lemma get_set {V} (d : list (string * V)) (k k' : string) (v : V) :
  pydict.get (pydict.set d k v) k'
  = if String.eqb k k' then Some v else pydict.get d k'.
Proof.
  induction d as [|[k0 v0] d IH]; simpl.
  - done.
  - destruct (String.eqb_spec k0 k) as [->|Hne]; simpl.
    + by destruct (String.eqb k k').
    + rewrite IH. destruct (String.eqb_spec k0 k') as [->|Hne'].
      * by rewrite (proj2 (String.eqb_neq k k')).
      * done.
Qed.

Lemma get_None_notin {V} (d : list (string * V)) (k : string) :
  k ∉ d.*1 -> pydict.get d k = None.
Proof.
  induction d as [|[k0 v0] d IH]; simpl; [done|].
  rewrite not_elem_of_cons. intros [Hne Hnin].
  by rewrite (proj2 (String.eqb_neq k0 k)), IH.
Qed.

(** A key of the overlay has the overlay's value after an update, any
    other key keeps its value. *)
Lemma get_update {V} (d other : list (string * V)) (k : string) :
  NoDup other.*1 ->
  pydict.get (pydict.update d other) k
  = match pydict.get other k with
    | Some v => Some v
    | None => pydict.get d k
    end.
Proof.
  unfold pydict.update. revert d.
  induction other as [|[k0 v0] other IH]; intros d Hnd; simpl; [done|].
  apply NoDup_cons in Hnd as [Hk0 Hnd]. rewrite IH by done. simpl.
  rewrite get_set. destruct (String.eqb_spec k0 k) as [->|Hne]; [|done].
  by rewrite get_None_notin.
Qed.

Lemma set_elem {V} (d : list (string * V)) (k : string) (v : V)
    (x : string * V) :
  x ∈ pydict.set d k v -> x = (k, v) \/ x ∈ d.
Proof.
  induction d as [|[k0 v0] d IH]; simpl.
  - intros ?%list_elem_of_singleton. by left.
  - destruct (String.eqb k0 k); rewrite !elem_of_cons.
    + intros [->|Hin]; [by left | by right; right].
    + intros [->|Hin]; [by right; left|].
      destruct (IH Hin) as [->|Hd]; [by left | by right; right].
Qed.

Lemma set_keys_NoDup {V} (d : list (string * V)) (k : string) (v : V) :
  NoDup d.*1 -> NoDup (pydict.set d k v).*1.
Proof.
  induction d as [|[k0 v0] d IH]; simpl; intros Hnd.
  - apply NoDup_singleton.
  - apply NoDup_cons in Hnd as [Hk0 Hnd].
    destruct (String.eqb_spec k0 k) as [->|Hne]; simpl.
    + by apply NoDup_cons.
    + apply NoDup_cons. split; [|by apply IH].
      intros Hin. apply list_elem_of_fmap in Hin as ([k1 v1] & Hk1 & Hin).
      simpl in Hk1. subst k1. apply set_elem in Hin as [[= ? ?]|Hin]; [done|].
      apply Hk0. apply list_elem_of_fmap. by exists (k0, v1).
Qed.

Lemma update_dict_ok (d other : list (string * value)) :
  json.dict_ok d ->
  (forall k m, (k, VMap m) ∈ other -> NoDup m.*1) ->
  json.dict_ok (pydict.update d other).
Proof.
  unfold pydict.update. revert d.
  induction other as [|[k0 v0] other IH]; intros d Hd Ho; simpl; [done|].
  apply IH.
  - destruct Hd as [Hk Hm]. split; [by apply set_keys_NoDup|].
    intros k m Hin. apply set_elem in Hin as [[= -> <-]|Hin]; [|eauto].
    apply (Ho k0). by left.
  - intros k m Hin. apply (Ho k). by right.
Qed.

Lemma same_value_refl (v : value) : json.same_value v v.
Proof. by destruct v. Qed.

Lemma DEFAULT_CONFIG_ok : json.dict_ok constants.DEFAULT_CONFIG.
Proof.
  split.
  - apply (bool_decide_unpack _). by vm_compute.
  - intros k m Hin.
    assert (m = [("CLOUDSDK_CORE_DISABLE_PROMPTS", "1")] \/ m = [])
      as [-> | ->].
    { unfold constants.DEFAULT_CONFIG in Hin. rewrite !elem_of_cons in Hin.
      destruct Hin as [H|[H|[H|[H|[H|H]]]]]; try discriminate H.
      - injection H as _ ->. by left.
      - injection H as _ ->. by right.
      - by apply elem_of_nil in H. }
    + apply (bool_decide_unpack _). by vm_compute.
    + apply NoDup_nil_2.
Qed.

Lemma eq_Key (a b : _config.ImmutableConfig) :
  _config.__eq__ a (_config.AnImmutableConfig b) = true
  <-> _config._Key a = _config._Key b.
Proof. unfold _config.__eq__. apply String.eqb_eq. Qed.

(** C4.  Two [ImmutableConfig] objects are equal exactly when their
    sorted-key JSON serialisations are identical, and equal objects have
    the same hash.  For dictionaries without a repeated key, the
    serialisations are identical exactly when the two objects have the
    same content, nested mappings being compared key by key.  So two
    objects built from the defaults and the same overrides given in a
    different order are equal, and two objects in which some key has
    different values are not. *)
Theorem ImmutableConfig_eq_hash (h : Host) (a b : _config.ImmutableConfig) :
  let equal := _config.__eq__ a (_config.AnImmutableConfig b) in
  (equal = true <-> _config._Key a = _config._Key b)
  /\ (equal = true -> _config.__hash__ h a = _config.__hash__ h b)
  /\ (json.dict_ok (_config.__dict__ a) ->
      json.dict_ok (_config.__dict__ b) ->
      (equal = true
       <-> json.same_content (_config.__dict__ a) (_config.__dict__ b)))
  /\ (forall kwargs1 kwargs2,
        _config.__dict__ a = pydict.update constants.DEFAULT_CONFIG kwargs1 ->
        _config.__dict__ b = pydict.update constants.DEFAULT_CONFIG kwargs2 ->
        kwargs1 ≡ₚ kwargs2 ->
        NoDup kwargs1.*1 ->
        (forall k m, (k, VMap m) ∈ kwargs1 -> NoDup m.*1) ->
        equal = true)
  /\ (json.dict_ok (_config.__dict__ a) ->
      json.dict_ok (_config.__dict__ b) ->
      forall k v1 v2,
        pydict.get (_config.__dict__ a) k = Some v1 ->
        pydict.get (_config.__dict__ b) k = Some v2 ->
        ~ json.same_value v1 v2 ->
        equal = false).
Proof.
  intros equal.
  assert (Hcontent :
    json.dict_ok (_config.__dict__ a) ->
    json.dict_ok (_config.__dict__ b) ->
    (equal = true
     <-> json.same_content (_config.__dict__ a) (_config.__dict__ b))).
  { intros Ha Hb. unfold equal. rewrite eq_Key. unfold _config._Key.
    rewrite dumps_eq_iff. by apply canon_eq_iff. }
  split; [apply eq_Key|]. split; [|split; [exact Hcontent|split]].
  - intros Heq. apply eq_Key in Heq. unfold _config.__hash__.
    by rewrite Heq.
  - intros kw1 kw2 Ha Hb Hperm Hnd Hinner.
    assert (Hnd2 : NoDup kw2.*1) by (by rewrite <- Hperm).
    assert (Hinner2 : forall k m, (k, VMap m) ∈ kw2 -> NoDup m.*1).
    { intros k m Hin. apply (Hinner k). by rewrite Hperm. }
    apply Hcontent.
    + rewrite Ha. apply update_dict_ok; [apply DEFAULT_CONFIG_ok|done].
    + rewrite Hb. apply update_dict_ok; [apply DEFAULT_CONFIG_ok|done].
    + intros k. rewrite Ha, Hb, !get_update by done.
      rewrite (get_perm kw1 kw2 k Hperm Hnd).
      destruct (pydict.get kw2 k) as [v|]; [apply same_value_refl|].
      destruct (pydict.get constants.DEFAULT_CONFIG k);
        [apply same_value_refl|done].
  - intros Ha Hb k v1 v2 H1 H2 Hdiff.
    destruct (decide (equal = true)) as [E|E]; [|by destruct equal].
    exfalso. apply (Hcontent Ha Hb) in E. specialize (E k).
    rewrite H1, H2 in E. done.
Qed.

Lemma ImmutableConfig_eq_hash_witness :
  let kwargs1 := [("project", VStr "p");
                  ("properties", VMap [("a", "1"); ("b", "2")])] in
  let kwargs2 := [("properties", VMap [("a", "1"); ("b", "2")]);
                  ("project", VStr "p")] in
  let a := {| _config.__dict__ :=
                pydict.update constants.DEFAULT_CONFIG kwargs1 |} in
  let b := {| _config.__dict__ :=
                pydict.update constants.DEFAULT_CONFIG kwargs2 |} in
  _config.__eq__ a (_config.AnImmutableConfig b) = true
  /\ _config.__hash__ examples.host a = _config.__hash__ examples.host b.
Proof.
  intros kwargs1 kwargs2 a b.
  destruct (ImmutableConfig_eq_hash examples.host a b)
    as (_ & Hhash & _ & Horder & _).
  assert (Heq : _config.__eq__ a (_config.AnImmutableConfig b) = true).
  { apply (Horder kwargs1 kwargs2); [reflexivity|reflexivity| | |].
    - apply Permutation_swap.
    - apply (bool_decide_unpack _). by vm_compute.
    - intros k m Hin.
      apply elem_of_cons in Hin as [[=]|Hin].
      apply elem_of_cons in Hin as [Hin|Hin]; [|by apply elem_of_nil in Hin].
      injection Hin as _ ->.
      apply (bool_decide_unpack _). by vm_compute. }
  split; [exact Heq|]. by apply Hhash.
Defined.

(** ** Freezing a configuration *)

Lemma refs_elem (d : list (string * objects.ref)) (l : nat) :
  l ∈ objects.refs d <-> exists k, (k, objects.RDict l) ∈ d.
Proof.
  unfold objects.refs. rewrite list_elem_of_omap. split.
  - intros ([k v] & Hin & Hv). simpl in Hv. destruct v; try done.
    injection Hv as ->. eauto.
  - intros [k Hin]. by exists (k, objects.RDict l).
Qed.

Lemma refs_set (d : list (string * objects.ref)) (k : string)
    (v : objects.ref) (l : nat) :
  l ∈ objects.refs (pydict.set d k v) ->
  l ∈ objects.refs d \/ v = objects.RDict l.
Proof.
  rewrite !refs_elem. intros [k' Hin].
  apply set_elem in Hin as [[= _ <-]|Hin]; [by right|]. left. eauto.
Qed.

Lemma refs_update (d other : list (string * objects.ref)) (l : nat) :
  l ∈ objects.refs (pydict.update d other) ->
  l ∈ objects.refs d \/ l ∈ objects.refs other.
Proof.
  unfold pydict.update. revert d.
  induction other as [|[k v] other IH]; intros d; cbn [fold_left];
    [by left|].
  intros Hin. apply IH in Hin as [Hin|Hin].
  - cbn [fst snd] in Hin. apply refs_set in Hin as [Hin|Hv]; [by left|].
    right. apply refs_elem. exists k. rewrite Hv. by left.
  - right. apply refs_elem in Hin as [k' Hin]. apply refs_elem.
    exists k'. by right.
Qed.

(** The view of an object depends on the store only at the addresses
    the object refers to. *)
Lemma view_ext (m m' : gmap nat (list (string * string)))
    (d : list (string * objects.ref)) :
  (forall l, l ∈ objects.refs d -> m' !! l = m !! l) ->
  objects.view m' d = objects.view m d.
Proof.
  intros H. unfold objects.view. apply map_ext_in. intros [k v] Hin.
  simpl. f_equal. destruct v as [| |l]; simpl; try done.
  rewrite H; [done|]. apply refs_elem. exists k. by apply list_elem_of_In.
Qed.

Lemma view_set (m : gmap nat (list (string * string)))
    (d : list (string * objects.ref)) (k : string) (v : objects.ref) :
  objects.view m (pydict.set d k v)
  = pydict.set (objects.view m d) k (objects.view_ref m v).
Proof.
  induction d as [|[k0 v0] d IH]; simpl; [done|].
  destruct (String.eqb k0 k); simpl; [done|]. by rewrite <- IH.
Qed.

Lemma view_update (m : gmap nat (list (string * string)))
    (d other : list (string * objects.ref)) :
  objects.view m (pydict.update d other)
  = pydict.update (objects.view m d) (objects.view m other).
Proof.
  unfold pydict.update. revert d.
  induction other as [|[k v] other IH]; intros d; simpl; [done|].
  by rewrite IH, view_set.
Qed.

(** What [copy.deepcopy] does to the store: the copies are new objects,
    the objects that were there are as they were, and the copy reads as
    the original. *)
Lemma deepcopy_items_spec (m0 : gmap nat (list (string * string)))
    (items : list (string * objects.ref)) :
  forall (memo : gmap nat nat) (m : gmap nat (list (string * string)))
         items' memo' m',
  objects.deepcopy_items items memo m = (items', memo', m') ->
  (forall l, l ∈ objects.refs items -> is_Some (m !! l)) ->
  (forall l, is_Some (m0 !! l) -> is_Some (m !! l)) ->
  (forall l l', memo !! l = Some l' ->
     is_Some (m !! l) /\ m0 !! l' = None
     /\ m !! l' = Some (default [] (m !! l))) ->
  (forall l, is_Some (m !! l) -> m' !! l = m !! l)
  /\ (forall l l', memo' !! l = Some l' ->
        is_Some (m' !! l) /\ m0 !! l' = None
        /\ m' !! l' = Some (default [] (m' !! l)))
  /\ (forall l, l ∈ objects.refs items' ->
        is_Some (m' !! l) /\ m0 !! l = None)
  /\ objects.view m' items' = objects.view m items.
Proof.
  induction items as [|[k v] items IH];
    intros memo m items' memo' m' Hcopy Hvalid Hm0 Hmemo.
  - injection Hcopy as <- <- <-. split; [done|]. split; [done|].
    split; [|done]. by intros l ?%elem_of_nil.
  - cbn [objects.deepcopy_items] in Hcopy.
    assert (Hrest : forall l, l ∈ objects.refs items -> is_Some (m !! l)).
    { intros l Hl. apply Hvalid. apply refs_elem in Hl as [k' Hl].
      apply refs_elem. exists k'. by right. }
    destruct v as [|s|l].
    + destruct (objects.deepcopy_items items memo m)
        as [[rest' memo1] m1] eqn:E. injection Hcopy as <- <- <-.
      destruct (IH _ _ _ _ _ E Hrest Hm0 Hmemo) as (H1 & H2 & H3 & H4).
      split; [done|]. split; [done|]. split.
      { intros l Hl. apply H3. apply refs_elem in Hl as [k' Hl].
        apply elem_of_cons in Hl as [[=]|Hl]. apply refs_elem. eauto. }
      simpl. by rewrite H4.
    + destruct (objects.deepcopy_items items memo m)
        as [[rest' memo1] m1] eqn:E. injection Hcopy as <- <- <-.
      destruct (IH _ _ _ _ _ E Hrest Hm0 Hmemo) as (H1 & H2 & H3 & H4).
      split; [done|]. split; [done|]. split.
      { intros l Hl. apply H3. apply refs_elem in Hl as [k' Hl].
        apply elem_of_cons in Hl as [[=]|Hl]. apply refs_elem. eauto. }
      simpl. by rewrite H4.
    + assert (Hl : is_Some (m !! l)).
      { apply Hvalid. apply refs_elem. exists k. by left. }
      destruct (memo !! l) as [l'|] eqn:Ememo.
      * destruct (objects.deepcopy_items items memo m)
          as [[rest' memo1] m1] eqn:E. injection Hcopy as <- <- <-.
        destruct (IH _ _ _ _ _ E Hrest Hm0 Hmemo) as (H1 & H2 & H3 & H4).
        destruct (Hmemo _ _ Ememo) as (_ & Hnew & Hcontent).
        assert (Hl'1 : m1 !! l' = m !! l') by (apply H1; by rewrite Hcontent).
        split; [done|]. split; [done|]. split.
        { intros l0 Hl0. apply refs_elem in Hl0 as [k' Hl0].
          apply elem_of_cons in Hl0 as [[= _ ->]|Hl0].
          - split; [|done]. by rewrite Hl'1, Hcontent.
          - apply H3. apply refs_elem. eauto. }
        simpl. rewrite H4, Hl'1, Hcontent. done.
      * unfold objects.alloc in Hcopy.
        set (l' := fresh (dom m)) in *.
        set (c := default [] (m !! l)) in *.
        assert (Hfresh : m !! l' = None).
        { apply not_elem_of_dom. apply is_fresh. }
        assert (Hne : forall l0, is_Some (m !! l0) -> l0 <> l').
        { intros l0 [x Hx] ->. congruence. }
        destruct (objects.deepcopy_items items (<[l:=l']> memo)
                    (<[l':=c]> m)) as [[rest' memo1] m1] eqn:E.
        injection Hcopy as <- <- <-.
        assert (Hold : forall l0, is_Some (m !! l0) ->
                  <[l':=c]> m !! l0 = m !! l0).
        { intros l0 Hl0. rewrite lookup_insert_ne; [done|].
          by apply not_eq_sym, Hne. }
        destruct (IH (<[l:=l']> memo) (<[l':=c]> m) _ _ _ E)
          as (H1 & H2 & H3 & H4).
        { intros l0 Hl0. rewrite Hold; by apply Hrest. }
        { intros l0 Hl0. rewrite Hold; by apply Hm0. }
        { intros l0 l0' Hl0.
          destruct (decide (l0 = l)) as [->|Hne0].
          - rewrite lookup_insert_eq in Hl0. injection Hl0 as <-.
            rewrite (Hold l Hl), lookup_insert_eq. split; [done|].
            split; [|done].
            destruct (m0 !! l') eqn:E0; [|done].
            destruct (Hm0 l' ltac:(eauto)) as [x Hx]. congruence.
          - rewrite lookup_insert_ne in Hl0 by done.
            destruct (Hmemo _ _ Hl0) as (Hs & Hnew & Hcontent).
            rewrite (Hold l0 Hs). split; [done|]. split; [done|].
            rewrite Hold; [done|]. by rewrite Hcontent. }
        assert (Hl'1 : m1 !! l' = Some c).
        { rewrite H1; rewrite lookup_insert_eq; eauto. }
        split.
        { intros l0 Hl0. rewrite H1; rewrite Hold; done. }
        split; [done|]. split.
        { intros l0 Hl0. apply refs_elem in Hl0 as [k' Hl0].
          apply elem_of_cons in Hl0 as [[= _ ->]|Hl0].
          - split; [by rewrite Hl'1|].
            destruct (m0 !! l') eqn:E0; [|done].
            destruct (Hm0 l' ltac:(eauto)) as [x Hx]. congruence.
          - apply H3. apply refs_elem. eauto. }
        simpl. rewrite H4, Hl'1. f_equal.
        apply view_ext. intros l0 Hl0. apply Hold. by apply Hrest.
Qed.

Lemma get_elem {V} (d : list (string * V)) (k : string) (v : V) :
  pydict.get d k = Some v -> (k, v) ∈ d.
Proof.
  induction d as [|[k0 v0] d IH]; simpl; [done|].
  destruct (String.eqb_spec k0 k) as [->|Hne].
  - intros [= ->]. by left.
  - intros H. right. by apply IH.
Qed.

Lemma view_keys (m : gmap nat (list (string * string)))
    (d : list (string * objects.ref)) :
  (objects.view m d).*1 = d.*1.
Proof.
  induction d as [|[k v] d IH]; [done|].
  change (k :: (objects.view m d).*1 = k :: d.*1). by rewrite IH.
Qed.

(** Freezing allocates the dictionaries of the copy, leaves the
    dictionaries of the original as they were, and the copy reads as the
    original. *)
Lemma ImmutableConfig__init__spec (config frozen : list (string * objects.ref))
    (m m1 : gmap nat (list (string * string))) :
  (forall l, l ∈ objects.refs config -> is_Some (m !! l)) ->
  objects.ImmutableConfig__init__ config m = Ok (frozen, m1) ->
  (forall l, l ∈ objects.refs frozen -> is_Some (m1 !! l) /\ m !! l = None)
  /\ (forall l, is_Some (m !! l) -> m1 !! l = m !! l)
  /\ _config.ImmutableConfig__init__ (objects.view m config)
     = Ok {| _config.__dict__ := objects.view m1 frozen |}.
Proof.
  intros Hvalid. unfold objects.ImmutableConfig__init__, objects._UpdateDict,
    _config.ImmutableConfig__init__, _config._UpdateDict, _config.invalid_key.
  rewrite view_keys.
  destruct (find _ _) as [key|]; [done|].
  unfold objects.deepcopy.
  destruct (objects.deepcopy_items config ∅ m) as [[copy memo] m'] eqn:E.
  intros [= <- <-].
  destruct (deepcopy_items_spec m _ _ _ _ _ _ E Hvalid) as (H1 & _ & H3 & H4);
    [done | by intros l l' ?%lookup_empty_Some |].
  split; [|split; [done|]].
  - intros l [Hl|Hl]%refs_update; [by apply elem_of_nil in Hl|]. by apply H3.
  - by rewrite view_update, H4.
Qed.

(** One mutation of the original keeps the dictionaries of the frozen
    copy as they are, and the original apart from them. *)
Lemma mutate_frame (frozen : list (string * objects.ref))
    (m1 : gmap nat (list (string * string))) (mu : objects.mutation)
    (st st' : list (string * objects.ref)
              * gmap nat (list (string * string))) :
  (forall l, l ∈ objects.refs frozen -> is_Some (m1 !! l)) ->
  objects.no_alias frozen mu ->
  (forall l, l ∈ objects.refs frozen -> st.2 !! l = m1 !! l) ->
  (forall l, l ∈ objects.refs st.1 -> l ∉ objects.refs frozen) ->
  objects.mutate mu st = Ok st' ->
  (forall l, l ∈ objects.refs frozen -> st'.2 !! l = m1 !! l)
  /\ (forall l, l ∈ objects.refs st'.1 -> l ∉ objects.refs frozen).
Proof.
  destruct st as [config m], st' as [config' m']. cbn [fst snd].
  intros Hdom Hmu Hsame Hsep.
  assert (Hattr : forall name l d,
            objects.attr_dict config m name = Ok (l, d) ->
            l ∉ objects.refs frozen).
  { intros name l d. unfold objects.attr_dict.
    destruct (pydict.get config name) as [[| |l0]|] eqn:E; try done.
    destruct (m !! l0); [|done]. intros [= -> _]. apply Hsep.
    apply refs_elem. exists name. by apply get_elem. }
  destruct mu as [name v|name content|name key v|name key];
    cbn [objects.mutate].
  - unfold objects.Config__setattr__.
    destruct (negb (pydict.mem config name)); [done|].
    intros [= <- <-]. split; [done|].
    intros l [Hl| ->]%refs_set; [by apply Hsep | exact Hmu].
  - unfold objects.alloc, objects.Config__setattr__.
    destruct (negb (pydict.mem config name)); [done|].
    intros [= <- <-].
    assert (Hnew : fresh (dom m) ∉ objects.refs frozen).
    { intros Hin. apply (is_fresh (dom m)). apply elem_of_dom.
      rewrite Hsame by done. by apply Hdom. }
    split.
    + intros l Hl. rewrite lookup_insert_ne; [by apply Hsame|].
      by intros <-.
    + intros l [Hl|[= <-]]%refs_set; [by apply Hsep | done].
  - destruct (objects.attr_dict config m name) as [[l d]|e] eqn:E; [|done].
    intros [= <- <-]. split; [|done].
    intros l0 Hl0. rewrite lookup_insert_ne; [by apply Hsame|].
    intros <-. by apply (Hattr _ _ _ E).
  - destruct (objects.attr_dict config m name) as [[l d]|e] eqn:E; [|done].
    destruct (pydict.mem d key); [|done].
    intros [= <- <-]. split; [|done].
    intros l0 Hl0. rewrite lookup_insert_ne; [by apply Hsame|].
    intros <-. by apply (Hattr _ _ _ E).
Qed.

Lemma mutate_all_frame (frozen : list (string * objects.ref))
    (m1 : gmap nat (list (string * string))) (mus : list objects.mutation) :
  (forall l, l ∈ objects.refs frozen -> is_Some (m1 !! l)) ->
  Forall (objects.no_alias frozen) mus ->
  forall st,
  (forall l, l ∈ objects.refs frozen -> st.2 !! l = m1 !! l) ->
  (forall l, l ∈ objects.refs st.1 -> l ∉ objects.refs frozen) ->
  forall l, l ∈ objects.refs frozen ->
            (objects.mutate_all mus st).2 !! l = m1 !! l.
Proof.
  intros Hdom. unfold objects.mutate_all.
  induction 1 as [|mu mus Hmu _ IH]; intros st Hsame Hsep; cbn [fold_left].
  - done.
  - destruct (objects.mutate mu st) as [st'|e] eqn:E.
    + destruct (mutate_frame _ _ _ _ _ Hdom Hmu Hsame Hsep E) as [H1 H2].
      by apply IH.
    + by apply IH.
Qed.

(** C7 (amended).  Freeze a configuration whose dictionaries exist,
    then mutate the original any number of times: by assigning to a
    field (a value, or a new dictionary), by setting or deleting an
    entry of a nested mapping such as [environment_variables] or
    [properties].  Provided the mutations assign to the original no
    dictionary object of the frozen copy itself, the frozen copy holds
    the values the original had when it was frozen, and every value
    observable through it is after the mutations what it was before. *)
Theorem frozen_unaffected_by_mutation
    (config frozen : list (string * objects.ref))
    (m m1 : gmap nat (list (string * string)))
    (mus : list objects.mutation) :
  (forall l, l ∈ objects.refs config -> is_Some (m !! l)) ->
  objects.ImmutableConfig__init__ config m = Ok (frozen, m1) ->
  Forall (objects.no_alias frozen) mus ->
  _config.ImmutableConfig__init__ (objects.view m config)
  = Ok {| _config.__dict__ := objects.view m1 frozen |}
  /\ objects.view (objects.mutate_all mus (config, m1)).2 frozen
     = objects.view m1 frozen.
Proof.
  intros Hvalid Hinit Hmus.
  destruct (ImmutableConfig__init__spec _ _ _ _ Hvalid Hinit)
    as (Hnew & Hold & Hview).
  split; [done|]. apply view_ext.
  apply mutate_all_frame; try done.
  - intros l Hl. by apply Hnew.
  - cbn [fst]. intros l Hl Hin. apply Hnew in Hin as [_ Hin].
    apply Hvalid in Hl as [x Hx]. congruence.
Qed.

Lemma frozen_unaffected_by_mutation_witness :
  objects.view
    (objects.mutate_all examples.mutations
       (examples.config_object, examples.frozen_heap)).2
    examples.frozen_object
  = [ ("environment_variables", VMap [("A", "1")]);
      ("project", VStr "p");
      ("properties", VMap [("core/account", "a")]) ]
  /\ objects.view
       (objects.mutate_all examples.mutations
          (examples.config_object, examples.frozen_heap)).2
       (objects.mutate_all examples.mutations
          (examples.config_object, examples.frozen_heap)).1
     = [ ("environment_variables", VMap [("B", "3"); ("C", "4")]);
         ("project", VNone);
         ("properties", VMap [("core/project", "q")]) ].
Proof.
  assert (H1 : forall l, l ∈ objects.refs examples.config_object ->
                         is_Some (examples.heap !! l)).
  { intros l Hl. change (l ∈ [0; 1]) in Hl.
    apply elem_of_cons in Hl as [->|Hl]; [eexists; vm_compute; reflexivity|].
    apply elem_of_cons in Hl as [->|Hl]; [eexists; vm_compute; reflexivity|].
    by apply elem_of_nil in Hl. }
  assert (H2 : objects.ImmutableConfig__init__ examples.config_object
                 examples.heap
               = Ok (examples.frozen_object, examples.frozen_heap))
    by (vm_compute; reflexivity).
  assert (H3 : Forall (objects.no_alias examples.frozen_object)
                 examples.mutations).
  { unfold examples.mutations.
    repeat (constructor; [exact I|]). constructor. }
  destruct (frozen_unaffected_by_mutation _ _ _ _ _ H1 H2 H3) as [_ Hb].
  split.
  - rewrite Hb. vm_compute. reflexivity.
  - vm_compute. reflexivity.
Defined.

(** Without the proviso the property fails.  [__getitem__] on the
    frozen copy gives its own dictionary object; assigned to a field of
    the original it is stored by reference, and an entry set through
    the original after that is seen through the frozen copy: its
    [environment_variables] go from [A=1] to [A=2]. *)
Lemma frozen_changed_through_shared_dictionary :
  objects.ImmutableConfig__init__ examples.config_object examples.heap
  = Ok (examples.frozen_object, examples.frozen_heap)
  /\ objects.__getitem__ examples.frozen_object "environment_variables"
     = Ok (objects.RDict 2)
  /\ examples.aliasing_mutations
     = [ objects.SetAttr "environment_variables" (objects.RDict 2);
         objects.SetEntry "environment_variables" "A" "2" ]
  /\ objects.view examples.frozen_heap examples.frozen_object
     = [ ("environment_variables", VMap [("A", "1")]);
         ("project", VStr "p");
         ("properties", VMap [("core/account", "a")]) ]
  /\ objects.view
       (objects.mutate_all examples.aliasing_mutations
          (examples.config_object, examples.frozen_heap)).2
       examples.frozen_object
     = [ ("environment_variables", VMap [("A", "2")]);
         ("project", VStr "p");
         ("properties", VMap [("core/account", "a")]) ].
Proof.
  repeat split; vm_compute; reflexivity.
Qed.

(* ===================================================================== *)
(** * Further properties of the code *)
(* ===================================================================== *)

(** ** The keys of a configuration *)

Lemma mem_true_iff {V} (d : list (string * V)) (k : string) :
  pydict.mem d k = true <-> k ∈ d.*1.
Proof.
  unfold pydict.mem. induction d as [|[k0 v0] d IH]; simpl.
  - split; [done | by intros ?%elem_of_nil].
  - rewrite elem_of_cons. destruct (String.eqb_spec k0 k) as [->|Hne].
    + split; [by left | done].
    + rewrite IH. split; [by right | by intros [->|]].
Qed.

Lemma mem_false_iff {V} (d : list (string * V)) (k : string) :
  pydict.mem d k = false <-> k ∉ d.*1.
Proof.
  rewrite <- mem_true_iff. by destruct (pydict.mem d k).
Qed.

Lemma set_keys_mem {V} (d : list (string * V)) (k : string) (v : V) :
  k ∈ d.*1 -> (pydict.set d k v).*1 = d.*1.
Proof.
  induction d as [|[k0 v0] d IH]; cbn [pydict.set].
  - by intros ?%elem_of_nil.
  - rewrite fmap_cons, elem_of_cons. cbn [fst].
    destruct (String.eqb_spec k0 k) as [->|Hne].
    + done.
    + intros [->|Hin]; [done|]. by rewrite !fmap_cons, IH.
Qed.

Lemma update_keys {V} (d other : list (string * V)) :
  (forall k, k ∈ other.*1 -> k ∈ d.*1) ->
  (pydict.update d other).*1 = d.*1.
Proof.
  unfold pydict.update. revert d.
  induction other as [|[k v] other IH]; intros d Hin; [done|].
  cbn [fold_left fst snd]. rewrite IH.
  - apply set_keys_mem. apply Hin. by left.
  - intros k' Hk'. rewrite set_keys_mem by (apply Hin; by left).
    apply Hin. by right.
Qed.

(** A dictionary without a repeated key is what its items build. *)
Lemma update_app {V} (d other : list (string * V)) :
  NoDup (d ++ other).*1 -> pydict.update d other = d ++ other.
Proof.
  unfold pydict.update. revert d.
  induction other as [|[k v] other IH]; intros d Hnd.
  - by rewrite app_nil_r.
  - cbn [fold_left fst snd].
    assert (Hset : pydict.set d k v = d ++ [(k, v)]).
    { rewrite fmap_app in Hnd. apply NoDup_app in Hnd as (_ & Hdis & _).
      assert (Hk : k ∉ d.*1).
      { intros Hin. apply (Hdis k Hin). by left. }
      clear -Hk. induction d as [|[k0 v0] d IH]; simpl; [done|].
      simpl in Hk. rewrite not_elem_of_cons in Hk. destruct Hk as [Hne Hk].
      rewrite (proj2 (String.eqb_neq k0 k)) by done. by rewrite IH. }
    rewrite Hset, IH; rewrite <- app_assoc; done.
Qed.

Lemma of_items_NoDup {V} (d : list (string * V)) :
  NoDup d.*1 -> pydict.update [] d = d.
Proof. intros Hnd. by rewrite update_app. Qed.

Lemma invalid_key_None (d : list (string * value)) :
  _config.invalid_key d = None <->
  forall k, k ∈ d.*1 -> k ∈ constants.DEFAULT_CONFIG.*1.
Proof.
  unfold _config.invalid_key. split.
  - intros Hnone k Hin.
    pose proof (find_none _ _ Hnone k (proj1 (list_elem_of_In _ _) Hin)) as H.
    apply negb_false_iff in H. by apply mem_true_iff.
  - intros Hall. destruct (find _ _) as [key|] eqn:E; [|done].
    apply find_some in E as [Hin Hmem].
    apply list_elem_of_In, Hall, mem_true_iff in Hin.
    by rewrite Hin in Hmem.
Qed.

Lemma invalid_key_Some (d : list (string * value)) (key : string) :
  _config.invalid_key d = Some key ->
  key ∈ d.*1 /\ key ∉ constants.DEFAULT_CONFIG.*1.
Proof.
  unfold _config.invalid_key. intros [Hin Hmem]%find_some.
  split; [by apply list_elem_of_In|].
  apply mem_false_iff. by apply negb_true_iff.
Qed.

(** X1.  [_UpdateDict] checks every key before it changes anything: a
    dictionary with a key that the default configuration does not have
    is refused with a [ConfigError]; otherwise every key of the
    dictionary gets the dictionary's value and every other key keeps the
    value it had. *)
Theorem UpdateDict_spec (self dictionary : list (string * value)) :
  NoDup dictionary.*1 ->
  ((exists key, key ∈ dictionary.*1
                /\ key ∉ constants.DEFAULT_CONFIG.*1) ->
   exists msg,
     _config._UpdateDict self dictionary = Raise (ConfigError msg))
  /\ ((forall key, key ∈ dictionary.*1 ->
                   key ∈ constants.DEFAULT_CONFIG.*1) ->
      exists self',
        _config._UpdateDict self dictionary = Ok self'
        /\ forall k,
             pydict.get self' k
             = match pydict.get dictionary k with
               | Some v => Some v
               | None => pydict.get self k
               end).
Proof.
  intros Hnd. unfold _config._UpdateDict, error.RaiseInvalidKey. split.
  - intros (key & Hin & Hnot).
    destruct (_config.invalid_key dictionary) as [bad|] eqn:E; [eauto|].
    exfalso. apply Hnot. by apply (proj1 (invalid_key_None _) E).
  - intros Hall. rewrite (proj2 (invalid_key_None _) Hall).
    eexists. split; [done|]. intros k. by apply get_update.
Qed.

(** ** Constructing a [Config] *)

(** What a construction does, given what the file holds. *)
Lemma Config__init__eq (h : Host) (filename : option string)
    (overlay kwargs : list (string * value)) (w : World) :
  driver.overlay_of h w filename overlay ->
  driver.Config__init__ h filename kwargs w
  = (w, match error.ValidateLockedEnvironmentVariables overlay with
        | Raise e => Raise e
        | Ok _ =>
            match _config._UpdateDict constants.DEFAULT_CONFIG overlay with
            | Raise e => Raise e
            | Ok self =>
                match _config._UpdateDict self kwargs with
                | Raise e => Raise e
                | Ok self =>
                    match error.ValidateLockedEnvironmentVariables self with
                    | Raise e => Raise e
                    | Ok _ => Ok self
                    end
                end
            end
        end).
Proof.
  intros Hfile.
  assert (Hload :
    match filename with
    | Some f => driver.LoadFile h constants.DEFAULT_CONFIG f
    | None => ret constants.DEFAULT_CONFIG
    end w
    = (w, match error.ValidateLockedEnvironmentVariables overlay with
          | Raise e => Raise e
          | Ok _ => _config._UpdateDict constants.DEFAULT_CONFIG overlay
          end)).
  { destruct filename as [f|]; simpl in Hfile.
    - destruct Hfile as (Hne & content & Hread & Hyaml).
      unfold driver.LoadFile. apply String.eqb_neq in Hne. rewrite Hne.
      unfold bind, fs_read. rewrite Hread, Hyaml. done.
    - subst overlay. done. }
  unfold driver.Config__init__. unfold bind at 1.
  rewrite UpdateDict_defaults. unfold bind at 1. rewrite Hload.
  destruct (error.ValidateLockedEnvironmentVariables overlay); [|done].
  destruct (_config._UpdateDict constants.DEFAULT_CONFIG overlay); [|done].
  unfold bind. by destruct (_config._UpdateDict _ kwargs).
Qed.

(** A construction reads the file and changes nothing. *)
Lemma LoadFile_pure (h : Host) (self : list (string * value))
    (f : string) (w w' : World) (r : result (list (string * value))) :
  driver.LoadFile h self f w = (w', r) -> w' = w.
Proof.
  unfold driver.LoadFile, bind, fs_read, raise.
  destruct (String.eqb f ""); [by intros [= <- _]|].
  destruct (fs.read_file _ _) as [content|e]; [|by intros [= <- _]].
  destruct (yaml_load h content); by intros [= <- _].
Qed.

Lemma Config__init__pure (h : Host) (filename : option string)
    (kwargs : list (string * value)) (w w' : World)
    (r : result (list (string * value))) :
  driver.Config__init__ h filename kwargs w = (w', r) -> w' = w.
Proof.
  unfold driver.Config__init__. unfold bind at 1.
  rewrite UpdateDict_defaults. unfold bind at 1.
  destruct (match filename with
            | Some f => driver.LoadFile h constants.DEFAULT_CONFIG f
            | None => ret constants.DEFAULT_CONFIG
            end w) as [w1 r1] eqn:E.
  assert (w1 = w) as ->.
  { destruct filename as [f|]; [by apply LoadFile_pure in E|].
    by injection E as <- _. }
  destruct r1 as [self|e]; [|by intros [= <- _]].
  unfold bind. destruct (_config._UpdateDict self kwargs);
    by intros [= <- _].
Qed.

(** A construction that returns has read a mapping from the file, if a
    file was given. *)
Lemma Config__init__inv (h : Host) (filename : option string)
    (kwargs self : list (string * value)) (w w' : World) :
  driver.Config__init__ h filename kwargs w = (w', Ok self) ->
  exists overlay, driver.overlay_of h w filename overlay.
Proof.
  destruct filename as [f|]; [|by exists []].
  unfold driver.Config__init__. unfold bind at 1.
  rewrite UpdateDict_defaults. unfold bind at 1.
  unfold driver.LoadFile. unfold bind at 1, fs_read, raise.
  destruct (String.eqb_spec f "") as [->|Hne]; [done|].
  destruct (fs.read_file _ _) as [content|e] eqn:Hread; [|done].
  destruct (yaml_load h content) as [msg|overlay|] eqn:Hyaml; try done.
  intros _. exists overlay. split; [done|]. eauto.
Qed.

Lemma Config__init__ok (h : Host) (filename : option string)
    (overlay kwargs self : list (string * value)) (w w' : World) :
  driver.overlay_of h w filename overlay ->
  driver.Config__init__ h filename kwargs w = (w', Ok self) ->
  w' = w
  /\ self = pydict.update (pydict.update constants.DEFAULT_CONFIG overlay)
                          kwargs
  /\ _config.invalid_key overlay = None
  /\ _config.invalid_key kwargs = None
  /\ error.has_locked_variable self = false.
Proof.
  intros Hfile. rewrite (Config__init__eq _ _ _ _ _ Hfile).
  unfold _config._UpdateDict, error.RaiseInvalidKey.
  destruct (error.ValidateLockedEnvironmentVariables overlay); [|done].
  destruct (_config.invalid_key overlay); [done|].
  destruct (_config.invalid_key kwargs); [done|].
  set (merged :=
    pydict.update (pydict.update constants.DEFAULT_CONFIG overlay) kwargs).
  pose proof (ValidateLocked_spec merged) as Hv.
  destruct (error.has_locked_variable merged) eqn:Hl.
  - destruct Hv as [msg ->]. done.
  - rewrite Hv. by intros [= <- <-].
Qed.

(** X2.  The keys of a [Config] are fixed: whatever file and keyword
    arguments it was constructed from, a [Config] has exactly the five
    keys of the default configuration, its length is five, and
    [config[key]] returns for exactly these keys; the construction
    itself changes nothing. *)
Theorem Config_keys_fixed (h : Host) (filename : option string)
    (kwargs self : list (string * value)) (w w' : World) :
  driver.Config__init__ h filename kwargs w = (w', Ok self) ->
  w' = w
  /\ _config.keys self
     ≡ₚ ["environment_variables"; "service_account_email";
         "service_account_keyfile"; "project"; "properties"]
  /\ _config.__iter__ self = _config.keys self
  /\ _config.__len__ self = 5
  /\ forall key,
       match _config.__getitem__ self key with
       | Ok _ => (key ∈ constants.DEFAULT_CONFIG.*1)
       | Raise e => (key ∉ constants.DEFAULT_CONFIG.*1) /\ e = KeyError key
       end.
Proof.
  intros Hinit.
  destruct (Config__init__inv _ _ _ _ _ _ Hinit) as [overlay Hfile].
  destruct (Config__init__ok _ _ _ _ _ _ _ Hfile Hinit)
    as (-> & Hself & Hk1 & Hk2 & _).
  assert (Hkeys : self.*1 = constants.DEFAULT_CONFIG.*1).
  { rewrite Hself, !update_keys; [done| |].
    - by apply invalid_key_None.
    - intros k Hk. rewrite update_keys by (by apply invalid_key_None).
      by apply invalid_key_None in Hk. }
  split; [done|]. split; [unfold _config.keys; by rewrite Hkeys|].
  split; [done|]. split.
  - unfold _config.__len__.
    by rewrite <- (length_fmap fst), Hkeys.
  - intros key. unfold _config.__getitem__.
    destruct (pydict.get self key) as [v|] eqn:E.
    + rewrite <- Hkeys. apply mem_true_iff. unfold pydict.mem. by rewrite E.
    + split; [|done]. rewrite <- Hkeys. apply mem_false_iff.
      unfold pydict.mem. by rewrite E.
Qed.

(** X3.  [Config.__setattr__] and [Config.__setitem__] never create a
    key: a name the configuration does not have is refused with a
    [ConfigError]; for a name it has, the value is replaced, every other
    key keeps its value and the list of keys stays as it is. *)
Theorem Config_setattr_spec (self : list (string * value)) (name : string)
    (v : value) :
  driver.Config__setitem__ self name v = driver.Config__setattr__ self name v
  /\ (name ∉ _config.keys self ->
      exists msg,
        driver.Config__setattr__ self name v = Raise (ConfigError msg))
  /\ (name ∈ _config.keys self ->
      exists self',
        driver.Config__setattr__ self name v = Ok self'
        /\ _config.keys self' = _config.keys self
        /\ _config.__getitem__ self' name = Ok v
        /\ forall key, key <> name ->
             _config.__getitem__ self' key = _config.__getitem__ self key).
Proof.
  split; [done|]. unfold driver.Config__setattr__, _config.keys. split.
  - intros Hnot. apply mem_false_iff in Hnot. rewrite Hnot. simpl.
    unfold error.RaiseInvalidKey. eauto.
  - intros Hin. pose proof Hin as Hmem. apply mem_true_iff in Hmem.
    rewrite Hmem. simpl. eexists. split; [done|].
    split; [by apply set_keys_mem|]. unfold _config.__getitem__. split.
    + by rewrite get_set, String.eqb_refl.
    + intros key Hne. rewrite get_set.
      by rewrite (proj2 (String.eqb_neq name key)).
Qed.

Lemma overlay_of_inj (h : Host) (w : World) (filename : option string)
    (o1 o2 : list (string * value)) :
  driver.overlay_of h w filename o1 -> driver.overlay_of h w filename o2 ->
  o1 = o2.
Proof.
  destruct filename as [f|]; simpl; [|by intros -> ->].
  intros (_ & c1 & Hr1 & Hy1) (_ & c2 & Hr2 & Hy2).
  rewrite Hr1 in Hr2. injection Hr2 as <-. rewrite Hy1 in Hy2.
  by injection Hy2.
Qed.

(** X4.  The values of a [Config] come from the defaults, then the
    file, then the keyword arguments: a key has the value the keyword
    arguments give it; failing that, the value the file gives it;
    failing that, its default. *)
Theorem Config_precedence (h : Host) (filename : option string)
    (overlay kwargs self : list (string * value)) (w w' : World) :
  driver.overlay_of h w filename overlay ->
  NoDup overlay.*1 ->
  NoDup kwargs.*1 ->
  driver.Config__init__ h filename kwargs w = (w', Ok self) ->
  forall key,
    pydict.get self key
    = match pydict.get kwargs key with
      | Some v => Some v
      | None =>
          match pydict.get overlay key with
          | Some v => Some v
          | None => pydict.get constants.DEFAULT_CONFIG key
          end
      end.
Proof.
  intros Hfile Hnd1 Hnd2 Hinit key.
  destruct (Config__init__ok _ _ _ _ _ _ _ Hfile Hinit) as (_ & -> & _).
  by rewrite !get_update.
Qed.

(** X5.  New configuration values cannot be created: a construction
    from a file or from keyword arguments with a key that the default
    configuration does not have fails with a [ConfigError], and changes
    nothing. *)
Theorem Config_rejects_unknown_keys (h : Host) (filename : option string)
    (overlay kwargs : list (string * value)) (w : World) (key : string) :
  driver.overlay_of h w filename overlay ->
  key ∈ overlay.*1 \/ key ∈ kwargs.*1 ->
  key ∉ constants.DEFAULT_CONFIG.*1 ->
  exists msg,
    driver.Config__init__ h filename kwargs w = (w, Raise (ConfigError msg)).
Proof.
  intros Hfile Hkey Hnot. rewrite (Config__init__eq _ _ _ _ _ Hfile).
  pose proof (ValidateLocked_spec overlay) as Hov.
  destruct (error.has_locked_variable overlay).
  { destruct Hov as [msg ->]. eauto. }
  rewrite Hov. unfold _config._UpdateDict, error.RaiseInvalidKey.
  destruct (_config.invalid_key overlay) as [bad|] eqn:E1; [eauto|].
  destruct (_config.invalid_key kwargs) as [bad|] eqn:E2; [eauto|].
  exfalso. apply Hnot.
  destruct Hkey as [Hin|Hin].
  - by apply (proj1 (invalid_key_None _) E1).
  - by apply (proj1 (invalid_key_None _) E2).
Qed.

Lemma UpdateDict_spec_witness :
  exists self',
    _config._UpdateDict constants.DEFAULT_CONFIG [("project", VStr "p")]
    = Ok self'
    /\ pydict.get self' "project" = Some (VStr "p")
    /\ pydict.get self' "properties" = Some (VMap []).
Proof.
  destruct (UpdateDict_spec constants.DEFAULT_CONFIG
              [("project", VStr "p")]) as [_ H].
  { apply (bool_decide_unpack _). by vm_compute. }
  destruct H as (self' & Heq & Hget).
  { intros key Hin. apply list_elem_of_singleton in Hin as ->.
    apply (bool_decide_unpack _). by vm_compute. }
  exists self'. split; [exact Heq|]. by rewrite !Hget.
Defined.

Lemma Config_keys_fixed_witness :
  _config.__len__
    (pydict.update constants.DEFAULT_CONFIG [("project", VStr "p")]) = 5
  /\ _config.__getitem__
       (pydict.update constants.DEFAULT_CONFIG [("project", VStr "p")])
       "project" = Ok (VStr "p").
Proof.
  assert (H : driver.Config__init__ examples.host None
                [("project", VStr "p")] examples.world
              = (examples.world,
                 Ok (pydict.update constants.DEFAULT_CONFIG
                       [("project", VStr "p")])))
    by (vm_compute; reflexivity).
  destruct (Config_keys_fixed _ _ _ _ _ _ H) as (_ & _ & _ & Hlen & _).
  split; [exact Hlen | reflexivity].
Defined.

Lemma Config_setattr_spec_witness :
  exists self',
    driver.Config__setattr__ constants.DEFAULT_CONFIG "project" (VStr "p")
    = Ok self'
    /\ _config.__getitem__ self' "project" = Ok (VStr "p")
    /\ _config.__getitem__ self' "properties" = Ok (VMap []).
Proof.
  destruct (Config_setattr_spec constants.DEFAULT_CONFIG "project"
              (VStr "p")) as (_ & _ & H).
  destruct H as (self' & Heq & _ & Hget & Hother).
  { apply (bool_decide_unpack _). by vm_compute. }
  exists self'. split; [exact Heq|]. split; [exact Hget|].
  by rewrite Hother.
Defined.

Lemma Config_precedence_witness :
  pydict.get
    (pydict.update constants.DEFAULT_CONFIG [("project", VStr "p")])
    "project" = Some (VStr "p").
Proof.
  assert (H : driver.Config__init__ examples.host None
                [("project", VStr "p")] examples.world
              = (examples.world,
                 Ok (pydict.update constants.DEFAULT_CONFIG
                       [("project", VStr "p")])))
    by (vm_compute; reflexivity).
  rewrite (Config_precedence examples.host None [] [("project", VStr "p")]
             _ _ _ eq_refl (NoDup_nil_2 (A := string))
             ltac:(apply (bool_decide_unpack _); by vm_compute) H).
  reflexivity.
Defined.

Lemma Config_rejects_unknown_keys_witness :
  exists msg,
    driver.Config__init__ examples.host None [("foo", VStr "bar")]
      examples.world
    = (examples.world, Raise (ConfigError msg)).
Proof.
  apply (Config_rejects_unknown_keys examples.host None []
           [("foo", VStr "bar")] examples.world "foo").
  - reflexivity.
  - right. by left.
  - apply (bool_decide_unpack _). by vm_compute.
Defined.

(** ** Creating an SDK object from a configuration *)

(** X6.  For a configuration with the keys of the default
    configuration, as every [Config] has them, [SDK.__init__] validates
    once more: it fails with a [ConfigError] if the
    [environment_variables] hold a locked name (an assignment to the
    field is not checked when it is made), and otherwise the new object
    holds a frozen configuration with exactly the values of the
    configuration, and the directory, name and environment it was
    given. *)
Theorem SDK_init_spec (cfg : list (string * value))
    (sdk_dir config_name : string) (env : gmap string string) :
  _config.keys cfg ≡ₚ constants.DEFAULT_CONFIG.*1 ->
  (error.has_locked_variable cfg = true ->
   exists msg,
     driver.SDK__init__ cfg sdk_dir config_name env
     = Raise (ConfigError msg))
  /\ (error.has_locked_variable cfg = false ->
      driver.SDK__init__ cfg sdk_dir config_name env
      = Ok {| driver.config := {| _config.__dict__ := cfg |};
              driver._sdk_dir := sdk_dir;
              driver._config_name := config_name;
              driver._env := env |}).
Proof.
  unfold _config.keys. intros Hkeys.
  unfold driver.SDK__init__, driver.Validate.
  pose proof (ValidateLocked_spec cfg) as Hv. split; intros Hl.
  - rewrite Hl in Hv. destruct Hv as [msg ->]. eauto.
  - rewrite Hl in Hv. rewrite Hv.
    unfold _config.ImmutableConfig__init__, _config._UpdateDict.
    rewrite (proj2 (invalid_key_None cfg)) by (intros k; by rewrite Hkeys).
    rewrite of_items_NoDup; [done|]. rewrite Hkeys.
    apply (bool_decide_unpack _). by vm_compute.
Qed.

Lemma SDK_init_spec_witness :
  (exists msg,
     driver.SDK__init__
       (pydict.set constants.DEFAULT_CONFIG "environment_variables"
          (VMap [("CLOUDSDK_CONFIG", "/elsewhere")]))
       "/work/google-cloud-sdk" "configabcdefgh" ∅
     = Raise (ConfigError msg))
  /\ driver.config <$>
       match driver.SDK__init__ constants.DEFAULT_CONFIG
               "/work/google-cloud-sdk" "configabcdefgh" ∅ with
       | Ok sdk => Some sdk
       | Raise _ => None
       end
     = Some {| _config.__dict__ := constants.DEFAULT_CONFIG |}.
Proof.
  split.
  - apply SDK_init_spec; reflexivity.
  - assert (Hkeys : _config.keys constants.DEFAULT_CONFIG
                    ≡ₚ constants.DEFAULT_CONFIG.*1) by reflexivity.
    destruct (SDK_init_spec constants.DEFAULT_CONFIG
                "/work/google-cloud-sdk" "configabcdefgh" ∅ Hkeys)
      as [_ H].
    by rewrite (H eq_refl).
Defined.

(** ** The hash of a frozen configuration *)

Lemma int16_from_bound (s : string) :
  forall acc : Z,
  Forall (fun c => is_Some (json.hex_value c)) (list_ascii_of_string s) ->
  (0 <= acc)%Z ->
  exists n,
    json.int16_from acc s = Ok n
    /\ (acc * 16 ^ Z.of_nat (String.length s) <= n
        < (acc + 1) * 16 ^ Z.of_nat (String.length s))%Z.
Proof.
  induction s as [|c s IH]; intros acc Hhex Hacc.
  - exists acc. split; [done|]. simpl. lia.
  - cbn [list_ascii_of_string] in Hhex.
    apply Forall_cons in Hhex as [[d Hd] Hhex].
    cbn [json.int16_from]. rewrite Hd.
    assert (Hrange : (0 <= d < 16)%Z).
    { unfold json.hex_value in Hd.
      repeat match type of Hd with
             | (if ?b then _ else _) = _ => destruct b eqn:?
             end; try done; injection Hd as <-; lia. }
    destruct (IH (16 * acc + d)%Z Hhex ltac:(lia)) as (n & -> & Hn).
    exists n. split; [done|].
    cbn [String.length]. rewrite Nat2Z.inj_succ, Z.pow_succ_r by lia.
    nia.
Qed.

(** X7.  Whenever MD5 delivers its digest as 32 hexadecimal digits,
    [__hash__] returns, and its value is a natural number below
    [2^128]. *)
Theorem hash_range (h : Host) (self : _config.ImmutableConfig) :
  String.length (md5_hexdigest h (_config._Key self)) = 32 ->
  Forall (fun c => is_Some (json.hex_value c))
         (list_ascii_of_string (md5_hexdigest h (_config._Key self))) ->
  exists n,
    _config.__hash__ h self = Ok n /\ (0 <= n < 2 ^ 128)%Z.
Proof.
  intros Hlen Hhex. unfold _config.__hash__, json.int16.
  destruct (int16_from_bound _ 0%Z Hhex ltac:(lia)) as (n & Hn & Hb).
  rewrite Hlen in Hb.
  destruct (md5_hexdigest h (_config._Key self)) eqn:E; [done|].
  exists n. split; [done|].
  change (16 ^ Z.of_nat 32)%Z with (2 ^ 128)%Z in Hb. lia.
Qed.

Lemma hash_range_witness :
  exists n,
    _config.__hash__ examples.host
      {| _config.__dict__ := constants.DEFAULT_CONFIG |} = Ok n
    /\ (0 <= n < 2 ^ 128)%Z.
Proof.
  apply hash_range.
  - reflexivity.
  - apply (bool_decide_unpack _). by vm_compute.
Defined.

(** ** The environment of an SDK object *)

(** [PrepareEnviron] in one piece. *)
Lemma PrepareEnviron_eq (h : Host)
    (os_environ user_environ : gmap string string)
    (config_name sdk_dir : string) :
  _config.PrepareEnviron h os_environ user_environ config_name sdk_dir
  = match os_environ !! "PATH" with
    | None => Raise (KeyError "PATH")
    | Some host_path =>
        let path :=
          str_join ":"
            (posixpath.join sdk_dir constants.BIN_FOLDER
             :: match user_environ !! "PATH" with
                | None => [host_path]
                | Some p => if str_contains host_path p then [p]
                            else [p; host_path]
                end) in
        let python_path :=
          str_join ":"
            match user_environ !! constants.PYTHON_PATH with
            | Some pp => pp :: sys_path h
            | None => sys_path h
            end in
        let base :=
          <[constants.CONFIG_ENV := posixpath.join sdk_dir config_name]>
            (<["PATH" := path]> user_environ) in
        match user_environ !! constants.PYTHON_ENV with
        | Some _ => Ok (<[constants.PYTHON_PATH := python_path]> base)
        | None =>
            match sys_executable h with
            | Some exe =>
                if String.eqb exe ""
                then Raise (SDKError
                  ("Neither sys.executable nor the " +:+ constants.PYTHON_ENV
                   +:+ " environment variable are set."))
                else Ok (<[constants.PYTHON_PATH := python_path]>
                           (<[constants.PYTHON_ENV := exe]> base))
            | None =>
                Raise (SDKError
                  ("Neither sys.executable nor the " +:+ constants.PYTHON_ENV
                   +:+ " environment variable are set."))
            end
        end
    end.
Proof.
  unfold _config.PrepareEnviron.
  destruct (os_environ !! "PATH") as [host_path|]; [|done].
  cbv zeta.
  set (path := str_join posixpath.pathsep _).
  assert (Hpath : path = str_join ":"
            (posixpath.join sdk_dir constants.BIN_FOLDER
             :: match user_environ !! "PATH" with
                | None => [host_path]
                | Some p => if str_contains host_path p then [p]
                            else [p; host_path]
                end)).
  { subst path. destruct (user_environ !! "PATH") as [p|]; [|done].
    by destruct (str_contains host_path p). }
  rewrite <- Hpath. clearbody path. clear Hpath.
  rewrite !lookup_insert_ne by done.
  destruct (user_environ !! constants.PYTHON_ENV) as [py|] eqn:Hpy.
  - rewrite !lookup_insert_ne by done.
    by destruct (user_environ !! constants.PYTHON_PATH).
  - destruct (sys_executable h) as [exe|]; [|done].
    destruct (String.eqb exe ""); [done|].
    rewrite !lookup_insert_ne by done.
    by destruct (user_environ !! constants.PYTHON_PATH).
Qed.

(** X8.  What [PrepareEnviron] returns: the configuration directory is
    always the one of this SDK object, [sdk_dir/config_name], whatever
    the user's variables say; the interpreter is the user's if given,
    else [sys.executable]; [PYTHONPATH] is the user's value, if any,
    followed by [sys.path]; and every other variable except [PATH] is
    exactly the user's. *)
Theorem PrepareEnviron_variables (h : Host)
    (os_environ user_environ env : gmap string string)
    (config_name sdk_dir : string) :
  _config.PrepareEnviron h os_environ user_environ config_name sdk_dir
    = Ok env ->
  env !! constants.CONFIG_ENV = Some (posixpath.join sdk_dir config_name)
  /\ env !! constants.PYTHON_ENV
     = match user_environ !! constants.PYTHON_ENV with
       | Some python => Some python
       | None => sys_executable h
       end
  /\ env !! constants.PYTHON_PATH
     = Some (str_join ":"
               match user_environ !! constants.PYTHON_PATH with
               | Some pp => pp :: sys_path h
               | None => sys_path h
               end)
  /\ forall var,
       var <> "PATH" -> var <> constants.CONFIG_ENV ->
       var <> constants.PYTHON_ENV -> var <> constants.PYTHON_PATH ->
       env !! var = user_environ !! var.
Proof.
  rewrite PrepareEnviron_eq.
  destruct (os_environ !! "PATH") as [host_path|]; [|done]. cbv zeta.
  destruct (user_environ !! constants.PYTHON_ENV) as [py|] eqn:Hpy.
  - intros [= <-]. repeat split.
    + rewrite lookup_insert_ne by done. apply lookup_insert_eq.
    + by rewrite !lookup_insert_ne.
    + apply lookup_insert_eq.
    + intros var H1 H2 H3 H4. by rewrite !lookup_insert_ne.
  - destruct (sys_executable h) as [exe|]; [|done].
    destruct (String.eqb exe ""); [done|].
    intros [= <-]. repeat split.
    + rewrite !lookup_insert_ne by done. apply lookup_insert_eq.
    + rewrite lookup_insert_ne by done. apply lookup_insert_eq.
    + apply lookup_insert_eq.
    + intros var H1 H2 H3 H4. by rewrite !lookup_insert_ne.
Qed.

Lemma PrepareEnviron_variables_witness :
  exists env,
    _config.PrepareEnviron examples.host (environ examples.world)
      {[ "CLOUDSDK_CONFIG" := "/mine"; "HOME" := "/home/u" ]}
      "configabcdefgh" "/work/google-cloud-sdk" = Ok env
    /\ env !! "CLOUDSDK_CONFIG"
       = Some "/work/google-cloud-sdk/configabcdefgh"
    /\ env !! "CLOUDSDK_PYTHON" = Some "/usr/bin/python"
    /\ env !! "HOME" = Some "/home/u".
Proof.
  destruct (PrepareEnviron_returns examples.host (environ examples.world)
              {[ "CLOUDSDK_CONFIG" := "/mine"; "HOME" := "/home/u" ]}
              "configabcdefgh" "/work/google-cloud-sdk" "/usr/bin"
              eq_refl (or_introl eq_refl)) as [env E].
  destruct (PrepareEnviron_variables _ _ _ _ _ _ E) as (H1 & H2 & _ & H4).
  exists env. split; [exact E|]. split; [exact H1|]. split; [exact H2|].
  by rewrite H4.
Defined.

(** X9.  [PrepareEnviron] returns exactly when the process environment
    has a [PATH] and an interpreter is known, from the user's variables
    or from [sys.executable].  Without a [PATH] in the process
    environment it raises [KeyError]; with one but no interpreter it
    raises [SDKError]. *)
Theorem PrepareEnviron_failure (h : Host)
    (os_environ user_environ : gmap string string)
    (config_name sdk_dir : string) :
  match _config.PrepareEnviron h os_environ user_environ config_name sdk_dir
  with
  | Ok _ =>
      is_Some (os_environ !! "PATH")
      /\ (is_Some (user_environ !! constants.PYTHON_ENV)
          \/ truthy (sys_executable h) = true)
  | Raise e =>
      (os_environ !! "PATH" = None /\ e = KeyError "PATH")
      \/ (is_Some (os_environ !! "PATH")
          /\ user_environ !! constants.PYTHON_ENV = None
          /\ truthy (sys_executable h) = false
          /\ exists msg, e = SDKError msg)
  end.
Proof.
  rewrite PrepareEnviron_eq.
  destruct (os_environ !! "PATH") as [host_path|]; [|by left]. cbv zeta.
  destruct (user_environ !! constants.PYTHON_ENV) as [py|] eqn:Hpy.
  - split; [done|]. by left.
  - destruct (sys_executable h) as [exe|]; simpl.
    + destruct (String.eqb exe ""); simpl.
      * right. repeat split; eauto.
      * split; [done|]. by right.
    + right. repeat split; eauto.
Qed.

(** ** Effects that respect a relation between states *)

Section respects.
Context (R : World -> World -> Prop) `{!Reflexive R} `{!Transitive R}.

Lemma respects_ret {A} (a : A) : respects R (ret a).
Proof. by intros w w' r [= <- _]. Qed.


Lemma respects_lift {A} (x : result A) : respects R (lift x).
Proof. by intros w w' r [= <- _]. Qed.

Lemma respects_bind {A B} (c : M A) (k : A -> M B) :
  respects R c -> (forall a, respects R (k a)) -> respects R (bind c k).
Proof.
  intros Hc Hk w w' r. unfold bind.
  destruct (c w) as [w1 [a|e]] eqn:E.
  - intros H. etrans; [by eapply Hc | by eapply Hk].
  - intros [= <- _]. by eapply Hc.
Qed.


Lemma respects_when (b : bool) (c : M unit) :
  respects R c -> respects R (when_ b c).
Proof. destruct b; [done|]. intros _. apply respects_ret. Qed.

Lemma respects_for {A} (l : list A) (body : A -> M unit) :
  (forall x, respects R (body x)) -> respects R (for_ l body).
Proof.
  intros Hb. induction l as [|x l IH]; simpl.
  - apply respects_ret.
  - apply respects_bind; [apply Hb | by intros _].
Qed.

End respects.

#[local] Instance only_adds_refl : Reflexive only_adds.
Proof. by intros w. Qed.

#[local] Instance only_adds_trans : Transitive only_adds.
Proof.
  intros w1 w2 w3 [H1 E1] [H2 E2]. split; [by etrans | congruence].
Qed.
















(** ** Downloading *)






(** ** Unpacking *)









(** ** The life cycle of the installation *)

(** An installation that returns has found the SDK directory, and was
    not given a string for the additional components. *)
Lemma install_into_ok (h : Host) (tar_location : string)
    (additional_components : driver.components) (root_directory : string)
    (w w' : World) :
  driver.install_into h tar_location additional_components root_directory w
    = (w', Ok tt) ->
  os.isdir_in h w'
    (posixpath.join root_directory constants.SDK_FOLDER) = true
  /\ (forall s, additional_components = driver.ComponentsStr s -> s = "").
Proof.
  unfold driver.install_into. intros H.
  apply bind_inv in H as [(w1 & dp & H1 & H)|(e & _ & [=])].
  apply bind_inv in H as [(w2 & url & H2 & H)|(e & _ & [=])].
  apply bind_inv in H as [(w3 & oe & [= <- <-] & H)|(e & [=] & _)].
  match type of H with (if ?b then _ else _) _ = _ => destruct b end;
    [done|].
  apply bind_inv in H as [(w3 & cmd & H3 & H)|(e & _ & [=])].
  assert (Hstr : forall s, additional_components = driver.ComponentsStr s ->
                           s = "").
  { intros s ->. simpl in H3. by destruct (String.eqb_spec s ""). }
  split; [|exact Hstr].
  apply bind_inv in H as [(w4 & res & H4 & H)|(e & _ & [=])].
  apply bind_inv in H as [(w5 & [] & H5 & H)|(e & _ & [=])].
  apply bind_inv in H as [(w6 & isd & [= <- <-] & H)|(e & [=] & _)].
  destruct (os.isdir_in h w5 _) eqn:Hisd; [|done].
  simpl in H. injection H as <-. exact Hisd.
Qed.

(** X17.  When [Init] returns, the driver was not initialised before
    and is now: the location variable names the root directory (the one
    the caller supplied, if any), the SDK directory below it exists, and
    no other variable of the process environment has changed, except
    that the keep marker is set when the supplied root directory was
    there already.  A string for the additional components is accepted
    only if it is empty. *)
Theorem Init_postcondition (h : Host) (tar_location : option string)
    (additional_components : driver.components)
    (root_directory : option string) (w w1 : World) :
  driver.Init h tar_location additional_components root_directory w
    = (w1, Ok tt) ->
  exists root,
    environ w !! constants.DRIVER_LOCATION_ENV = None
    /\ environ w1 !! constants.DRIVER_LOCATION_ENV = Some root
    /\ (forall r, root_directory = Some r -> root = r)
    /\ os.isdir_in h w1 (posixpath.join root constants.SDK_FOLDER) = true
    /\ environ w1 !! constants.DRIVER_KEEP_LOCATION_ENV
       = match root_directory with
         | Some r =>
             if os.isdir_in h w r then Some "True"
             else environ w !! constants.DRIVER_KEEP_LOCATION_ENV
         | None => environ w !! constants.DRIVER_KEEP_LOCATION_ENV
         end
    /\ (forall var,
          var <> constants.DRIVER_LOCATION_ENV ->
          var <> constants.DRIVER_KEEP_LOCATION_ENV ->
          environ w1 !! var = environ w !! var)
    /\ (forall s, additional_components = driver.ComponentsStr s ->
                  s = "").
Proof.
  intros Hinit.
  assert (Hnone : environ w !! constants.DRIVER_LOCATION_ENV = None).
  { unfold driver.Init in Hinit.
    destruct (driver._IsOnWindows h); [done|].
    unfold bind at 1, os.getenv in Hinit.
    by destruct (environ w !! constants.DRIVER_LOCATION_ENV). }
  destruct (Init_ok_inv _ _ _ _ _ _ Hinit) as (root & w0 & Hinst & Hroot).
  pose proof (install_into_environ _ _ _ _ _ _ _ Hinst) as Henv.
  simpl in Henv.
  destruct (install_into_ok _ _ _ _ _ _ Hinst) as [Hsdk Hstr].
  exists root. split; [done|]. rewrite Henv.
  split; [apply lookup_insert_eq|].
  assert (Hw0 : environ w0
                = match root_directory with
                  | Some r =>
                      if os.isdir_in h w r
                      then <[constants.DRIVER_KEEP_LOCATION_ENV := "True"]>
                             (environ w)
                      else environ w
                  | None => environ w
                  end).
  { destruct root_directory as [r|].
    - destruct Hroot as [_ Hroot]. destruct (os.isdir_in h w r).
      + by subst w0.
      + by apply keeps_makedirs in Hroot.
    - by apply keeps_makedirs in Hroot. }
  split.
  { intros r ->. by destruct Hroot. }
  split; [done|]. split.
  - rewrite lookup_insert_ne by done. rewrite Hw0.
    destruct root_directory as [r|]; [|done].
    destruct (os.isdir_in h w r); [|done]. apply lookup_insert_eq.
  - split; [|exact Hstr]. intros var H1 H2.
    rewrite lookup_insert_ne by done. rewrite Hw0.
    destruct root_directory as [r|]; [|done].
    destruct (os.isdir_in h w r); [|done]. by rewrite lookup_insert_ne.
Qed.

Lemma Init_postcondition_witness :
  environ examples.installed_in_existing_directory
    !! "CLOUDSDK_DRIVER_LOCATION" = Some "/work"
  /\ os.isdir_in examples.host examples.installed_in_existing_directory
       "/work/google-cloud-sdk" = true
  /\ environ examples.installed_in_existing_directory !! "PATH"
     = Some "/usr/bin".
Proof.
  assert (H : driver.Init examples.host (Some "http://host/dl/sdk.tar")
                driver.NoComponents (Some "/work") examples.world
              = (examples.installed_in_existing_directory, Ok tt))
    by (vm_compute; reflexivity).
  destruct (Init_postcondition _ _ _ _ _ _ H)
    as (root & _ & Hloc & Hroot & Hsdk & _ & Hframe & _).
  rewrite (Hroot "/work" eq_refl) in *.
  split; [exact Hloc|]. split; [exact Hsdk|].
  by rewrite Hframe.
Defined.

(** Without an installation no SDK object can be created. *)
Lemma SDKFromConfig_uninitialised (h : Host) (rng : nat -> nat)
    (cfg : list (string * value)) (w : World) :
  environ w !! constants.DRIVER_LOCATION_ENV = None ->
  driver.SDKFromConfig h rng cfg w
  = (w, Raise (SDKError ("Unable to locate the SDK. Make sure Init was "
                         +:+ "called before creating SDK objects."))).
Proof.
  intros Hloc. unfold driver.SDKFromConfig, bind, os.getenv.
  by rewrite Hloc.
Qed.

(** The choice of the root directory leaves the location variable
    alone. *)
Lemma Init_root_step (h : Host) (root_directory : option string)
    (w w0 : World) (r : result string) :
  match root_directory with
  | None => os.mkdtemp h
  | Some root_directory =>
      isd ← os.path_isdir h root_directory;
      (if negb isd then os.makedirs h root_directory
       else os.setenv constants.DRIVER_KEEP_LOCATION_ENV "True");;
      ret root_directory
  end w = (w0, r) ->
  environ w0 !! constants.DRIVER_LOCATION_ENV
  = environ w !! constants.DRIVER_LOCATION_ENV.
Proof.
  destruct root_directory as [rd|].
  - unfold bind at 1, os.path_isdir.
    destruct (os.isdir_in h w rd); cbn [negb]; intros H.
    + unfold bind, os.setenv, ret in H. injection H as <- _.
      cbn [environ set_environ]. by rewrite lookup_insert_ne.
    + apply bind_inv in H as [(w1 & [] & H & [= <- _])|(e & H & _)];
        apply keeps_makedirs in H; by rewrite H.
  - intros H. apply keeps_mkdtemp in H. by rewrite H.
Qed.

(** X18.  [Init] publishes the location last: an [Init] that raises, at
    whatever point, leaves the location variable as it was, so that
    after a failed [Init] of an uninitialised driver no SDK object can
    be created: [SDKFromConfig] raises [SDKError] and changes
    nothing. *)
Theorem Init_failure_unpublished (h : Host) (tar_location : option string)
    (additional_components : driver.components)
    (root_directory : option string) (w w' : World) (e : exn) :
  driver.Init h tar_location additional_components root_directory w
    = (w', Raise e) ->
  environ w' !! constants.DRIVER_LOCATION_ENV
  = environ w !! constants.DRIVER_LOCATION_ENV
  /\ (environ w !! constants.DRIVER_LOCATION_ENV = None ->
      forall rng cfg,
      exists msg,
        driver.SDKFromConfig h rng cfg w' = (w', Raise (SDKError msg))).
Proof.
  intros Hinit.
  assert (Hloc : environ w' !! constants.DRIVER_LOCATION_ENV
                 = environ w !! constants.DRIVER_LOCATION_ENV).
  { unfold driver.Init in Hinit.
    destruct (driver._IsOnWindows h); [by injection Hinit as <- _|].
    apply bind_inv in Hinit
      as [(w0 & loc & [= <- <-] & H)|(e0 & [=] & _)].
    destruct (bool_decide _); [by injection H as <- _|].
    apply bind_inv in H as [(w0 & root & Hroot & H)|(e0 & Hroot & _)].
    - apply Init_root_step in Hroot. rewrite <- Hroot.
      apply install_into_environ in H. by rewrite H.
    - by apply Init_root_step in Hroot. }
  split; [exact Hloc|]. intros Hnone rng cfg. eexists.
  apply SDKFromConfig_uninitialised. by rewrite Hloc.
Qed.

Lemma Init_failure_unpublished_witness :
  environ (driver.Init samples.offline_host (Some "http://host/dl/sdk.tar")
             driver.NoComponents (Some "/work") examples.world).1
    !! "CLOUDSDK_DRIVER_LOCATION" = None
  /\ exists msg,
       driver.SDKFromConfig samples.offline_host (fun i => i)
         constants.DEFAULT_CONFIG
         (driver.Init samples.offline_host (Some "http://host/dl/sdk.tar")
            driver.NoComponents (Some "/work") examples.world).1
       = ((driver.Init samples.offline_host (Some "http://host/dl/sdk.tar")
             driver.NoComponents (Some "/work") examples.world).1,
          Raise (SDKError msg)).
Proof.
  destruct (driver.Init samples.offline_host (Some "http://host/dl/sdk.tar")
              driver.NoComponents (Some "/work") examples.world)
    as [w' r] eqn:E.
  destruct r as [[]|e]; [by vm_compute in E|].
  destruct (Init_failure_unpublished _ _ _ _ _ _ _ E) as [H1 H2].
  split; [etrans; [exact H1 | reflexivity]|]. by apply H2.
Defined.

(** [Destroy] in one piece. *)
Lemma Destroy_eq (h : Host) (w : World) :
  driver.Destroy h w
  = ({| environ := delete constants.DRIVER_KEEP_LOCATION_ENV
                     (delete constants.DRIVER_LOCATION_ENV (environ w));
        files :=
          match environ w !! constants.DRIVER_LOCATION_ENV with
          | Some root =>
              if os.isdir_in h w root
                 && negb (truthy (environ w
                                  !! constants.DRIVER_KEEP_LOCATION_ENV))
              then filter (fun kv => fs.under (os.locate h root) kv.1
                                     = false) (files w)
              else files w
          | None => files w
          end;
        fetched := fetched w;
        stderr := stderr w |}, Ok tt).
Proof.
  unfold driver.Destroy.
  unfold bind at 1. unfold os.getenv at 1.
  unfold bind at 1. unfold os.getenv at 1.
  set (keep := environ w !! constants.DRIVER_KEEP_LOCATION_ENV).
  assert (Hpop : forall w0 : World,
    environ w0 = delete constants.DRIVER_LOCATION_ENV (environ w) ->
    match keep with
    | Some _ => os.environ_pop constants.DRIVER_KEEP_LOCATION_ENV
    | None => ret tt
    end w0
    = (set_environ (delete constants.DRIVER_KEEP_LOCATION_ENV
                      (delete constants.DRIVER_LOCATION_ENV (environ w)))
                   w0, Ok tt)).
  { intros w0 Hw0. destruct keep as [k|] eqn:Ek; subst keep.
    - unfold os.environ_pop. rewrite Hw0, lookup_delete_ne by done.
      by rewrite Ek.
    - unfold ret. f_equal. destruct w0 as [e0 f0 t0 s0]. simpl in *.
      unfold set_environ. simpl. f_equal. subst e0. symmetry.
      apply delete_id. by rewrite lookup_delete_ne. }
  destruct (environ w !! constants.DRIVER_LOCATION_ENV) as [root|] eqn:Hroot.
  - unfold bind at 1. unfold bind at 1. unfold bind at 1.
    unfold os.path_isdir.
    destruct (os.isdir_in h w root && negb (truthy keep)) eqn:Hcond;
      cbn [when_].
    + unfold os.rmtree, os.checked.
      apply andb_true_iff in Hcond as [Hdir _].
      assert (root <> "") as Hne.
      { intros ->. by unfold os.isdir_in in Hdir. }
      apply String.eqb_neq in Hne. rewrite Hne.
      unfold fs_update, fs.rmtree.
      assert (fs.isdir (files w) (os.locate h root) = true) as ->.
      { unfold os.isdir_in in Hdir. by apply andb_true_iff in Hdir as [_ ?]. }
      unfold os.environ_pop at 1. cbn [environ set_files]. rewrite Hroot.
      by rewrite Hpop.
    + unfold ret at 1. unfold os.environ_pop at 1. rewrite Hroot.
      rewrite Hpop by done. by destruct w.
  - unfold bind, ret at 1. rewrite Hpop.
    + by destruct w.
    + symmetry. by apply delete_id.
Qed.

(** X19.  On a file system without permissions or I/O failures,
    [Destroy] always returns.  Afterwards neither the location
    variable nor the keep marker is set and every other variable is as
    it was; nothing outside the root directory that the location
    variable named has changed, and nothing at all if the variable was
    not set or the keep marker had a non-empty value; and a second
    [Destroy] changes nothing. *)
Theorem Destroy_total (h : Host) (w : World) :
  exists w',
    driver.Destroy h w = (w', Ok tt)
    /\ environ w' !! constants.DRIVER_LOCATION_ENV = None
    /\ environ w' !! constants.DRIVER_KEEP_LOCATION_ENV = None
    /\ (forall var,
          var <> constants.DRIVER_LOCATION_ENV ->
          var <> constants.DRIVER_KEEP_LOCATION_ENV ->
          environ w' !! var = environ w !! var)
    /\ (forall root q,
          environ w !! constants.DRIVER_LOCATION_ENV = Some root ->
          fs.under (os.locate h root) q = false ->
          files w' !! q = files w !! q)
    /\ (environ w !! constants.DRIVER_LOCATION_ENV = None
        \/ truthy (environ w !! constants.DRIVER_KEEP_LOCATION_ENV) = true ->
        files w' = files w)
    /\ driver.Destroy h w' = (w', Ok tt).
Proof.
  eexists. split; [apply Destroy_eq|]. cbn [environ files].
  split; [by rewrite lookup_delete_ne, lookup_delete_eq|].
  split; [by rewrite lookup_delete_eq|].
  split; [by intros var H1 H2; rewrite !lookup_delete_ne|].
  split; [|split].
  - intros root q -> Hq.
    destruct (_ && _); [|done]. by rewrite rmtree_lookup, Hq.
  - intros [->|Hkeep]; [done|].
    destruct (environ w !! constants.DRIVER_LOCATION_ENV); [|done].
    rewrite Hkeep. cbn [negb]. by rewrite andb_false_r.
  - set (e' := delete constants.DRIVER_KEEP_LOCATION_ENV
                 (delete constants.DRIVER_LOCATION_ENV (environ w))).
    assert (H1 : e' !! constants.DRIVER_LOCATION_ENV = None).
    { subst e'. by rewrite lookup_delete_ne, lookup_delete_eq. }
    assert (H2 : e' !! constants.DRIVER_KEEP_LOCATION_ENV = None).
    { subst e'. by rewrite lookup_delete_eq. }
    rewrite Destroy_eq. cbn [environ files fetched stderr]. rewrite H1.
    rewrite (delete_id e' constants.DRIVER_LOCATION_ENV) by done.
    by rewrite (delete_id e' constants.DRIVER_KEEP_LOCATION_ENV).
Qed.

(** X20.  [Manager] always cleans up: however [Init] and the body of
    the [with] statement end, [Destroy] has run, so neither the location
    variable nor the keep marker is set afterwards, and the outcome is
    the one of [Init] followed by the body. *)
Theorem Manager_cleans_up {A} (h : Host) (tar_location : option string)
    (additional_components : driver.components)
    (root_directory : option string) (body : M A) (w w' : World)
    (r : result A) :
  driver.Manager h tar_location additional_components root_directory body w
    = (w', r) ->
  environ w' !! constants.DRIVER_LOCATION_ENV = None
  /\ environ w' !! constants.DRIVER_KEEP_LOCATION_ENV = None
  /\ exists w0,
       bind (driver.Init h tar_location additional_components
               root_directory) (fun _ => body) w = (w0, r)
       /\ driver.Destroy h w0 = (w', Ok tt).
Proof.
  unfold driver.Manager.
  destruct (bind _ _ w) as [w0 r0] eqn:E.
  rewrite Destroy_eq. intros [= <- <-]. cbn [environ].
  split; [by rewrite lookup_delete_ne, lookup_delete_eq|].
  split; [by rewrite lookup_delete_eq|].
  exists w0. split; [done|]. apply Destroy_eq.
Qed.

Lemma Manager_cleans_up_witness :
  environ (driver.Manager examples.host (Some "/sdk.tar")
             driver.NoComponents (Some "/work")
             (os.getenv constants.DRIVER_LOCATION_ENV) examples.world).1
    !! "CLOUDSDK_DRIVER_LOCATION" = None
  /\ (driver.Manager examples.host (Some "/sdk.tar")
        driver.NoComponents (Some "/work")
        (os.getenv constants.DRIVER_LOCATION_ENV) examples.world).2
     = Ok (Some "/work").
Proof.
  destruct (driver.Manager examples.host (Some "/sdk.tar")
              driver.NoComponents (Some "/work")
              (os.getenv constants.DRIVER_LOCATION_ENV) examples.world)
    as [w' r] eqn:E.
  destruct (Manager_cleans_up _ _ _ _ _ _ _ _ E) as (H1 & _ & w0 & H2 & _).
  split; [exact H1|].
  vm_compute in H2. by injection H2 as _ <-.
Defined.

Lemma Destroy_total_witness :
  exists w',
    driver.Destroy examples.host examples.installed_in_new_directory
    = (w', Ok tt)
    /\ environ w' !! "CLOUDSDK_DRIVER_LOCATION" = None
    /\ files w' !! ["sdk.tar"] = Some (fs.File "SDK").
Proof.
  destruct (Destroy_total examples.host examples.installed_in_new_directory)
    as (w' & H1 & H2 & _ & _ & Hout & _).
  exists w'. split; [exact H1|]. split; [exact H2|].
  rewrite (Hout "/srv" ["sdk.tar"]).
  - vm_compute. reflexivity.
  - vm_compute. reflexivity.
  - vm_compute. reflexivity.
Defined.

(** ** Running commands *)



(** X22.  A command that [_PrepareCommand] refuses starts nothing:
    [Run], [RunGcloudRawOutput] and [RunGcloud] raise what it raised (an
    [SDKError] for a command that is neither a string, a list nor a
    tuple) and leave the state as it was, without the timeout
    warning. *)
Theorem refused_command_runs_nothing (h : Host) (self : driver.SDK)
    (cmd : driver.command) (e : exn) (format_keys : option (list string))
    (formats filters : option string) (timeout : option Z)
    (env : option (gmap string string)) (w : World) :
  driver._PrepareCommand h cmd = Raise e ->
  driver.Run h self cmd timeout env w = (w, Raise e)
  /\ driver.RunGcloudRawOutput h self cmd formats filters timeout env w
     = (w, Raise e)
  /\ driver.RunGcloud h self cmd format_keys filters timeout env w
     = (w, Raise e)
  /\ (forall repr, cmd = driver.CmdOther repr -> exists msg, e = SDKError msg).
Proof.
  intros Hcmd. split; [|split; [|split]].
  - unfold driver.Run. by rewrite Hcmd.
  - unfold driver.RunGcloudRawOutput. by rewrite Hcmd.
  - unfold driver.RunGcloud, bind, driver.RunGcloudRawOutput.
    by rewrite Hcmd.
  - intros repr ->. simpl in Hcmd. injection Hcmd as <-. eauto.
Qed.

Lemma refused_command_runs_nothing_witness :
  exists msg,
    driver.RunGcloud examples.host examples.sdk (driver.CmdOther "42")
      None None None None examples.world
    = (examples.world, Raise (SDKError msg)).
Proof.
  destruct (refused_command_runs_nothing examples.host examples.sdk
              (driver.CmdOther "42") _ None None None None None
              examples.world eq_refl) as (_ & _ & H & Hmsg).
  destruct (Hmsg "42" eq_refl) as [msg Hm]. exists msg.
  rewrite H. by rewrite Hm.
Defined.

(** ** Creating SDK objects *)

Lemma keeps_lift {A} (x : result A) : keeps_environ (lift x).
Proof. by intros w w' r [= <- _]. Qed.

Lemma keeps_stderr_write (line : string) :
  keeps_environ (os.stderr_write line).
Proof. by intros w w' r [= <- _]. Qed.

Lemma keeps_Run (h : Host) (self : driver.SDK) (cmd : driver.command)
    (timeout : option Z) (env : option (gmap string string)) :
  keeps_environ (driver.Run h self cmd timeout env).
Proof.
  unfold driver.Run. destruct (driver._PrepareCommand h cmd);
    [|apply keeps_raise].
  destruct (TIMEOUT_ENABLED h); [apply keeps_subprocess_run|].
  apply keeps_bind; [apply keeps_subprocess_run|]. intros r.
  apply keeps_bind; [|intros _; apply keeps_ret].
  apply keeps_when, keeps_stderr_write.
Qed.

Lemma keeps_RunGcloudRawOutput (h : Host) (self : driver.SDK)
    (cmd : driver.command) (formats filters : option string)
    (timeout : option Z) (env : option (gmap string string)) :
  keeps_environ
    (driver.RunGcloudRawOutput h self cmd formats filters timeout env).
Proof.
  unfold driver.RunGcloudRawOutput.
  destruct (driver._PrepareCommand h cmd); [|apply keeps_raise].
  apply keeps_Run.
Qed.

Lemma keeps_RunGcloudRawOutput_values (h : Host) (self : driver.SDK)
    (command : list value) :
  keeps_environ (driver.RunGcloudRawOutput_values h self command).
Proof.
  unfold driver.RunGcloudRawOutput_values.
  apply keeps_bind; [apply keeps_lift|]. intros argv.
  apply keeps_RunGcloudRawOutput.
Qed.

Lemma keeps_RunInitializationCommands (h : Host) (self : driver.SDK) :
  keeps_environ (driver.RunInitializationCommands h self).
Proof.
  unfold driver.RunInitializationCommands.
  apply keeps_bind; [apply keeps_lift|]. intros keyfile.
  apply keeps_bind.
  { apply keeps_when. apply keeps_bind; [apply keeps_lift|]. intros email.
    apply keeps_bind; [apply keeps_RunGcloudRawOutput_values|].
    intros r. apply keeps_HandlePossibleError. }
  intros _. apply keeps_bind; [apply keeps_lift|]. intros project.
  apply keeps_bind.
  { apply keeps_when.
    apply keeps_bind; [apply keeps_RunGcloudRawOutput_values|].
    intros r. apply keeps_HandlePossibleError. }
  intros _. apply keeps_bind; [apply keeps_lift|]. intros properties.
  apply keeps_when. destruct properties; try apply keeps_raise.
  apply keeps_for. intros kv.
  apply keeps_bind; [apply keeps_RunGcloudRawOutput|].
  intros r. apply keeps_HandlePossibleError.
Qed.

Lemma string_length_app (a b : string) :
  String.length (a +:+ b) = String.length a + String.length b.
Proof. induction a as [|c a IH]; simpl; [done | by rewrite IH]. Qed.

Lemma string_of_list_ascii_length (l : list ascii) :
  String.length (string_of_list_ascii l) = length l.
Proof. induction l as [|c l IH]; simpl; [done | by rewrite IH]. Qed.

Lemma string_get_elem (s : string) (n : nat) :
  n < String.length s ->
  exists c, String.get n s = Some c /\ c ∈ list_ascii_of_string s.
Proof.
  revert n. induction s as [|c s IH]; intros n Hn; simpl in *; [lia|].
  destruct n as [|n].
  - exists c. split; [done | by left].
  - destruct (IH n ltac:(lia)) as (c' & Hget & Hin).
    exists c'. split; [done | by right].
Qed.

Lemma choice_elem (alphabet : string) (draw : nat) :
  alphabet <> "" ->
  driver.choice alphabet draw ∈ list_ascii_of_string alphabet.
Proof.
  intros Hne. unfold driver.choice.
  destruct (string_get_elem alphabet (draw mod String.length alphabet))
    as (c & -> & Hin); [|done].
  apply Nat.mod_upper_bound. by destruct alphabet.
Qed.

(** The name of a configuration: [config] and eight characters of the
    alphabet. *)
Lemma random_config_name_shape (rng : nat -> nat) :
  exists suffix,
    driver.random_config_name rng = "config" +:+ suffix
    /\ String.length suffix = 8
    /\ Forall (fun c => c ∈ list_ascii_of_string
                              driver.config_name_alphabet)
              (list_ascii_of_string suffix).
Proof.
  unfold driver.random_config_name. eexists. split; [done|]. split.
  - by rewrite string_of_list_ascii_length, length_map, length_seq.
  - rewrite list_ascii_of_string_of_list_ascii. apply Forall_forall.
    intros c (i & -> & _)%list_elem_of_fmap. by apply choice_elem.
Qed.

Lemma PrepareEnviron_CONFIG_ENV (h : Host)
    (os_environ user_environ env : gmap string string)
    (config_name sdk_dir : string) :
  _config.PrepareEnviron h os_environ user_environ config_name sdk_dir
    = Ok env ->
  env !! constants.CONFIG_ENV = Some (posixpath.join sdk_dir config_name)
  /\ forall var,
       var <> "PATH" -> var <> constants.CONFIG_ENV ->
       var <> constants.PYTHON_ENV -> var <> constants.PYTHON_PATH ->
       env !! var = user_environ !! var.
Proof.
  rewrite PrepareEnviron_eq.
  destruct (os_environ !! "PATH") as [host_path|]; [|done]. cbv zeta.
  destruct (user_environ !! constants.PYTHON_ENV) as [py|] eqn:Hpy.
  - intros [= <-]. split.
    + rewrite lookup_insert_ne by done. apply lookup_insert_eq.
    + intros var H1 H2 H3 H4. by rewrite !lookup_insert_ne.
  - destruct (sys_executable h) as [exe|]; [|done].
    destruct (String.eqb exe ""); [done|].
    intros [= <-]. split.
    + rewrite !lookup_insert_ne by done. apply lookup_insert_eq.
    + intros var H1 H2 H3 H4. by rewrite !lookup_insert_ne.
Qed.

(** What a call of [SDKFromConfig] that returns went through. *)
Lemma SDKFromConfig_ok (h : Host) (rng : nat -> nat)
    (cfg : list (string * value)) (w w' : World) (sdk : driver.SDK) :
  driver.SDKFromConfig h rng cfg w = (w', Ok sdk) ->
  exists root user_environ env,
    environ w !! constants.DRIVER_LOCATION_ENV = Some root
    /\ pydict.get cfg "environment_variables" = Some (VMap user_environ)
    /\ _config.PrepareEnviron h (environ w) (list_to_map user_environ)
         (driver.random_config_name rng)
         (posixpath.join root constants.SDK_FOLDER) = Ok env
    /\ driver.SDK__init__ cfg (posixpath.join root constants.SDK_FOLDER)
         (driver.random_config_name rng) env = Ok sdk
    /\ driver.RunInitializationCommands h sdk w = (w', Ok tt).
Proof.
  unfold driver.SDKFromConfig. unfold bind at 1, os.getenv.
  destruct (environ w !! constants.DRIVER_LOCATION_ENV) as [root|];
    [|done].
  unfold bind at 1, lift, driver.getattr.
  destruct (pydict.get cfg "environment_variables") as [v|]; [|done].
  unfold bind at 1. unfold bind at 1.
  destruct v as [|s|user_environ]; cbn [driver.PrepareEnviron_value].
  - done.
  - destruct (str_contains "PATH" s); [done|].
    by destruct (environ w !! "PATH").
  - destruct (_config.PrepareEnviron _ _ _ _ _) as [env|] eqn:Henv; [|done].
    unfold bind at 1.
    destruct (driver.SDK__init__ _ _ _ _) as [sdk0|] eqn:Hsdk; [|done].
    intros H.
    apply bind_inv in H as [(w1 & [] & Hrun & [= <- <-])|(e & _ & [=])].
    exists root, user_environ, env. done.
Qed.

(** X23.  An SDK object that [SDKFromConfig] returns: the driver is
    initialised; the object is bound to the SDK directory below the
    root directory; its configuration name is [config] followed by eight
    characters out of the lower-case letters and the digits; its
    configuration is the frozen configuration, which holds no locked
    variable; its environment points [CLOUDSDK_CONFIG] to the directory
    of that name in the SDK directory and has the variables of the
    configuration; and the process environment is as it was. *)
Theorem SDKFromConfig_result (h : Host) (rng : nat -> nat)
    (cfg : list (string * value)) (w w' : World) (sdk : driver.SDK) :
  driver.SDKFromConfig h rng cfg w = (w', Ok sdk) ->
  exists root suffix user_environ,
    environ w !! constants.DRIVER_LOCATION_ENV = Some root
    /\ driver._sdk_dir sdk = posixpath.join root constants.SDK_FOLDER
    /\ driver._config_name sdk = "config" +:+ suffix
    /\ String.length suffix = 8
    /\ Forall (fun c => c ∈ list_ascii_of_string
                                driver.config_name_alphabet)
              (list_ascii_of_string suffix)
    /\ _config.ImmutableConfig__init__ cfg = Ok (driver.config sdk)
    /\ error.has_locked_variable cfg = false
    /\ driver._env sdk !! constants.CONFIG_ENV
       = Some (posixpath.join (driver._sdk_dir sdk)
                              (driver._config_name sdk))
    /\ pydict.get cfg "environment_variables" = Some (VMap user_environ)
    /\ (forall var,
          var <> "PATH" -> var <> constants.CONFIG_ENV ->
          var <> constants.PYTHON_ENV -> var <> constants.PYTHON_PATH ->
          driver._env sdk !! var = pydict.get user_environ var)
    /\ environ w' = environ w.
Proof.
  intros H.
  destruct (SDKFromConfig_ok _ _ _ _ _ _ H)
    as (root & user_environ & env & Hroot & Hvars & Henv & Hsdk & Hrun).
  destruct (random_config_name_shape rng) as (suffix & Hname & Hlen & Hal).
  exists root, suffix, user_environ.
  apply keeps_RunInitializationCommands in Hrun.
  unfold driver.SDK__init__, driver.Validate in Hsdk.
  pose proof (ValidateLocked_spec cfg) as Hv.
  destruct (error.has_locked_variable cfg).
  { destruct Hv as [msg Hv]. by rewrite Hv in Hsdk. }
  rewrite Hv in Hsdk.
  destruct (_config.ImmutableConfig__init__ cfg) as [c|]; [|done].
  injection Hsdk as <-. cbn [driver._sdk_dir driver._config_name
    driver.config driver._env].
  destruct (PrepareEnviron_CONFIG_ENV _ _ _ _ _ _ Henv) as [Hc Hframe].
  repeat split; try done.
  intros var H1 H2 H3 H4. rewrite Hframe by done.
  clear. induction user_environ as [|[k v] l IH]; [done|].
  cbn [list_to_map foldr pydict.get].
  destruct (String.eqb_spec k var) as [->|Hne].
  - apply lookup_insert_eq.
  - by rewrite lookup_insert_ne.
Qed.

Lemma SDKFromConfig_result_witness :
  match (driver.SDKFromConfig examples.host (fun i => i)
           constants.DEFAULT_CONFIG
           examples.installed_in_existing_directory).2 with
  | Ok sdk =>
      driver._sdk_dir sdk = "/work/google-cloud-sdk"
      /\ String.length (driver._config_name sdk) = 14
  | Raise _ => False
  end.
Proof.
  destruct (driver.SDKFromConfig examples.host (fun i => i)
              constants.DEFAULT_CONFIG
              examples.installed_in_existing_directory) as [w' r] eqn:E.
  destruct r as [sdk|e]; [|by vm_compute in E].
  destruct (SDKFromConfig_result _ _ _ _ _ _ E)
    as (root & suffix & ue & Hroot & Hdir & Hname & Hlen & _).
  vm_compute in Hroot. injection Hroot as <-.
  cbn [snd]. split; [exact Hdir|].
  by rewrite Hname, string_length_app, Hlen.
Defined.

Lemma RunGcloudRawOutput_list (h : Host) (self : driver.SDK)
    (l : list string) (w : World) :
  driver.RunGcloudRawOutput h self (driver.CmdList l) None None None None w
  = os.subprocess_run h ("gcloud" :: l)
      (posixpath.dirname (driver._sdk_dir self)) (driver._env self) None w.
Proof.
  unfold driver.RunGcloudRawOutput, driver.Run.
  cbn [driver._PrepareCommand]. destruct (TIMEOUT_ENABLED h); [done|].
  unfold bind, os.subprocess_run.
  by destruct (popen h _ _ _ _ _) as [[m out]|e].
Qed.

(** X24.  On an initialised driver, with a [PATH] in the process
    environment and a known interpreter, [DefaultSDK] returns an SDK
    object for the default configuration and runs no command: the state
    is as it was.  The environment of the object has the default
    [CLOUDSDK_CORE_DISABLE_PROMPTS], and its configuration directory is
    the one of its own name in the SDK directory. *)
Theorem DefaultSDK_spec (h : Host) (rng : nat -> nat) (w : World)
    (root host_path : string) :
  environ w !! constants.DRIVER_LOCATION_ENV = Some root ->
  environ w !! "PATH" = Some host_path ->
  truthy (sys_executable h) = true ->
  exists sdk,
    driver.DefaultSDK h rng w = (w, Ok sdk)
    /\ driver.config sdk = {| _config.__dict__ := constants.DEFAULT_CONFIG |}
    /\ driver._sdk_dir sdk = posixpath.join root constants.SDK_FOLDER
    /\ driver._config_name sdk = driver.random_config_name rng
    /\ driver._env sdk !! "CLOUDSDK_CORE_DISABLE_PROMPTS" = Some "1"
    /\ driver._env sdk !! constants.CONFIG_ENV
       = Some (posixpath.join (posixpath.join root constants.SDK_FOLDER)
                              (driver.random_config_name rng)).
Proof.
  intros Hroot Hpath Hpy.
  destruct (PrepareEnviron_returns h (environ w)
              (list_to_map [("CLOUDSDK_CORE_DISABLE_PROMPTS", "1")])
              (driver.random_config_name rng)
              (posixpath.join root constants.SDK_FOLDER) host_path Hpath
              (or_introl Hpy)) as [env Henv].
  destruct (PrepareEnviron_CONFIG_ENV _ _ _ _ _ _ Henv) as [Hc Hframe].
  eexists. split.
  - unfold driver.DefaultSDK. unfold bind at 1.
    change (driver.Config__init__ h None [] w)
      with (w, Ok constants.DEFAULT_CONFIG).
    cbv beta iota. unfold driver.SDKFromConfig.
    unfold bind at 1, os.getenv. rewrite Hroot.
    unfold bind at 1. cbn [lift driver.getattr pydict.get String.eqb
      Ascii.eqb Bool.eqb constants.DEFAULT_CONFIG].
    unfold bind at 1. unfold bind at 1.
    cbn [driver.PrepareEnviron_value lift]. rewrite Henv.
    reflexivity.
  - cbn [driver.config driver._sdk_dir driver._config_name driver._env].
    repeat split; try done. by rewrite Hframe.
Qed.

Lemma DefaultSDK_spec_witness :
  exists sdk,
    driver.DefaultSDK examples.host (fun i => i)
      examples.installed_in_existing_directory
    = (examples.installed_in_existing_directory, Ok sdk)
    /\ driver._config_name sdk = "configabcdefgh"
    /\ driver._env sdk !! "CLOUDSDK_CONFIG"
       = Some "/work/google-cloud-sdk/configabcdefgh".
Proof.
  destruct (DefaultSDK_spec examples.host (fun i => i)
              examples.installed_in_existing_directory "/work" "/usr/bin")
    as (sdk & H & _ & _ & Hname & _ & Hcfg).
  - vm_compute. reflexivity.
  - vm_compute. reflexivity.
  - reflexivity.
  - exists sdk. split; [exact H|]. split; [exact Hname | exact Hcfg].
Defined.

(** X25.  A configuration whose [environment_variables] hold a locked
    name gives no SDK object: [SDKFromConfig] raises and runs no
    command, the state is as it was.  On an initialised driver with a
    [PATH] in the process environment and a known interpreter, what it
    raises is the [ConfigError] of the validation. *)
Theorem SDKFromConfig_locked_variable (h : Host) (rng : nat -> nat)
    (cfg : list (string * value)) (w : World) :
  error.has_locked_variable cfg = true ->
  exists e,
    driver.SDKFromConfig h rng cfg w = (w, Raise e)
    /\ (is_Some (environ w !! constants.DRIVER_LOCATION_ENV) ->
        is_Some (environ w !! "PATH") ->
        truthy (sys_executable h) = true ->
        exists msg, e = ConfigError msg).
Proof.
  intros Hlocked. unfold driver.SDKFromConfig.
  unfold bind at 1, os.getenv.
  destruct (environ w !! constants.DRIVER_LOCATION_ENV) as [root|].
  2:{ eexists. split; [done|]. by intros [? ?]. }
  pose proof Hlocked as Hget. unfold error.has_locked_variable in Hget.
  unfold bind at 1, lift, driver.getattr.
  destruct (pydict.get cfg "environment_variables") as [[|s|user]|];
    try done.
  unfold bind at 1. unfold bind at 1. cbn [driver.PrepareEnviron_value].
  destruct (_config.PrepareEnviron h (environ w) (list_to_map user)
              (driver.random_config_name rng)
              (posixpath.join root constants.SDK_FOLDER))
    as [env|e] eqn:Henv.
  - unfold bind at 1, driver.SDK__init__, driver.Validate.
    pose proof (ValidateLocked_spec cfg) as Hv. rewrite Hlocked in Hv.
    destruct Hv as [msg ->]. eauto.
  - exists e. split; [done|]. intros _ [host_path Hpath] Hpy.
    destruct (PrepareEnviron_returns h (environ w) (list_to_map user)
                (driver.random_config_name rng)
                (posixpath.join root constants.SDK_FOLDER) host_path Hpath
                (or_introl Hpy)) as [env Hok].
    by rewrite Hok in Henv.
Qed.

Lemma SDKFromConfig_locked_variable_witness :
  exists msg,
    driver.SDKFromConfig examples.host (fun i => i)
      (pydict.set constants.DEFAULT_CONFIG "environment_variables"
         (VMap [("CLOUDSDK_CONFIG", "/elsewhere")]))
      examples.installed_in_existing_directory
    = (examples.installed_in_existing_directory, Raise (ConfigError msg)).
Proof.
  destruct (SDKFromConfig_locked_variable examples.host (fun i => i)
              (pydict.set constants.DEFAULT_CONFIG "environment_variables"
                 (VMap [("CLOUDSDK_CONFIG", "/elsewhere")]))
              examples.installed_in_existing_directory eq_refl)
    as (e & H & He).
  destruct He as [msg ->].
  - eexists. vm_compute. reflexivity.
  - eexists. vm_compute. reflexivity.
  - reflexivity.
  - by exists msg.
Defined.

(** X26.  [SDKFromArgs(project=p)] on an initialised driver sets the
    project with one [gcloud config set project p], run in the
    directory above the SDK directory.  If that exits with zero, the SDK
    object is returned and its frozen configuration has the project; if
    not, [SDKError] is raised.  Either way the state is the one that
    command left. *)
Theorem SDKFromArgs_project (h : Host) (rng : nat -> nat) (w : World)
    (root host_path p out err : string) (code : Z)
    (m : gmap (list string) fs.node) :
  environ w !! constants.DRIVER_LOCATION_ENV = Some root ->
  environ w !! "PATH" = Some host_path ->
  truthy (sys_executable h) = true ->
  p <> "" ->
  (forall env,
     popen h ["gcloud"; "config"; "set"; "project"; p]
       (posixpath.dirname (posixpath.join root constants.SDK_FOLDER))
       env None (files w) = Ok (m, (out, err, code))) ->
  if (code =? 0)%Z
  then exists sdk,
         driver.SDKFromArgs h rng [("project", VStr p)] w
         = (set_files m w, Ok sdk)
         /\ _config.__getitem__ (_config.__dict__ (driver.config sdk))
              "project" = Ok (VStr p)
  else exists msg,
         driver.SDKFromArgs h rng [("project", VStr p)] w
         = (set_files m w, Raise (SDKError msg)).
Proof.
  intros Hroot Hpath Hpy Hp Hpopen.
  destruct (PrepareEnviron_returns h (environ w)
              (list_to_map [("CLOUDSDK_CORE_DISABLE_PROMPTS", "1")])
              (driver.random_config_name rng)
              (posixpath.join root constants.SDK_FOLDER) host_path Hpath
              (or_introl Hpy)) as [env Henv].
  set (cfg := pydict.set constants.DEFAULT_CONFIG "project" (VStr p)).
  set (sdk := {| driver.config := {| _config.__dict__ := cfg |};
                 driver._sdk_dir :=
                   posixpath.join root constants.SDK_FOLDER;
                 driver._config_name := driver.random_config_name rng;
                 driver._env := env |}).
  assert (Hrun : driver.RunInitializationCommands h sdk w
                 = match (code =? 0)%Z with
                   | true => (set_files m w, Ok tt)
                   | false =>
                       error.HandlePossibleError (out, err, code) SDKError
                         "Setting project failed" (set_files m w)
                   end).
  { unfold driver.RunInitializationCommands.
    cbn [bind lift ret when_ driver.getattr sdk cfg driver.config
      _config.__dict__ pydict.get pydict.set constants.DEFAULT_CONFIG
      String.eqb Ascii.eqb Bool.eqb driver.value_truthy].
    apply String.eqb_neq in Hp. rewrite Hp. cbn [negb when_ bind].
    unfold driver.RunGcloudRawOutput_values.
    unfold bind, lift. cbn [driver.args_of].
    rewrite RunGcloudRawOutput_list.
    unfold os.subprocess_run. cbn [driver._sdk_dir driver._env].
    rewrite Hpopen. unfold error.HandlePossibleError.
    by destruct (code =? 0)%Z. }
  assert (Hcfg : driver.SDKFromArgs h rng [("project", VStr p)] w
                 = match driver.RunInitializationCommands h sdk w with
                   | (w', Ok _) => (w', Ok sdk)
                   | (w', Raise e) => (w', Raise e)
                   end).
  { unfold driver.SDKFromArgs. unfold bind at 1.
    change (driver.Config__init__ h None [("project", VStr p)] w)
      with (w, Ok cfg).
    cbv beta iota. unfold driver.SDKFromConfig.
    unfold bind at 1, os.getenv. rewrite Hroot.
    unfold bind at 1. cbn [lift driver.getattr cfg pydict.get pydict.set
      String.eqb Ascii.eqb Bool.eqb constants.DEFAULT_CONFIG].
    unfold bind at 1. unfold bind at 1.
    cbn [driver.PrepareEnviron_value lift]. rewrite Henv.
    unfold bind at 1.
    change (driver.SDK__init__ _ _ _ env) with (Ok sdk).
    cbv beta iota. unfold bind. cbn [lift].
    by destruct (driver.RunInitializationCommands h sdk w) as [w1 [[]|e]]. }
  rewrite Hcfg, Hrun. destruct (code =? 0)%Z eqn:Hcode.
  - exists sdk. split; [done|]. reflexivity.
  - unfold error.HandlePossibleError. rewrite Hcode. unfold raise. eauto.
Qed.

Lemma SDKFromArgs_project_witness :
  exists sdk,
    driver.SDKFromArgs examples.host (fun i => i) [("project", VStr "p")]
      examples.installed_in_existing_directory
    = (examples.installed_in_existing_directory, Ok sdk)
    /\ _config.__getitem__ (_config.__dict__ (driver.config sdk)) "project"
       = Ok (VStr "p").
Proof.
  assert (H1 : environ examples.installed_in_existing_directory
               !! constants.DRIVER_LOCATION_ENV = Some "/work")
    by (vm_compute; reflexivity).
  assert (H2 : environ examples.installed_in_existing_directory !! "PATH"
               = Some "/usr/bin") by (vm_compute; reflexivity).
  assert (H3 : "p" <> "") by discriminate.
  pose proof (SDKFromArgs_project examples.host (fun i => i)
                examples.installed_in_existing_directory "/work" "/usr/bin"
                "p" "" "" 0%Z
                (files examples.installed_in_existing_directory)
                H1 H2 eq_refl H3 (fun env => eq_refl)) as H.
  cbn [Z.eqb] in H. destruct H as (sdk & H & Hp).
  exists sdk. split; [|exact Hp]. rewrite H. f_equal.
Defined.

(** X27.  Activating the service account comes first and stops the
    initialisation if it fails.  For an SDK object whose configuration
    has a key file, [RunInitializationCommands] starts with [gcloud auth
    activate-service-account], the e-mail address if one is configured,
    and [--key-file] with the key file; if that exits with a code other
    than zero, [SDKError] is raised and nothing else is run: the state
    is the one that command left. *)
Theorem RunInitializationCommands_activation_failure (h : Host)
    (self : driver.SDK) (keyfile : string) (email : option string)
    (w : World) (m : gmap (list string) fs.node) (out err : string)
    (code : Z) :
  let cfg := _config.__dict__ (driver.config self) in
  pydict.get cfg "service_account_keyfile" = Some (VStr keyfile) ->
  keyfile <> "" ->
  pydict.get cfg "service_account_email"
  = Some match email with Some e => VStr e | None => VNone end ->
  popen h
    ("gcloud" :: "auth" :: "activate-service-account"
     :: match email with
        | Some e => if String.eqb e "" then [] else [e]
        | None => []
        end
     ++ ["--key-file"; keyfile])
    (posixpath.dirname (driver._sdk_dir self)) (driver._env self) None
    (files w) = Ok (m, (out, err, code)) ->
  code <> 0%Z ->
  exists msg,
    driver.RunInitializationCommands h self w
    = (set_files m w, Raise (SDKError msg)).
Proof.
  intros cfg Hkey Hne Hemail Hpopen Hcode.
  unfold driver.RunInitializationCommands. fold cfg.
  unfold bind at 1, lift, driver.getattr. rewrite Hkey.
  cbn [driver.value_truthy]. apply String.eqb_neq in Hne. rewrite Hne.
  cbn [negb when_]. unfold bind at 1. unfold bind at 1. rewrite Hemail.
  set (command := if driver.value_truthy _ then _ else _).
  assert (Hargs : driver.args_of (command ++ [VStr "--key-file"; VStr keyfile])
                  = Ok ("auth" :: "activate-service-account"
                        :: match email with
                           | Some e => if String.eqb e "" then [] else [e]
                           | None => []
                           end
                        ++ ["--key-file"; keyfile])).
  { subst command. destruct email as [e|]; [|done].
    cbn [driver.value_truthy]. by destruct (String.eqb e ""). }
  unfold bind at 1. unfold driver.RunGcloudRawOutput_values.
  unfold bind at 1, lift. rewrite Hargs.
  rewrite RunGcloudRawOutput_list. unfold os.subprocess_run.
  rewrite Hpopen. unfold error.HandlePossibleError.
  apply Z.eqb_neq in Hcode. rewrite Hcode. unfold raise. eauto.
Qed.

(** X28.  A configuration file that cannot be read, or whose YAML
    does not hold a mapping at its top level, gives no [Config]: the
    construction raises what reading the file raised, or a
    [ConfigError], and [SDKFromFile] raises the same without running
    anything; the state is as it was.  A file that [yaml.load] cannot
    parse gives no [Config] either, and what is raised is an
    [AttributeError], not the [ConfigError] of the handler: the handler
    names [yaml.parser.ParseError], which that module does not have. *)
Theorem Config_invalid_file (h : Host) (rng : nat -> nat)
    (filename : string) (kwargs : list (string * value)) (w : World) :
  filename <> "" ->
  match fs.read_file (files w) (os.locate h filename) with
  | Raise e =>
      driver.Config__init__ h (Some filename) kwargs w = (w, Raise e)
      /\ driver.SDKFromFile h rng (Some filename) w = (w, Raise e)
  | Ok content =>
      match yaml_load h content with
      | YamlMapping _ => True
      | YamlOther =>
          exists msg,
            driver.Config__init__ h (Some filename) kwargs w
            = (w, Raise (ConfigError msg))
            /\ driver.SDKFromFile h rng (Some filename) w
               = (w, Raise (ConfigError msg))
      | YamlParseError _ =>
          exists msg,
            driver.Config__init__ h (Some filename) kwargs w
            = (w, Raise (AttributeError msg))
            /\ driver.SDKFromFile h rng (Some filename) w
               = (w, Raise (AttributeError msg))
      end
  end.
Proof.
  intros Hne. apply String.eqb_neq in Hne.
  assert (Hload : driver.LoadFile h constants.DEFAULT_CONFIG filename w
    = match fs.read_file (files w) (os.locate h filename) with
      | Raise e => (w, Raise e)
      | Ok content =>
          match yaml_load h content with
          | YamlParseError msg =>
              (w, Raise (AttributeError
                           "'module' object has no attribute 'ParseError'"))
          | YamlOther =>
              (w, Raise (ConfigError
                           ("Invalid config file [" +:+ filename
                            +:+ "]. Top level is not a dictionary.")))
          | YamlMapping config =>
              (w, match error.ValidateLockedEnvironmentVariables config with
                  | Raise e => Raise e
                  | Ok _ =>
                      _config._UpdateDict constants.DEFAULT_CONFIG config
                  end)
          end
      end).
  { unfold driver.LoadFile. rewrite Hne. unfold bind, fs_read.
    destruct (fs.read_file _ _) as [content|e]; [|done].
    by destruct (yaml_load h content). }
  assert (Hinit : forall kw e,
            driver.LoadFile h constants.DEFAULT_CONFIG filename w
            = (w, Raise e) ->
            driver.Config__init__ h (Some filename) kw w = (w, Raise e)).
  { intros kw e H. unfold driver.Config__init__. unfold bind at 1.
    rewrite UpdateDict_defaults. unfold bind at 1. by rewrite H. }
  assert (Hsdk : forall e,
            driver.LoadFile h constants.DEFAULT_CONFIG filename w
            = (w, Raise e) ->
            driver.SDKFromFile h rng (Some filename) w = (w, Raise e)).
  { intros e H. unfold driver.SDKFromFile. unfold bind at 1.
    by rewrite (Hinit [] e H). }
  destruct (fs.read_file _ _) as [content|e].
  - destruct (yaml_load h content) as [msg|config|]; [|done|].
    + eexists. split; [by apply Hinit | by apply Hsdk].
    + eexists. split; [by apply Hinit | by apply Hsdk].
  - split; [by apply Hinit | by apply Hsdk].
Qed.

Lemma Config_invalid_file_witness :
  (exists msg,
     driver.Config__init__ examples.host (Some "/sdk.tar") []
       examples.world
     = (examples.world, Raise (ConfigError msg)))
  /\ (exists msg,
        driver.Config__init__ examples.host (Some "/broken.yaml") []
          samples.broken_yaml_world
        = (samples.broken_yaml_world, Raise (AttributeError msg))).
Proof.
  split.
  - assert (Hne : "/sdk.tar" <> "") by discriminate.
    pose proof (Config_invalid_file examples.host (fun i => i)
                  "/sdk.tar" [] examples.world Hne) as H.
    vm_compute fs.read_file in H.
    change (yaml_load examples.host "SDK") with YamlOther in H.
    destruct H as (msg & H & _). by exists msg.
  - assert (Hne : "/broken.yaml" <> "") by discriminate.
    pose proof (Config_invalid_file examples.host (fun i => i)
                  "/broken.yaml" [] samples.broken_yaml_world Hne) as H.
    vm_compute fs.read_file in H.
    change (yaml_load examples.host "{")
      with (YamlParseError "expected the node content") in H.
    destruct H as (msg & H & _). by exists msg.
Defined.

Lemma RunInitializationCommands_activation_failure_witness :
  exists msg,
    driver.RunInitializationCommands samples.failing_host
      samples.service_account_sdk examples.world
    = (examples.world, Raise (SDKError msg)).
Proof.
  assert (Hk : "/key.json" <> "") by discriminate.
  assert (Hc : 1%Z <> 0%Z) by discriminate.
  destruct (RunInitializationCommands_activation_failure
              samples.failing_host samples.service_account_sdk "/key.json"
              (Some "sa@example.com") examples.world (files examples.world)
              "" "ERROR: failed" 1%Z eq_refl Hk eq_refl eq_refl Hc)
    as [msg H].
  exists msg. by rewrite H.
Defined.

(** X29.  The installation proper.  After the download and the
    unpacking, [Init] runs one process in the SDK directory:
    [./install.sh] with the options that switch off prompts, shell
    changes and usage reporting, the [.bashrc] under the root directory
    as rc path, and the additional components, if there are any, behind
    [--additional-components].  Its environment is the process
    environment, to which the snapshot URL and [sys.executable] are
    added where the process environment does not set them.  If the
    installer exits with zero and the SDK directory is there, the
    location is published; if the directory is missing, or the exit
    code is not zero, [InitError] is raised and the location is not
    published. *)
Theorem Init_installer_process (h : Host) (tar_location : string)
    (additional_components : driver.components) (root_directory : string)
    (w w1 w2 : World) (download_path : string) (url : option string)
    (m : gmap (list string) fs.node) (out err : string) (code : Z) :
  let sdk_dir := posixpath.join root_directory constants.SDK_FOLDER in
  let argv :=
    [ "./install.sh"; "--disable-installation-options";
      "--bash-completion=false"; "--path-update=false";
      "--usage-reporting=false";
      "--rc-path=" +:+ root_directory +:+ "/.bashrc" ]
    ++ match additional_components with
       | driver.ComponentsList (c :: l) => "--additional-components" :: c :: l
       | _ => []
       end in
  let env : gmap string string :=
    environ w2
    ∪ match sys_executable h with
      | Some exe =>
          if String.eqb exe "" then ∅ else {[ constants.PYTHON_ENV := exe ]}
      | None => ∅
      end
    ∪ match url with
      | Some u =>
          if String.eqb u "" then ∅ else {[ constants.SNAPSHOT_ENV := u ]}
      | None => ∅
      end in
  _sdk_tar.DownloadTar h tar_location root_directory w
    = (w1, Ok download_path) ->
  _sdk_tar.UnpackTar h download_path tar_location root_directory w1
    = (w2, Ok url) ->
  is_Some (env !! constants.PYTHON_ENV) ->
  (forall s, additional_components = driver.ComponentsStr s -> s = "") ->
  popen h argv sdk_dir env None (files w2) = Ok (m, (out, err, code)) ->
  if (code =? 0)%Z then
    if os.isdir_in h (set_files m w2) sdk_dir then
      driver.install_into h tar_location additional_components
        root_directory w
      = (set_environ
           (<[constants.DRIVER_LOCATION_ENV := root_directory]> (environ w2))
           (set_files m w2), Ok tt)
    else
      driver.install_into h tar_location additional_components
        root_directory w
      = (set_files m w2,
         Raise (InitError
                  "SDK installation failed. SDK directory was not created."))
  else
    exists msg,
      driver.install_into h tar_location additional_components
        root_directory w
      = (set_files m w2, Raise (InitError msg)).
Proof.
  intros sdk_dir argv env Hdl Hun Hpy Hstr Hpopen.
  assert (Heq :
    driver.install_into h tar_location additional_components
      root_directory w
    = bind (error.HandlePossibleError (out, err, code) InitError
              "SDK installation failed")
        (fun _ =>
           bind (os.path_isdir h sdk_dir) (fun isd =>
             if negb isd
             then raise (InitError
               "SDK installation failed. SDK directory was not created.")
             else os.setenv constants.DRIVER_LOCATION_ENV root_directory))
        (set_files m w2)).
  { unfold driver.install_into.
    unfold bind at 1. rewrite Hdl. unfold bind at 1. rewrite Hun.
    unfold bind at 1. cbv zeta.
    set (env' := environ w2 ∪ _).
    assert (Henv : env' = env).
    { subst env' env. rewrite <- (assoc_L (∪)). f_equal.
      destruct (sys_executable h) as [exe|], url as [u|]; cbn [truthy];
        repeat match goal with
               | |- context [String.eqb ?s ""] => destruct (String.eqb s "")
               end; cbn [negb];
        rewrite ?(left_id_L ∅ (∪)), ?(right_id_L ∅ (∪)); done. }
    rewrite Henv. clear Henv env'.
    rewrite bool_decide_true by done. cbn [negb].
    fold sdk_dir.
    set (base := [ "./install.sh"; _; _; _; _; _ ]).
    assert (Hcmd :
      (if driver.components_truthy additional_components
       then match additional_components with
            | driver.NoComponents => ret base
            | driver.ComponentsStr _ =>
                raise (InitError
                  "additional_components must be an iterable of strings.")
            | driver.ComponentsList l =>
                ret (base ++ ["--additional-components"] ++ l)
            end
       else ret base) w2 = (w2, Ok argv)).
    { subst argv. fold base. destruct additional_components as [|s|[|c l]];
        cbn [driver.components_truthy]; rewrite ?app_nil_r; try done.
      rewrite (Hstr s eq_refl). done. }
    unfold bind at 1. rewrite Hcmd.
    unfold bind at 1, os.subprocess_run. by rewrite Hpopen. }
  rewrite Heq. unfold bind at 1, error.HandlePossibleError.
  destruct (code =? 0)%Z; [|unfold raise; eauto].
  unfold bind, ret, os.path_isdir.
  by destruct (os.isdir_in h (set_files m w2) sdk_dir).
Qed.

Lemma Init_installer_process_witness :
  (driver.install_into examples.host "/sdk.tar" driver.NoComponents "/work"
     examples.world).2 = Ok tt
  /\ environ (driver.install_into examples.host "/sdk.tar"
                driver.NoComponents "/work" examples.world).1
       !! "CLOUDSDK_DRIVER_LOCATION" = Some "/work".
Proof.
  assert (H1 : _sdk_tar.DownloadTar examples.host "/sdk.tar" "/work"
                 examples.world = (examples.world, Ok "/sdk.tar"))
    by (vm_compute; reflexivity).
  assert (H2 : _sdk_tar.UnpackTar examples.host "/sdk.tar" "/sdk.tar" "/work"
                 examples.world
               = ((_sdk_tar.UnpackTar examples.host "/sdk.tar" "/sdk.tar"
                     "/work" examples.world).1,
                  Ok (Some "file:///components-2.json")))
    by (vm_compute; reflexivity).
  pose proof (Init_installer_process examples.host "/sdk.tar"
                driver.NoComponents "/work" examples.world examples.world
                _ "/sdk.tar" _
                (files (_sdk_tar.UnpackTar examples.host "/sdk.tar"
                          "/sdk.tar" "/work" examples.world).1)
                "" "" 0%Z H1 H2) as H.
  cbv zeta in H. cbn [Z.eqb] in H.
  assert (H3 : forall s, driver.NoComponents = driver.ComponentsStr s ->
                         s = "") by discriminate.
  match type of H with
  | ?A -> _ =>
      assert (Ha : A) by (eexists; vm_compute; reflexivity);
      specialize (H Ha H3)
  end.
  match type of H with
  | ?A -> _ =>
      assert (Hp : A)
        by (unfold examples.host; cbn [popen]; by rewrite bool_decide_false);
      specialize (H Hp)
  end.
  match type of H with
  | (if ?b then _ else _) =>
      assert (Hb : b = true) by (vm_compute; reflexivity);
      rewrite Hb in H
  end.
  rewrite H. split; [reflexivity|]. vm_compute. reflexivity.
Defined.
